(** * Expense tracker (src/main.py): a shallow embedding and its properties

    The program is a single-window form over one SQLite table,
    [expenses(id, date, category, amount, description)].  This development
    embeds the parts of [ExpenseApp] that decide the behaviour of the
    persisted table:

    - Python values as the code has them: [str] as a list of Unicode code
      points, [float] as an IEEE 754 binary64 number ([spec_float] with
      [prec = 53], [emax = 1024]), the built-ins [str.strip] and [float];
    - the input mask of the amount field (the regular expression handed to
      [QRegularExpressionValidator] in [create_widgets]), with what the
      validator calls acceptable, intermediate and invalid;
    - the table created by [setup_database] with its [NOT NULL] and
      [CHECK(amount > 0)] constraints and its [AUTOINCREMENT] key, and the
      four SQL statements the program runs on it;
    - the slots [add_expense], [delete_expense], [load_table] and
      [update_total];
    - the window with its input widgets, its selection and its focus
      ([Gui]): [create_widgets], [clear_inputs], the slots as they read
      and reset the widgets, and the signals of [setup_connections];
    - the texts the window shows ([Render]): the cells of [load_table] and
      the label of [update_total], with Python's [str] of an [int] and
      the format [,.2f] of a [float].

    In [App] a slot takes the contents of the input widgets as an argument
    and the window as a state; the window records the statements that
    were run, so that "no storage call" can be stated.  In [Gui] the
    widgets are part of the state, and the day [QDate.currentDate()]
    returns is given with each event; it is taken to be a day the date box
    can hold (14 September 1752 or later).  Widget layout and styling, the
    marking of the amount by [selectAll] and the texts of the message
    boxes other than their warnings are not modelled.

    What the libraries under the program do is written out from their
    behaviour: [float] and [str.strip] as CPython 3.11 has them (Unicode
    14); the validator and the line edit as Qt 6 has them (the pattern is
    matched between [\A] and [\z], a partial match of PCRE2 makes a text
    intermediate, and the line edit refuses only what is invalid); the
    statements as SQLite runs them, [SUM] over a [REAL] column with the
    Kahan-Babuska-Neumaier summation it has had since release 3.43.  Keys
    are unbounded integers.  Failures of the
    environment (an I/O error, a full disk, an exhausted rowid space) are
    outside the model: a statement fails here only through a constraint of
    the schema.

    The file has the definitions first, then the facts about them, then
    one theorem for each property of the specification (C1 to C10) and
    further properties of the slots, of the window and of what it
    shows. *)

From Stdlib Require Import ZArith NArith PArith List Bool Lia String Ascii.
From Stdlib Require Import SpecFloat QArith Sorted Permutation DecimalN.
Import ListNotations.

Local Open Scope Z_scope.

(* ================================================================== *)
(** * Python strings *)

Module Str.

(** A Python [str] is a sequence of code points. *)
Definition char := N.
Definition text := list char.

(** ASCII literals of the source, as code points. *)
Definition of_string (s : string) : text :=
  List.map (fun a => N_of_ascii a) (list_ascii_of_string s).

Definition in_range (lo hi c : N) : bool := ((lo <=? c) && (c <=? hi))%N.

(** [str.isspace] of one character (CPython's [Py_UNICODE_ISSPACE]):
    bidirectional classes WS, B and S, and category Zs. *)
Definition is_space (c : char) : bool :=
  in_range 9 13 c || in_range 28 32 c || (c =? 133)%N || (c =? 160)%N
  || (c =? 5760)%N || in_range 8192 8202 c || (c =? 8232)%N || (c =? 8233)%N
  || (c =? 8239)%N || (c =? 8287)%N || (c =? 12288)%N.

(** Dropping from the front of a text the characters of a class [sp], and
    dropping them at both ends. *)
Fixpoint drop_while (sp : char -> bool) (s : text) : text :=
  match s with
  | c :: s' => if sp c then drop_while sp s' else s
  | [] => []
  end.

Definition drop_both (sp : char -> bool) (s : text) : text :=
  rev (drop_while sp (rev (drop_while sp s))).

(** [str.lstrip()], [str.rstrip()] and [str.strip()] without argument. *)
Definition lstrip (s : text) : text := drop_while is_space s.

Definition rstrip (s : text) : text := rev (lstrip (rev s)).

Definition strip (s : text) : text := rstrip (lstrip s).

(** A text that [strip] leaves alone and that is not empty: it starts and
    ends with a character that is no space. *)
Definition trimmed (s : text) : bool :=
  match s with
  | [] => false
  | c :: _ => negb (is_space c) && negb (is_space (last s c))
  end.

(** Truth value of a string: [not s] holds for the empty string only. *)
Definition is_empty (s : text) : bool :=
  match s with [] => true | _ => false end.

(** Comparing first by [c1], then by [c2]. *)
Definition lexc (c1 c2 : comparison) : comparison :=
  match c1 with Eq => c2 | Lt => Lt | Gt => Gt end.

(** Bytewise comparison of two texts, SQLite's [BINARY] collation.  UTF-8
    keeps the order of code points, so the comparison is lexicographic on
    code points, a proper prefix being smaller. *)
Fixpoint compare (a b : text) : comparison :=
  match a, b with
  | [], [] => Eq
  | [], _ :: _ => Lt
  | _ :: _, [] => Gt
  | x :: a', y :: b' =>
      match N.compare x y with
      | Eq => compare a' b'
      | c => c
      end
  end.

Definition leb (a b : text) : bool :=
  match compare a b with Gt => false | _ => true end.

End Str.

Import Str.

(* ================================================================== *)
(** * Python floats *)

Module Float.

(** A Python [float], which is also the value of a [REAL] column: a
    binary64 number of IEEE 754, with the arithmetic of [SpecFloat]. *)
Definition float := spec_float.

Definition prec : Z := 53.
Definition emax : Z := 1024.

Definition zero : float := S754_zero false.
Definition add : float -> float -> float := SFadd prec emax.
Definition sub : float -> float -> float := SFsub prec emax.
Definition div : float -> float -> float := SFdiv prec emax.
Definition abs : float -> float := SFabs.
Definition ltb : float -> float -> bool := SFltb.
Definition leb : float -> float -> bool := SFleb.
Definition eqb : float -> float -> bool := SFeqb.

Definition is_nan (x : float) : bool :=
  match x with S754_nan => true | _ => false end.

(** Truth value of a float: [x or y] takes [y] when [x] is a zero. *)
Definition is_falsy (x : float) : bool :=
  match x with S754_zero _ => true | _ => false end.

(** A mantissa with its rounding bits, as the shifts of [SpecFloat]
    carry it, that is not negative. *)
Definition mantissa_not_negative (mrs : shr_record) : Prop := 0 <= shr_m mrs.

(** A float whose sign bit is clear, or a NaN. *)
Definition not_negative (x : float) : bool :=
  match x with
  | S754_zero s | S754_infinity s | S754_finite s _ _ => negb s
  | S754_nan => true
  end.

(** The real number a finite float stands for; the non-finite ones carry
    none and count as [0]. *)
Definition exact_value (x : float) : Q :=
  match x with
  | S754_finite s m e =>
      ((if s then Zneg m else Zpos m) # 1) * Qpower (2 # 1) e
  | _ => 0%Q
  end.

(** ** [float(str)]

    CPython's [float_from_string]: the text is brought to ASCII, stripped,
    freed of digit-group underscores and parsed against
    [[sign] (digits [. [digits]] | . digits) [(e|E) [sign] digits]]
    or a signed [inf], [infinity] or [nan]; the decimal value is rounded to
    the nearest binary64 number, ties to even. *)

(** Start of each block of ten decimal digits (Unicode 14, category Nd);
    the digit of value [k] sits at offset [k]. *)
Definition digit_blocks : list N :=
  [48; 1632; 1776; 1984; 2406; 2534; 2662; 2790; 2918; 3046; 3174; 3302;
   3430; 3558; 3664; 3792; 3872; 4160; 4240; 6112; 6160; 6470; 6608; 6784;
   6800; 6992; 7088; 7232; 7248; 42528; 43216; 43264; 43472; 43504; 43600;
   44016; 65296; 66720; 68912; 69734; 69872; 69942; 70096; 70384; 70736;
   70864; 71248; 71360; 71472; 71904; 72016; 72784; 73040; 73120; 92768;
   92864; 93008; 120782; 120792; 120802; 120812; 120822; 123200; 123632;
   125264; 130032]%N.

Definition decimal_digit (c : char) : option N :=
  match find (fun b => in_range b (b + 9) c) digit_blocks with
  | Some b => Some (c - b)%N
  | None => None
  end.

(** [_PyUnicode_TransformDecimalAndSpaceToASCII].  An ASCII string is
    taken as it is.  In any other string the characters below 127 stay,
    other spaces become a blank and other decimal digits their ASCII digit;
    at any other character the result ends with a question mark. *)
Fixpoint transform (s : text) : text :=
  match s with
  | [] => []
  | c :: s' =>
      if (c <? 127)%N then c :: transform s'
      else if is_space c then 32%N :: transform s'
      else match decimal_digit c with
           | Some d => (48 + d)%N :: transform s'
           | None => [63%N]
           end
  end.

Definition to_ascii (s : text) : text :=
  if forallb (fun c => (c <? 128)%N) s then s else transform s.

(** [Py_ISSPACE]. *)
Definition is_ascii_space (c : char) : bool :=
  in_range 9 13 c || (c =? 32)%N.

Definition strip_ascii (s : text) : text := drop_both is_ascii_space s.

Definition is_digit (c : char) : bool := in_range 48 57 c.

Definition underscore : char := 95%N.

(** The loop of [_Py_string_to_number_with_underscores]: an underscore
    must stand between two digits; [prev] is the character before. *)
Fixpoint drop_underscores (prev : char) (s : text) : option text :=
  match s with
  | [] => if (prev =? underscore)%N then None else Some []
  | c :: s' =>
      if (c =? underscore)%N then
        if is_digit prev then drop_underscores c s' else None
      else if (prev =? underscore)%N && negb (is_digit c) then None
      else option_map (cons c) (drop_underscores c s')
  end.

Definition to_lower (c : char) : char :=
  if in_range 65 90 c then (c + 32)%N else c.

(** [case_insensitive_match]: the rest of [s] after the lower-case word
    [t], when [s] starts with it in any case. *)
Fixpoint match_word (t s : text) : option text :=
  match t with
  | [] => Some s
  | x :: t' =>
      match s with
      | c :: s' => if (to_lower c =? x)%N then match_word t' s' else None
      | [] => None
      end
  end.

Definition parse_sign (s : text) : bool * text :=
  match s with
  | 45%N :: s' => (true, s')
  | 43%N :: s' => (false, s')
  | _ => (false, s)
  end.

(** [_Py_parse_inf_or_nan]: the value and the unread rest. *)
Definition parse_inf_or_nan (s : text) : option (float * text) :=
  let (neg, r) := parse_sign s in
  match match_word (of_string "inf") r with
  | Some r1 =>
      match match_word (of_string "inity") r1 with
      | Some r2 => Some (S754_infinity neg, r2)
      | None => Some (S754_infinity neg, r1)
      end
  | None =>
      match match_word (of_string "nan") r with
      | Some r1 => Some (S754_nan, r1)
      | None => None
      end
  end.

(** The longest run of digits at the head of [s], as digit values. *)
Fixpoint take_digits (s : text) : list N * text :=
  match s with
  | c :: s' =>
      if is_digit c then
        let (ds, r) := take_digits s' in ((c - 48)%N :: ds, r)
      else ([], s)
  | [] => ([], [])
  end.

Definition digits_value (ds : list N) : N :=
  fold_left (fun a d => (10 * a + d)%N) ds 0%N.

(** Limits of [_Py_dg_strtod]: a numeral of more than [max_digits]
    significant digits, or of as many after the point, is refused; an
    exponent of more than nine significant digits, or one beyond
    [max_abs_exp], counts as [max_abs_exp]. *)
Definition max_digits : Z := 1000000000.
Definition max_abs_exp : Z := 1100000000.

Fixpoint drop_zeros (ds : list N) : list N :=
  match ds with
  | 0%N :: ds' => drop_zeros ds'
  | _ => ds
  end.

Definition count (ds : list N) : Z := Z.of_nat (List.length ds).

(** The exponent part, which must reach the end of the text. *)
Definition parse_exponent (s : text) : option Z :=
  match s with
  | [] => Some 0
  | c :: s' =>
      if (to_lower c =? 101)%N then
        let (neg, r) := parse_sign s' in
        match take_digits r with
        | ((_ :: _) as ds, []) =>
            let abs_exp := Z.of_N (digits_value ds) in
            let e := if (9 <? count (drop_zeros ds)) || (max_abs_exp <? abs_exp)
                     then max_abs_exp else abs_exp in
            Some (if neg then - e else e)
        | _ => None
        end
      else None
  end.

(** The digits of a decimal numeral without sign: the integer formed by
    all its digits and the power of ten that scales it. *)
Definition parse_decimal (s : text) : option (N * Z) :=
  let (ip, r1) := take_digits s in
  let (fp, r2) := match r1 with
                  | 46%N :: r => take_digits r
                  | _ => ([], r1)
                  end in
  match ip ++ fp with
  | [] => None
  | ds =>
      if (max_digits <? count (drop_zeros ds)) || (max_digits <? count fp)
      then None
      else
        match parse_exponent r2 with
        | Some e => Some (digits_value ds, e - count fp)
        | None => None
        end
  end.

(** The binary64 number nearest to [(-1)^neg * m * 10^e], ties to even:
    the quotient of two integers, rounded once. *)
Definition of_decimal (neg : bool) (m : N) (e : Z) : float :=
  match m with
  | N0 => S754_zero neg
  | Npos p =>
      let num := (p * Z.to_pos (10 ^ Z.max e 0))%positive in
      let den := Z.to_pos (10 ^ Z.max (- e) 0) in
      div (S754_finite neg num 0) (S754_finite false den 0)
  end.

(** [float_from_string_inner]: the whole text must be consumed. *)
Definition from_string_inner (s : text) : option float :=
  match parse_inf_or_nan s with
  | Some (v, []) => Some v
  | Some (_, _ :: _) => None
  | None =>
      let (neg, r) := parse_sign s in
      match parse_decimal r with
      | Some (m, e) => Some (of_decimal neg m e)
      | None => None
      end
  end.

(** [float(s)] for a string [s]; [None] stands for [ValueError]. *)
Definition of_text (s : text) : option float :=
  let a := strip_ascii (to_ascii s) in
  if existsb (fun c => (c =? underscore)%N) a then
    match drop_underscores 0%N a with
    | Some b => from_string_inner b
    | None => None
    end
  else from_string_inner a.

End Float.

Import Float.

(* ================================================================== *)
(** * The input mask of the amount field *)

Module Validator.

(** Regular expressions over code points, as far as the pattern of
    [create_widgets] needs them. *)
Inductive regex : Type :=
  | Void
  | Eps
  | Class (p : char -> bool)
  | Cat (r1 r2 : regex)
  | Alt (r1 r2 : regex)
  | Star (r : regex).

(** The language of a regular expression. *)
Inductive lang : regex -> text -> Prop :=
  | LEps : lang Eps []
  | LClass p c : p c = true -> lang (Class p) [c]
  | LCat r1 r2 s1 s2 : lang r1 s1 -> lang r2 s2 -> lang (Cat r1 r2) (s1 ++ s2)
  | LAltL r1 r2 s : lang r1 s -> lang (Alt r1 r2) s
  | LAltR r1 r2 s : lang r2 s -> lang (Alt r1 r2) s
  | LStarNil r : lang (Star r) []
  | LStarCons r s1 s2 :
      lang r s1 -> lang (Star r) s2 -> lang (Star r) (s1 ++ s2).

(** Matching by derivatives. *)
Fixpoint nullable (r : regex) : bool :=
  match r with
  | Void => false
  | Eps => true
  | Class _ => false
  | Cat r1 r2 => nullable r1 && nullable r2
  | Alt r1 r2 => nullable r1 || nullable r2
  | Star _ => true
  end.

Fixpoint deriv (c : char) (r : regex) : regex :=
  match r with
  | Void => Void
  | Eps => Void
  | Class p => if p c then Eps else Void
  | Cat r1 r2 =>
      if nullable r1 then Alt (Cat (deriv c r1) r2) (deriv c r2)
      else Cat (deriv c r1) r2
  | Alt r1 r2 => Alt (deriv c r1) (deriv c r2)
  | Star r1 => Cat (deriv c r1) (Star r1)
  end.

(** Whether the whole of [s] matches [r]. *)
Fixpoint matches (r : regex) (s : text) : bool :=
  match s with
  | [] => nullable r
  | c :: s' => matches (deriv c r) s'
  end.

(** [\d] (ASCII digits: the pattern sets no Unicode option), [\.],
    [r+], [r?] and [r{0,2}]. *)
Definition digit : regex := Class is_digit.
Definition dot : regex := Class (fun c => (c =? 46)%N).
Definition plus (r : regex) : regex := Cat r (Star r).
Definition opt (r : regex) : regex := Alt r Eps.
Definition upto2 (r : regex) : regex := Cat (opt r) (opt r).

(** [^\d+\.?\d{0,2}$] between its anchors.  The validator wraps the
    pattern in [\A(?:...)\z], so a match takes the whole text. *)
Definition amount_pattern : regex :=
  Cat (plus digit) (Cat (opt dot) (upto2 digit)).

(** [QValidator.State] *)
Inductive state := Invalid | Intermediate | Acceptable.

(** What is left of [r] to match when [s] has been read. *)
Fixpoint residual (r : regex) (s : text) : regex :=
  match s with
  | [] => r
  | c :: s' => residual (deriv c r) s'
  end.

(** Whether a match of [r] asks for a character next. *)
Fixpoint wants_more (r : regex) : bool :=
  match r with
  | Void => false
  | Eps => false
  | Class _ => true
  | Cat r1 r2 => wants_more r1 || (nullable r1 && wants_more r2)
  | Alt r1 r2 => wants_more r1 || wants_more r2
  | Star r1 => wants_more r1
  end.

(** [more r s]: a match of [r] reads the whole of [s] and then asks for a
    character; [wants_more (residual r s)] says no more than that. *)
Inductive more : regex -> text -> Prop :=
  | MClass p : more (Class p) []
  | MCatL r1 r2 s : more r1 s -> more (Cat r1 r2) s
  | MCatR r1 r2 s1 s2 :
      lang r1 s1 -> more r2 s2 -> more (Cat r1 r2) (s1 ++ s2)
  | MAltL r1 r2 s : more r1 s -> more (Alt r1 r2) s
  | MAltR r1 r2 s : more r2 s -> more (Alt r1 r2) s
  | MStar r s1 s2 :
      lang (Star r) s1 -> more r s2 -> more (Star r) (s1 ++ s2).

Definition line_feed : char := 10%N.

(** The text before a line feed that ends [s]. *)
Fixpoint before_line_feed (s : text) : option text :=
  match s with
  | [] => None
  | c :: s' =>
      match s' with
      | [] => if (c =? line_feed)%N then Some [] else None
      | _ :: _ => option_map (cons c) (before_line_feed s')
      end
  end.

(** A partial match of [\A(?:^r$)\z]: the matcher comes to the end of
    the text while it tries to go on.  It does so when [r] has read the
    whole text and asks for a character, and when [$] holds: [$] holds at
    the end of the text and also before a line feed that ends it, where
    [\z] then fails. *)
Definition partial_match (r : regex) (s : text) : bool :=
  wants_more (residual r s)
  || match before_line_feed s with
     | Some p => matches r p
     | None => false
     end.

(** [QRegularExpressionValidator.validate]: a match is acceptable; the
    empty input and an input with a partial match are intermediate. *)
Definition validate (s : text) : state :=
  if matches amount_pattern s then Acceptable
  else if is_empty s || partial_match amount_pattern s then Intermediate
  else Invalid.

(** [QLineEdit.maxLength], which [create_widgets] leaves at its default. *)
Definition max_length : Z := 32767.

(** What [amount_input] can hold: [QLineEdit] refuses an edit that the
    validator calls invalid or that makes the text longer than
    [max_length]. *)
Definition field_allows (s : text) : bool :=
  (Z.of_nat (List.length s) <=? max_length)
  && match validate s with Invalid => false | _ => true end.

(** What [add_expense] can find in the field once it has dropped the
    spaces at the ends of the text: nothing, or a match of the pattern. *)
Definition entry_allows (s : text) : bool :=
  (Z.of_nat (List.length s) <=? max_length)
  && (is_empty s || matches amount_pattern s).

(** The digits after the decimal point of an entry. *)
Fixpoint decimals (s : text) : text :=
  match s with
  | [] => []
  | c :: s' => if (c =? 46)%N then s' else decimals s'
  end.

(** An entry the mask accepts: digits, at least one, and then at most a
    point with up to two digits. *)
Inductive entry : text -> Prop :=
  | EntryInt ip :
      ip <> [] -> Forall (fun c => is_digit c = true) ip -> entry ip
  | EntryFrac ip fp :
      ip <> [] -> Forall (fun c => is_digit c = true) ip ->
      Forall (fun c => is_digit c = true) fp -> (List.length fp <= 2)%nat ->
      entry (ip ++ 46%N :: fp).

(** The characters of an entry. *)
Definition entry_char (c : char) : bool := is_digit c || (c =? 46)%N.

End Validator.

(* ================================================================== *)
(** * Dates of the date box *)

Module Date.

(** A [QDate] of the Gregorian calendar. *)
Record qdate := { year : N; month : N; day : N }.

Definition compare (a b : qdate) : comparison :=
  match N.compare (year a) (year b) with
  | Eq => match N.compare (month a) (month b) with
          | Eq => N.compare (day a) (day b)
          | c => c
          end
  | c => c
  end.

Definition leb (a b : qdate) : bool :=
  match compare a b with Gt => false | _ => true end.

Definition is_leap (y : N) : bool :=
  ((y mod 4 =? 0) && (negb (y mod 100 =? 0) || (y mod 400 =? 0)))%N.

Definition days_in_month (y m : N) : N :=
  (if m =? 2 then (if is_leap y then 29 else 28)
   else if (m =? 4) || (m =? 6) || (m =? 9) || (m =? 11) then 30
   else 31)%N.

Definition is_valid (d : qdate) : bool :=
  ((1 <=? month d) && (month d <=? 12) && (1 <=? day d)
   && (day d <=? days_in_month (year d) (month d)))%N.

(** The earliest date a [QDateEdit] takes unless told otherwise. *)
Definition minimum_date : qdate := {| year := 1752; month := 9; day := 14 |}.

(** What [date_box] can hold when the program was started on [today]:
    [setMaximumDate(QDate.currentDate())]. *)
Definition box_allows (today d : qdate) : bool :=
  is_valid d && leb minimum_date d && leb d today.

Definition digit_char (n : N) : char := (48 + n mod 10)%N.

(** Years, months and days that fill no more than their four, two and
    two places. *)
Definition fits (d : qdate) : bool :=
  ((year d <? 10000) && (month d <? 100) && (day d <? 100))%N.

(** [QDate.toString("yyyy-MM-dd")] for a year of at most four digits. *)
Definition to_string (d : qdate) : text :=
  [digit_char (year d / 1000); digit_char (year d / 100);
   digit_char (year d / 10); digit_char (year d); 45%N;
   digit_char (month d / 10); digit_char (month d); 45%N;
   digit_char (day d / 10); digit_char (day d)].

End Date.

(* ================================================================== *)
(** * The expenses table *)

Module Db.

(** One row of
    [expenses(id INTEGER PRIMARY KEY AUTOINCREMENT, date TEXT NOT NULL,
     category TEXT NOT NULL, amount REAL NOT NULL CHECK(amount > 0),
     description TEXT NOT NULL)]. *)
Record row := {
  id : Z;
  date : text;
  category : text;
  amount : float;
  description : text
}.

(** The table, its rows in rowid order (the order in which [SUM] adds
    them and in which a stable sort leaves rows of one date), and the entry
    [AUTOINCREMENT] keeps for it in [sqlite_sequence]: the largest rowid
    handed out so far. *)
Record store := { rows : list row; seq : Z }.

Inductive column := ColDate | ColCategory | ColAmount | ColDescription.

(** The two ways a statement of the program can violate the schema. *)
Inductive error :=
  | NotNullFailed (c : column)
  | CheckFailed.

Inductive result (A : Type) :=
  | Ok (a : A)
  | Failed (e : error).
Arguments Ok {A} a.
Arguments Failed {A} e.

Definition empty : store := {| rows := []; seq := 0 |}.

(** [CREATE TABLE IF NOT EXISTS expenses (...)] on the database file:
    a table that is there is left as it is. *)
Definition setup_database (file : option store) : store :=
  match file with
  | Some st => st
  | None => empty
  end.

Definition max_rowid (l : list row) : Z :=
  fold_right (fun r m => Z.max (id r) m) 0 l.

(** The key of the next row: one more than the largest rowid that is or
    ever was in the table. *)
Definition next_rowid (st : store) : Z :=
  Z.max (seq st) (max_rowid (rows st)) + 1.

(** The row an insert adds. *)
Definition new_row (d c : text) (a : float) (s : text) (st : store) : row :=
  {| id := next_rowid st; date := d; category := c; amount := a;
     description := s |}.

(** Binding a Python float to a parameter: a NaN is stored as [NULL]. *)
Definition bind_double (a : option float) : option float :=
  match a with
  | Some x => if is_nan x then None else Some x
  | None => None
  end.

(** [INSERT INTO expenses (date, category, amount, description)
     VALUES (?, ?, ?, ?)], [None] binding [NULL].  The [NOT NULL]
    constraints are tested in column order, then the [CHECK]; a statement
    that fails changes nothing. *)
Definition insert (d c : option text) (a : option float) (s : option text)
    (st : store) : result Z * store :=
  match d, c, bind_double a, s with
  | None, _, _, _ => (Failed (NotNullFailed ColDate), st)
  | _, None, _, _ => (Failed (NotNullFailed ColCategory), st)
  | _, _, None, _ => (Failed (NotNullFailed ColAmount), st)
  | _, _, _, None => (Failed (NotNullFailed ColDescription), st)
  | Some d', Some c', Some a', Some s' =>
      if Float.ltb zero a' then
        (Ok (next_rowid st),
         {| rows := rows st ++ [new_row d' c' a' s' st];
            seq := next_rowid st |})
      else (Failed CheckFailed, st)
  end.

(** [DELETE FROM expenses WHERE id = ?]: every row with that key goes;
    a statement that finds none succeeds all the same. *)
Definition delete (k : Z) (st : store) : result unit * store :=
  (Ok tt,
   {| rows := filter (fun r => negb (id r =? k)) (rows st); seq := seq st |}).

(** [ORDER BY date DESC]: each row's date is at least the date of every
    row after it. *)
Definition date_desc (a b : row) : Prop := Str.leb (date b) (date a) = true.

(** [SELECT id, date, category, amount, description FROM expenses
     ORDER BY date DESC]: any arrangement of the rows that is sorted by
    date, largest first, is a result the statement may produce. *)
Definition select_ordered (st : store) (l : list row) : Prop :=
  Permutation (rows st) l /\ StronglySorted date_desc l.

(** The result of an engine that sorts stably: rows of one date come in
    rowid order. *)
Fixpoint insert_desc (r : row) (l : list row) : list row :=
  match l with
  | [] => [r]
  | x :: l' =>
      if Str.leb (date x) (date r) then r :: l else x :: insert_desc r l'
  end.

Definition order_by_date_desc (l : list row) : list row :=
  fold_right insert_desc [] l.

Definition fetch_all (st : store) : list row := order_by_date_desc (rows st).

(** The context of a [SUM] over [REAL] values ([SumCtx] in SQLite's
    [func.c]): the running sum and the error term of the
    Kahan-Babuska-Neumaier summation. *)
Record sum_ctx := { rSum : float; rErr : float }.

(** [kahanBabuskaNeumaierStep]: the value [r] is added to the running sum,
    and what this addition lost is added to the error term; the loss is
    worked out from the larger of the two operands,
    [if (fabs(s) > fabs(r))]. *)
Definition kahan_step (p : sum_ctx) (r : float) : sum_ctx :=
  let s := rSum p in
  let t := Float.add s r in
  {| rSum := t;
     rErr :=
       Float.add (rErr p)
         (if Float.ltb (Float.abs r) (Float.abs s)
          then Float.add (Float.sub s t) r
          else Float.add (Float.sub r t) s) |}.

(** [sqlite3IsOverflow]: an infinity or a NaN. *)
Definition is_overflow (x : float) : bool :=
  match x with
  | S754_infinity _ | S754_nan => true
  | _ => false
  end.

(** [sumFinalize]: the error term is added to the running sum, unless it
    has overflowed. *)
Definition sum_finalize (p : sum_ctx) : float :=
  if is_overflow (rErr p) then rSum p else Float.add (rSum p) (rErr p).

(** [SUM] of binary64 values: [sumStep] takes them one after the other, in
    rowid order, starting from a running sum and an error term of [0.0]. *)
Definition float_sum (l : list float) : float :=
  sum_finalize (fold_left kahan_step l {| rSum := zero; rErr := zero |}).

(** [sqlite3_result_double]: a NaN is handed out as [NULL]. *)
Definition result_double (x : float) : option float :=
  if is_nan x then None else Some x.

(** [SELECT SUM(amount) FROM expenses]: [NULL] when there is no row. *)
Definition select_sum (st : store) : option float :=
  match rows st with
  | [] => None
  | _ :: _ => result_double (float_sum (List.map amount (rows st)))
  end.

(** The sum of the amounts as real numbers, without rounding. *)
Definition exact_sum (l : list row) : Q :=
  fold_right (fun r q => (exact_value (amount r) + q)%Q) 0%Q l.

(** Statements a caller of the persistence layer may run, in any order. *)
Inductive op :=
  | Insert (d c : option text) (a : option float) (s : option text)
  | Delete (k : Z).

(** One statement: the store after it and the key it assigned, if any. *)
Definition exec (o : op) (st : store) : store * option Z :=
  match o with
  | Insert d c a s =>
      match insert d c a s st with
      | (Ok k, st') => (st', Some k)
      | (Failed _, st') => (st', None)
      end
  | Delete k => (snd (delete k st), None)
  end.

(** A sequence of statements: the final store and the keys assigned, in
    the order of assignment. *)
Fixpoint run (os : list op) (st : store) : store * list Z :=
  match os with
  | [] => (st, [])
  | o :: os' =>
      let (st1, k) := exec o st in
      let (st2, ks) := run os' st1 in
      (st2, match k with Some k' => k' :: ks | None => ks end)
  end.

(** What the constraints of the schema and the key generator maintain. *)
Record well_formed (st : store) : Prop := {
  wf_keys : StronglySorted Z.lt (List.map id (rows st));
  wf_seq : Forall (fun r => 0 < id r <= seq st) (rows st);
  wf_amount : Forall (fun r => Float.ltb zero (amount r) = true) (rows st)
}.

End Db.

(* ================================================================== *)
(** * The application *)

Module App.

Import Db.

(** The entries of [category_dropdown], in the order of [addItems]; the
    box is not editable, so its text is one of theirs. *)
Inductive category_choice :=
  | Food | Transport | Bills | Shopping | Entertainment | Healthcare | Others.

Definition categories : list category_choice :=
  [Food; Transport; Bills; Shopping; Entertainment; Healthcare; Others].

Definition category_text (c : category_choice) : text :=
  of_string
    match c with
    | Food => "Food"
    | Transport => "Transport"
    | Bills => "Bills"
    | Shopping => "Shopping"
    | Entertainment => "Entertainment"
    | Healthcare => "Healthcare"
    | Others => "Others"
    end.

(** The contents of the four input widgets. *)
Record form := {
  date_box : Date.qdate;
  category_dropdown : category_choice;
  amount_input : text;
  description_input : text
}.

(** Statements run through [QSqlQuery]. *)
Inductive sql :=
  | SqlInsert (d c : text) (a : float) (s : text)
  | SqlDelete (k : Z)
  | SqlSelectAll
  | SqlSelectSum.

(** The window: the database, the statements run on it so far, the rows
    shown in [table] and the number shown in [total_label].  The table
    widget holds each value as text; the model keeps the values. *)
Record app := {
  db : store;
  executed : list sql;
  table : list row;
  total : float
}.

(** How a slot ends: with a warning box titled "Input Error" or "Delete
    Error", with a critical box titled "Database Error" that carries the
    error of the store, with the answer No to the confirmation box, or
    with the table and the total shown anew. *)
Inductive outcome :=
  | InputError (msg : string)
  | DeleteError (msg : string)
  | DatabaseError (e : error)
  | Cancelled
  | Done.

(** [x or 0.0] for the value of the aggregate. *)
Definition or_zero (v : option float) : float :=
  match v with
  | Some x => if is_falsy x then zero else x
  | None => zero
  end.

Definition update_total (w : app) : app :=
  {| db := db w;
     executed := executed w ++ [SqlSelectSum];
     table := table w;
     total := or_zero (select_sum (db w)) |}.

Definition load_table (w : app) : app :=
  {| db := db w;
     executed := executed w ++ [SqlSelectAll];
     table := fetch_all (db w);
     total := total w |}.

(** [__init__] on a database file that holds the table ([Some]) or is
    new ([None]); the label starts as [0.00]. *)
Definition start (file : option store) : app :=
  update_total
    (load_table
       {| db := setup_database file; executed := []; table := [];
          total := zero |}).

(** The [try] block of [add_expense]: [float(amount_text)], with
    [ValueError] raised for a value that is [<= 0] as well. *)
Definition positive_amount (amount_text : text) : option float :=
  match Float.of_text amount_text with
  | Some a => if Float.leb a zero then None else Some a
  | None => None
  end.

Definition add_expense (f : form) (w : app) : outcome * app :=
  let date := Date.to_string (date_box f) in
  let category := category_text (category_dropdown f) in
  let amount_text := strip (amount_input f) in
  let description := strip (description_input f) in
  if is_empty amount_text then
    (InputError "Please enter an amount.", w)
  else if is_empty description then
    (InputError "Please enter a description.", w)
  else
    match positive_amount amount_text with
    | None => (InputError "Amount must be a positive number.", w)
    | Some amount =>
        let (r, db') :=
          insert (Some date) (Some category) (Some amount) (Some description)
            (db w) in
        let w' :=
          {| db := db';
             executed :=
               executed w ++ [SqlInsert date category amount description];
             table := table w;
             total := total w |} in
        match r with
        | Failed e => (DatabaseError e, w')
        | Ok _ => (Done, update_total (load_table w'))
        end
    end.

(** The window after a successful [add_expense]. *)
Definition added (f : form) (v : float) (w : app) : app :=
  update_total
    (load_table
       {| db := snd (insert (Some (Date.to_string (date_box f)))
                       (Some (category_text (category_dropdown f)))
                       (Some v) (Some (strip (description_input f))) (db w));
          executed :=
            executed w
            ++ [SqlInsert (Date.to_string (date_box f))
                  (category_text (category_dropdown f)) v
                  (strip (description_input f))];
          table := table w;
          total := total w |}).

(** The rules of the specification for a submitted form, in its words and
    its order: (1) the amount field is not empty, (2) the description is
    not empty after trimming, (3) the amount parses as a number and is
    strictly positive. *)
Inductive rule := AmountGiven | DescriptionGiven | AmountPositive.

Definition rule_holds (f : form) (r : rule) : bool :=
  match r with
  | AmountGiven => negb (is_empty (amount_input f))
  | DescriptionGiven => negb (is_empty (strip (description_input f)))
  | AmountPositive =>
      match Float.of_text (amount_input f) with
      | Some v => Float.ltb zero v
      | None => false
      end
  end.

Definition first_failing_rule (f : form) : option rule :=
  find (fun r => negb (rule_holds f r))
    [AmountGiven; DescriptionGiven; AmountPositive].

(** The message [add_expense] has for each rule. *)
Definition rule_message (r : rule) : string :=
  match r with
  | AmountGiven => "Please enter an amount."
  | DescriptionGiven => "Please enter a description."
  | AmountPositive => "Amount must be a positive number."
  end.

(** [delete_expense] with the selected row of [table], if any, and the
    answer to the confirmation box.  The id is read from the first cell of
    the row and bound to the statement as text, which the store compares
    with the integer key by its value. *)
Definition delete_expense (selected : option nat) (confirm : bool) (w : app)
    : outcome * app :=
  match selected with
  | None => (DeleteError "Please select an expense to delete.", w)
  | Some i =>
      match nth_error (table w) i with
      | None => (DeleteError "Please select an expense to delete.", w)
      | Some r =>
          if confirm then
            let (res, db') := delete (id r) (db w) in
            let w' :=
              {| db := db';
                 executed := executed w ++ [SqlDelete (id r)];
                 table := table w;
                 total := total w |} in
            match res with
            | Failed e => (DatabaseError e, w')
            | Ok _ => (Done, update_total (load_table w'))
            end
          else (Cancelled, w)
      end
  end.

(** What the user does to the window. *)
Inductive event :=
  | Submit (f : form)
  | Remove (selected : option nat) (confirm : bool).

Definition step (w : app) (e : event) : app :=
  match e with
  | Submit f => snd (add_expense f w)
  | Remove i c => snd (delete_expense i c w)
  end.

Definition run (es : list event) (w : app) : app := fold_left step es w.

(** Two expenses of 0.1 and 0.2 on one day, entered in this order in the
    window of a new database, and the table they leave. *)
Definition two_tenths_window : app :=
  run [Submit {| date_box := {| Date.year := 2024; Date.month := 1;
                                Date.day := 5 |};
                 category_dropdown := Food;
                 amount_input := of_string "0.1";
                 description_input := of_string "Tea" |};
       Submit {| date_box := {| Date.year := 2024; Date.month := 1;
                                Date.day := 5 |};
                 category_dropdown := Food;
                 amount_input := of_string "0.2";
                 description_input := of_string "Bun" |}]
    (start None).

Definition two_tenths : store := db two_tenths_window.

(** Expenses of 0.1, 0.2, 0.3 and 0.4 on one day, entered in this order in
    the window of a new database: the table after the third and the table
    after the fourth. *)
Definition tenths (amount what : string) : form :=
  {| date_box := {| Date.year := 2024; Date.month := 1; Date.day := 5 |};
     category_dropdown := Food;
     amount_input := of_string amount;
     description_input := of_string what |}.

Definition six_tenths_window : app :=
  run [Submit (tenths "0.1" "Tea"); Submit (tenths "0.2" "Bun");
       Submit (tenths "0.3" "Jam")] (start None).

Definition six_tenths : store := db six_tenths_window.

Definition ten_tenths : store :=
  db (run [Submit (tenths "0.4" "Nut")] six_tenths_window).

(** The fourth of these rows. *)
Definition nut : row :=
  {| id := 4; date := of_string "2024-01-05"; category := of_string "Food";
     amount := S754_finite false 7205759403792794 (-54);
     description := of_string "Nut" |}.

(** The operations of the specification on the persisted table. *)
Definition listAll (st : store) : list row := table (load_table
  {| db := st; executed := []; table := []; total := zero |}).

Definition sumAmount (st : store) : float := total (update_total
  {| db := st; executed := []; table := []; total := zero |}).

End App.

(* ================================================================== *)
(** * Sessions *)

Module Session.

Import Db App.

(** The window shows what the table holds: the rows of [table] are the
    result of the query of [load_table] and the number of [total_label]
    is the result of the query of [update_total]. *)
Definition in_sync (w : app) : Prop :=
  table w = listAll (db w) /\ total w = sumAmount (db w).

(** A list without its element at position [i]. *)
Definition without (i : nat) (l : list row) : list row :=
  firstn i l ++ skipn (S i) l.

End Session.

(* ================================================================== *)
(** * The window and its signals *)

Module Gui.

Import Db App.

(** The line edits a slot gives the keyboard focus to. *)
Inductive widget := AmountInput | DescriptionInput.

(** The window: the part the slots of [App] work on, the contents of the
    input widgets, the upper end of the range of [date_box], the selected
    row of [table] and the line edit that has the focus, if one has. *)
Record window := {
  state : app;
  fields : form;
  maximum_date : Date.qdate;
  selection : option nat;
  focus : option widget
}.

Definition with_state (a : app) (g : window) : window :=
  {| state := a; fields := fields g; maximum_date := maximum_date g;
     selection := selection g; focus := focus g |}.

Definition with_fields (f : form) (g : window) : window :=
  {| state := state g; fields := f; maximum_date := maximum_date g;
     selection := selection g; focus := focus g |}.

Definition with_selection (i : option nat) (g : window) : window :=
  {| state := state g; fields := fields g; maximum_date := maximum_date g;
     selection := i; focus := focus g |}.

Definition set_focus (e : widget) (g : window) : window :=
  {| state := state g; fields := fields g; maximum_date := maximum_date g;
     selection := selection g; focus := Some e |}.

(** [QDateEdit.setDate]: a date that is not valid is ignored, one outside
    the range of the box is replaced by the nearer end of the range. *)
Definition set_date (maximum d old : Date.qdate) : Date.qdate :=
  if Date.is_valid d then
    if Date.leb d Date.minimum_date then Date.minimum_date
    else if Date.leb d maximum then d
    else maximum
  else old.

(** The input widgets as [create_widgets] leaves them on the day [today]:
    the date of the day, the first category, two empty line edits. *)
Definition create_widgets (today : Date.qdate) : form :=
  {| date_box := today; category_dropdown := Food; amount_input := [];
     description_input := [] |}.

(** [__init__] on the day [today]. *)
Definition open (today : Date.qdate) (file : option store) : window :=
  {| state := start file; fields := create_widgets today;
     maximum_date := today; selection := None; focus := None |}.

(** [clear_inputs] on the day [now]. *)
Definition clear_inputs (now : Date.qdate) (g : window) : window :=
  set_focus AmountInput
    (with_fields
       {| date_box := set_date (maximum_date g) now (date_box (fields g));
          category_dropdown := Food; amount_input := [];
          description_input := [] |} g).

(** [load_table]: [setRowCount(0)] removes the rows and with them the
    selection. *)
Definition load_table (g : window) : window :=
  with_selection None (with_state (App.load_table (state g)) g).

Definition update_total (g : window) : window :=
  with_state (App.update_total (state g)) g.

(** [add_expense] on the day [now], reading the input widgets. *)
Definition add_expense (now : Date.qdate) (g : window) : outcome * window :=
  let date := Date.to_string (date_box (fields g)) in
  let category := category_text (category_dropdown (fields g)) in
  let amount_text := strip (amount_input (fields g)) in
  let description := strip (description_input (fields g)) in
  if is_empty amount_text then
    (InputError "Please enter an amount.", set_focus AmountInput g)
  else if is_empty description then
    (InputError "Please enter a description.", set_focus DescriptionInput g)
  else
    match positive_amount amount_text with
    | None =>
        (InputError "Amount must be a positive number.",
         set_focus AmountInput g)
    | Some amount =>
        let (r, db') :=
          insert (Some date) (Some category) (Some amount) (Some description)
            (db (state g)) in
        let g' :=
          with_state
            {| db := db';
               executed :=
                 executed (state g)
                 ++ [SqlInsert date category amount description];
               table := table (state g);
               total := total (state g) |} g in
        match r with
        | Failed e => (DatabaseError e, g')
        | Ok _ => (Done, update_total (load_table (clear_inputs now g')))
        end
    end.

(** [delete_expense], with the answer to the confirmation box should it
    be shown. *)
Definition delete_expense (confirm : bool) (g : window) : outcome * window :=
  match selection g with
  | None => (DeleteError "Please select an expense to delete.", g)
  | Some i =>
      match nth_error (table (state g)) i with
      | None => (DeleteError "Please select an expense to delete.", g)
      | Some r =>
          if confirm then
            let (res, db') := delete (id r) (db (state g)) in
            let g' :=
              with_state
                {| db := db';
                   executed := executed (state g) ++ [SqlDelete (id r)];
                   table := table (state g);
                   total := total (state g) |} g in
            match res with
            | Failed e => (DatabaseError e, g')
            | Ok _ => (Done, update_total (load_table g'))
            end
          else (Cancelled, g)
      end
  end.

(** What the input widgets can be made to hold: a date in the range of
    [date_box], one of the categories, an amount the validator does not
    refuse, and line edits of at most [max_length] characters. *)
Definition editable (g : window) (f : form) : bool :=
  Date.box_allows (maximum_date g) (date_box f)
  && Validator.field_allows (amount_input f)
  && (Z.of_nat (List.length (description_input f)) <=? Validator.max_length).

(** What the user does: change the input widgets, select a row of the
    table or none, click one of the three buttons (with the answer to the
    confirmation box of [delete_expense]), press Return in a line edit. *)
Inductive event :=
  | Edit (f : form)
  | Select (i : option nat)
  | ClickAdd
  | ClickClear
  | ClickDelete (confirm : bool)
  | ReturnPressed (e : widget).

(** [setup_connections]: the slot each signal runs.  A line edit with a
    validator emits [returnPressed] only if its text is acceptable. *)
Definition step (g : window) (ne : Date.qdate * event) : window :=
  let (now, e) := ne in
  match e with
  | Edit f => if editable g f then with_fields f g else g
  | Select None => with_selection None g
  | Select (Some i) =>
      if (i <? List.length (table (state g)))%nat
      then with_selection (Some i) g else g
  | ClickAdd => snd (add_expense now g)
  | ClickClear => clear_inputs now g
  | ClickDelete c => snd (delete_expense c g)
  | ReturnPressed AmountInput =>
      match Validator.validate (amount_input (fields g)) with
      | Validator.Acceptable => snd (add_expense now g)
      | _ => g
      end
  | ReturnPressed DescriptionInput => snd (add_expense now g)
  end.

(** A session: the events with the day on which each takes place. *)
Definition run (es : list (Date.qdate * event)) (g : window) : window :=
  fold_left step es g.

(** The form as [add_expense] reads it: the amount is the text of the
    field without the spaces at its ends, a line feed being one. *)
Definition as_read (f : form) : form :=
  {| date_box := date_box f; category_dropdown := category_dropdown f;
     amount_input := strip (amount_input f);
     description_input := description_input f |}.

(** The forms a window opened on [today] can submit, as [add_expense]
    reads them. *)
Definition allowed (today : Date.qdate) (e : App.event) : Prop :=
  match e with
  | Submit f =>
      Date.box_allows today (date_box f) = true
      /\ Validator.entry_allows (amount_input f) = true
  | Remove _ _ => True
  end.

(** What holds of a window however it was reached. *)
Record well_formed (g : window) : Prop := {
  wf_range : Date.box_allows (maximum_date g) (maximum_date g) = true;
  wf_fields : editable g (fields g) = true;
  wf_selection :
    forall i, selection g = Some i ->
              (i < List.length (table (state g)))%nat;
  wf_view : Session.in_sync (state g)
}.

End Gui.

(* ================================================================== *)
(** * Where the rows come from *)

Module Origin.

Import Db App.

(** An amount that is the number [float] reads in the text [t], which
    [add_expense] can find in the amount field. *)
Definition typed_as (t : text) (v : float) : Prop :=
  Validator.entry_allows t = true /\ Float.of_text t = Some v.

(** A row whose date is the text of a day that [date_box] can hold in a
    window opened on [today], whose category is an entry of
    [category_dropdown], and whose amount was typed into
    [amount_input]. *)
Definition from_widgets (today : Date.qdate) (r : row) : Prop :=
  (exists q, Date.box_allows today q = true /\ date r = Date.to_string q)
  /\ In (category r) (List.map category_text categories)
  /\ exists t, typed_as t (amount r).

(** Days from the latest to the earliest. *)
Definition latest_first (a b : Date.qdate) : Prop := Date.leb b a = true.

End Origin.

(* ================================================================== *)
(** * Values as the window shows them *)

Module Render.

Import Db.

(** The decimal digits of a number. *)
Fixpoint uint_text (u : Decimal.uint) : text :=
  match u with
  | Decimal.Nil => []
  | Decimal.D0 u' => 48%N :: uint_text u'
  | Decimal.D1 u' => 49%N :: uint_text u'
  | Decimal.D2 u' => 50%N :: uint_text u'
  | Decimal.D3 u' => 51%N :: uint_text u'
  | Decimal.D4 u' => 52%N :: uint_text u'
  | Decimal.D5 u' => 53%N :: uint_text u'
  | Decimal.D6 u' => 54%N :: uint_text u'
  | Decimal.D7 u' => 55%N :: uint_text u'
  | Decimal.D8 u' => 56%N :: uint_text u'
  | Decimal.D9 u' => 57%N :: uint_text u'
  end.

Definition of_N (n : N) : text := uint_text (N.to_uint n).

(** [str(k)] for an [int]. *)
Definition str_int (k : Z) : text :=
  match k with
  | Z0 => of_N 0
  | Z.pos p => of_N (N.pos p)
  | Z.neg p => 45%N :: of_N (N.pos p)
  end.

(** The option [,] of a format: a comma before every group of three
    digits but the first, counted from the right.  [group_rev] works on
    the digits from the last to the first. *)
Fixpoint group_rev (ds : text) : text :=
  match ds with
  | a :: ds1 =>
      match ds1 with
      | b :: ds2 =>
          match ds2 with
          | c :: ds3 =>
              match ds3 with
              | _ :: _ => a :: b :: c :: 44%N :: group_rev ds3
              | [] => ds
              end
          | [] => ds
          end
      | [] => ds
      end
  | [] => ds
  end.

Definition group (ds : text) : text := rev (group_rev (rev ds)).

(** The quotient [n / d] rounded to the nearest integer, a tie to the even
    one. *)
Definition round_half_even (n d : Z) : Z :=
  match 2 * (n mod d) ?= d with
  | Lt => n / d
  | Gt => n / d + 1
  | Eq => if Z.even (n / d) then n / d else n / d + 1
  end.

(** The hundredths in [m * 2^e], rounded in this way. *)
Definition hundredths (m : positive) (e : Z) : N :=
  Z.to_N
    match e with
    | Z.neg p => round_half_even (100 * Z.pos m) (2 ^ Z.pos p)
    | _ => 100 * Z.pos m * 2 ^ e
    end.

(** A number of hundredths with the format [,.2f]. *)
Definition decimal (c : N) : text :=
  group (of_N (c / 100))
  ++ [46%N; (48 + (c / 10) mod 10)%N; (48 + c mod 10)%N].

Definition sign (s : bool) : text := if s then [45%N] else [].

(** [f"{v:,.2f}"] *)
Definition format_2f (v : float) : text :=
  match v with
  | S754_nan => of_string "nan"
  | S754_infinity s => sign s ++ of_string "inf"
  | S754_zero s => sign s ++ decimal 0
  | S754_finite s m e => sign s ++ decimal (hundredths m e)
  end.

(** The rupee sign. *)
Definition rupee : char := 8377%N.

(** The text of the amount cell of [load_table], [f"₹{float(value):,.2f}"]. *)
Definition amount_cell (v : float) : text := rupee :: format_2f v.

(** The five cells of a row of [table]. *)
Definition cells (r : row) : list text :=
  [str_int (id r); date r; category r; amount_cell (amount r); description r].

(** The text of [total_label], [f"Total: ₹{total:,.2f}"]. *)
Definition total_label (t : float) : text :=
  of_string "Total: " ++ rupee :: format_2f t.

End Render.

(* ================================================================== *)
(** * Amounts as they are typed *)

Module Typed.
(** The number of hundredths that the digits of a numeral with at most
    two places after the point denote, as [float] reads them: for
    [m * 10^e] it is [m * 10^(e + 2)]. *)
Definition in_hundredths (s : text) : N :=
  match parse_decimal s with
  | Some (m, e) => (m * 10 ^ Z.to_N (e + 2))%N
  | None => 0%N
  end.

(** The hundredths in a list of numerals, all told. *)
Definition total (ts : list text) : N :=
  fold_right (fun t n => (in_hundredths t + n)%N) 0%N ts.

(** A numeral with no digit but [0]. *)
Definition names_zero (s : text) : bool :=
  forallb (fun c => (c =? 48)%N || (c =? 46)%N) s.

(** A binary64 number scaled by [2^1074], which makes it an integer when
    its exponent is not below [-1074]; what is no number counts as [0]. *)
Definition scaled (v : float) : Z :=
  match v with
  | S754_finite s m e =>
      if s then - (Z.pos m * 2 ^ (e + 1074)) else Z.pos m * 2 ^ (e + 1074)
  | _ => 0
  end.

(** One unit of the exponent [E], scaled: the step between neighbouring
    binary64 numbers from [2^(E+52)] to [2^(E+53)]. *)
Definition ulp (E : Z) : Z := 2 ^ (E + 1074).

(** [v] is [0.0] or a number with an exponent from [-1074] to [E]. *)
Definition fits (E : Z) (v : float) : Prop :=
  v = zero \/ exists s m e, v = S754_finite s m e /\ - 1074 <= e <= E.

(** The sum of a list of binary64 numbers as real numbers, scaled. *)
Definition scaled_sum (vs : list float) : Z :=
  fold_right (fun v z => scaled v + z) 0 vs.

(** Amounts with exponents of at most [E] that are not negative and whose
    sum stays below [2^(E+52)], with room for four units of [E] for each
    of them. *)
Definition bounded (E : Z) (vs : list float) : Prop :=
  Forall (fun v => fits E v /\ 0 <= scaled v) vs
  /\ scaled_sum vs + 4 * Z.of_nat (List.length vs) * ulp E
     < 2 ^ (E + 1126).

(** [v] is zero or a positive number with an exponent of at most [E], and
    it is within [t] units of [2^E] of [c] hundredths, when both are
    scaled by 100. *)
Definition within (E t : Z) (v : float) (c : Z) : Prop :=
  (v = zero \/ exists m e, v = S754_finite false m e /\ - 1074 <= e <= E)
  /\ Z.abs (100 * scaled v - c * 2 ^ 1074) <= t * 2 ^ (E + 1074).
(** How the context of a sum follows the sum [S] of [j] amounts as real
    numbers, scaled: both of its numbers have exponents of at most [E], the
    running sum is not negative and within a unit of [E] for each amount,
    the running sum and the error term together are within three. *)
Definition tracks (E j S : Z) (p : Db.sum_ctx) : Prop :=
  fits E (Db.rSum p) /\ fits E (Db.rErr p) /\ 0 <= scaled (Db.rSum p)
  /\ Z.abs (scaled (Db.rSum p) - S) <= j * ulp E
  /\ Z.abs (scaled (Db.rSum p) + scaled (Db.rErr p) - S) <= 3 * j * ulp E.

(** The number of places [shr_fexp] shifts a mantissa [m] at the exponent
    [e] to the right. *)
Definition places (m e : Z) : Z :=
  Z.max 0 (fexp prec emax (Zdigits2 m + e) - e).

(** The sum of a list of integers. *)
Definition sum (cs : list Z) : Z := fold_right Z.add 0 cs.

End Typed.

(* ================================================================== *)
(** * Facts about strings *)

Section StripFacts.

Variable sp : char -> bool.

Local Abbreviation drop_while := (Str.drop_while sp).
Local Abbreviation drop_both := (Str.drop_both sp).

Lemma drop_while_head c s t : drop_while s = c :: t -> sp c = false.
Proof.
  induction s as [|x s IH]; simpl; [discriminate|].
  destruct (sp x) eqn:E; [exact IH|].
  intros H; injection H as <- _; exact E.
Qed.

Lemma drop_while_keeps c s : sp c = false -> drop_while (c :: s) = c :: s.
Proof. intros H; simpl; now rewrite H. Qed.

Lemma drop_while_app c s t :
  sp c = false -> drop_while (s ++ c :: t) = drop_while s ++ c :: t.
Proof.
  intros H; induction s as [|x s IH]; simpl.
  - now rewrite H.
  - destruct (sp x); [exact IH|reflexivity].
Qed.

Lemma drop_while_all s : Forall (fun c => sp c = true) s -> drop_while s = [].
Proof.
  induction 1 as [|x s Hx _ IH]; simpl; [reflexivity|now rewrite Hx].
Qed.

Lemma drop_both_fixed c s :
  sp c = false -> sp (last (c :: s) c) = false ->
  drop_both (c :: s) = c :: s.
Proof.
  intros Hc Hl; unfold drop_both.
  rewrite drop_while_keeps by exact Hc.
  destruct (exists_last (l := c :: s) ltac:(discriminate)) as [u [z E]].
  rewrite E in Hl |- *. rewrite last_last in Hl.
  rewrite rev_app_distr; simpl.
  rewrite Hl; simpl. now rewrite rev_involutive.
Qed.

Lemma drop_both_ends s :
  drop_both s = [] \/
  exists c t, drop_both s = c :: t /\ sp c = false
              /\ sp (last (c :: t) c) = false.
Proof.
  unfold drop_both.
  destruct (drop_while s) as [|c t] eqn:E; [left; reflexivity|right].
  pose proof (drop_while_head _ _ _ E) as Hc.
  change (rev (c :: t)) with (rev t ++ [c]).
  rewrite drop_while_app by exact Hc.
  rewrite rev_app_distr; simpl.
  exists c, (rev (drop_while (rev t))); split; [reflexivity|split; [exact Hc|]].
  destruct (drop_while (rev t)) as [|z u] eqn:Eu; [simpl; exact Hc|].
  pose proof (drop_while_head _ _ _ Eu) as Hz.
  change (rev (z :: u)) with (rev u ++ [z]).
  change (c :: rev u ++ [z]) with ((c :: rev u) ++ [z]).
  rewrite last_last. destruct (rev u ++ [z]); assumption.
Qed.

End StripFacts.

Lemma strip_drop_both s : strip s = Str.drop_both is_space s.
Proof. reflexivity. Qed.

(** What [strip] returns is empty or [trimmed]. *)
Lemma strip_trimmed s : strip s = [] \/ trimmed (strip s) = true.
Proof.
  rewrite strip_drop_both.
  destruct (drop_both_ends is_space s) as [E|[c [t [E [Hc Hl]]]]];
    [left; exact E|right].
  rewrite E. unfold trimmed. now rewrite Hc, Hl.
Qed.

Lemma is_empty_false_trimmed s :
  is_empty (strip s) = false -> trimmed (strip s) = true.
Proof.
  intros H. destruct (strip_trimmed s) as [E|E]; [|exact E].
  rewrite E in H; discriminate.
Qed.

Lemma strip_of_trimmed s : trimmed s = true -> strip s = s.
Proof.
  destruct s as [|c t]; [discriminate|].
  unfold trimmed; intros H. apply andb_prop in H as [Hc Hl].
  apply negb_true_iff in Hc, Hl.
  rewrite strip_drop_both. now apply drop_both_fixed.
Qed.

(** The order of texts. *)
Lemma compare_refl a : Str.compare a a = Eq.
Proof.
  induction a as [|x a IH]; simpl; [reflexivity|].
  now rewrite N.compare_refl.
Qed.

Lemma compare_antisym a b : Str.compare b a = CompOpp (Str.compare a b).
Proof.
  revert b; induction a as [|x a IH]; intros [|y b]; simpl; try reflexivity.
  rewrite (N.compare_antisym x y).
  destruct (N.compare x y); simpl; auto.
Qed.

Lemma compare_eq a b : Str.compare a b = Eq -> a = b.
Proof.
  revert b; induction a as [|x a IH]; intros [|y b]; simpl;
    try discriminate; [reflexivity|].
  destruct (N.compare_spec x y) as [->| |]; try discriminate.
  intros H; f_equal; auto.
Qed.

Lemma compare_lt_trans a b c :
  Str.compare a b = Lt -> Str.compare b c = Lt -> Str.compare a c = Lt.
Proof.
  revert b c; induction a as [|x a IH]; intros [|y b] [|z c]; simpl;
    try discriminate; try reflexivity.
  destruct (N.compare_spec x y) as [->|Hxy|Hxy]; try discriminate.
  - destruct (N.compare y z); try discriminate; eauto.
  - intros _. destruct (N.compare_spec y z) as [->|Hyz|Hyz]; try discriminate.
    + intros _. apply N.compare_lt_iff in Hxy. now rewrite Hxy.
    + intros _. assert (H : (x < z)%N) by lia.
      apply N.compare_lt_iff in H. now rewrite H.
Qed.

Lemma leb_total a b : Str.leb a b = true \/ Str.leb b a = true.
Proof.
  unfold Str.leb. rewrite (compare_antisym a b).
  destruct (Str.compare a b); simpl; auto.
Qed.

Lemma leb_refl a : Str.leb a a = true.
Proof. unfold Str.leb. now rewrite compare_refl. Qed.

Lemma leb_trans a b c :
  Str.leb a b = true -> Str.leb b c = true -> Str.leb a c = true.
Proof.
  unfold Str.leb.
  destruct (Str.compare a b) eqn:Eab; try discriminate; intros _;
    destruct (Str.compare b c) eqn:Ebc; try discriminate; intros _.
  - apply compare_eq in Eab, Ebc; subst. now rewrite compare_refl.
  - apply compare_eq in Eab; subst. now rewrite Ebc.
  - apply compare_eq in Ebc; subst. now rewrite Eab.
  - now rewrite (compare_lt_trans _ _ _ Eab Ebc).
Qed.

(* ================================================================== *)
(** * Facts about floats *)

(** Comparisons with [0.0], as [add_expense] and the [CHECK] make them. *)
Lemma leb_zero_not_positive a :
  Float.leb a zero = true -> Float.ltb zero a = false.
Proof. destruct a as [[]|[]| |[] m e]; cbv; intros H; congruence. Qed.

Lemma positive_not_leb_zero a :
  Float.ltb zero a = true -> Float.leb a zero = false.
Proof. destruct a as [[]|[]| |[] m e]; cbv; intros H; congruence. Qed.

Lemma zero_leb_zero a :
  Float.eqb a zero = true -> Float.leb a zero = true.
Proof. destruct a as [[]|[]| |[] m e]; cbv; intros H; congruence. Qed.

Lemma negative_leb_zero a :
  Float.ltb a zero = true -> Float.leb a zero = true.
Proof. destruct a as [[]|[]| |[] m e]; cbv; intros H; congruence. Qed.

Lemma positive_not_nan a : Float.ltb zero a = true -> is_nan a = false.
Proof. destruct a as [[]|[]| |[] m e]; cbv; intros H; congruence. Qed.

Lemma positive_not_negative a :
  Float.ltb zero a = true -> not_negative a = true.
Proof. destruct a as [[]|[]| |[] m e]; cbv; intros H; congruence. Qed.

Lemma not_nan_leb_zero a :
  is_nan a = false -> Float.leb a zero = negb (Float.ltb zero a).
Proof. destruct a as [[]|[]| |[] m e]; cbv; intros H; congruence. Qed.

Lemma falsy_not_negative a :
  is_falsy a = true -> not_negative a = true -> a = zero.
Proof. destruct a as [[]|[]| |[] m e]; cbv; intros H1 H2; congruence. Qed.

(** Rounding keeps the sign it is given. *)
Lemma round_aux_not_negative m e l :
  not_negative (binary_round_aux prec emax false m e l) = true.
Proof.
  unfold binary_round_aux.
  destruct (shr_fexp prec emax m e l) as [mrs e1].
  destruct (shr_fexp prec emax _ e1 loc_Exact) as [mrs2 e2].
  destruct (shr_m mrs2); [reflexivity| |reflexivity].
  destruct (e2 <=? emax - prec); reflexivity.
Qed.

Lemma add_not_negative x y :
  not_negative x = true -> not_negative y = true ->
  not_negative (Float.add x y) = true.
Proof.
  destruct x as [[]|[]| |[] mx ex]; destruct y as [[]|[]| |[] my ey];
    simpl; try discriminate; try reflexivity.
  intros _ _. unfold binary_normalize, binary_round.
  destruct (shl_align _ _ _) as [mz ez] eqn:E.
  apply round_aux_not_negative.
Qed.

(** Rounding a mantissa that is not negative never yields a NaN. *)
Section ShiftRight.

Local Abbreviation keeps := mantissa_not_negative.

Lemma shr_1_keeps mrs : keeps mrs -> keeps (shr_1 mrs).
Proof.
  unfold keeps. destruct mrs as [m r s].
  destruct m as [|[p|p|]|p]; simpl; lia.
Qed.

Lemma iter_pos_keeps p mrs : keeps mrs -> keeps (SpecFloat.iter_pos shr_1 p mrs).
Proof.
  revert mrs; induction p as [p IH|p IH|]; intros mrs H; simpl.
  - apply IH, IH, shr_1_keeps, H.
  - apply IH, IH, H.
  - apply shr_1_keeps, H.
Qed.

Lemma shr_fexp_keeps m e l :
  0 <= m -> keeps (fst (shr_fexp prec emax m e l)).
Proof.
  intros H. unfold shr_fexp, shr.
  assert (K : keeps (shr_record_of_loc m l))
    by (unfold keeps; destruct l as [|[]]; exact H).
  destruct (fexp prec emax (Zdigits2 m + e) - e); simpl; auto.
  now apply iter_pos_keeps.
Qed.

Lemma round_nearest_even_keeps m l : 0 <= m -> 0 <= round_nearest_even m l.
Proof.
  intros H. destruct l as [|[]]; simpl; try lia.
  destruct (Z.even m); lia.
Qed.

Lemma round_aux_not_nan s m e l :
  0 <= m -> is_nan (binary_round_aux prec emax s m e l) = false.
Proof.
  intros H. unfold binary_round_aux.
  pose proof (shr_fexp_keeps m e l H) as K1.
  destruct (shr_fexp prec emax m e l) as [mrs e1]; simpl in K1.
  pose proof (shr_fexp_keeps _ e1 loc_Exact
                (round_nearest_even_keeps _ (loc_of_shr_record mrs) K1)) as K2.
  destruct (shr_fexp prec emax _ e1 loc_Exact) as [mrs2 e2]; simpl in K2.
  unfold keeps in K2.
  destruct (shr_m mrs2); [reflexivity| |lia].
  destruct (e2 <=? emax - prec); reflexivity.
Qed.

End ShiftRight.

Lemma div_finite_not_nan sx mx ex sy my ey :
  is_nan (Float.div (S754_finite sx mx ex) (S754_finite sy my ey)) = false.
Proof.
  unfold Float.div, SFdiv, SFdiv_core_binary.
  set (s := ex - ey - _).
  set (m' := match s with Z.pos _ => Z.shiftl (Z.pos mx) s
                        | 0 => Z.pos mx | Z.neg _ => 0 end).
  assert (Hm : 0 <= m').
  { subst m'. destruct s; try lia. apply Z.shiftl_nonneg. lia. }
  pose proof (Z.div_pos m' (Z.pos my) Hm ltac:(lia)) as Hq.
  unfold Z.div in Hq.
  destruct (Z.div_eucl m' (Z.pos my)) as [q r]; simpl in Hq.
  now apply round_aux_not_nan.
Qed.

Lemma of_decimal_not_nan neg m e : is_nan (of_decimal neg m e) = false.
Proof.
  unfold of_decimal. destruct m; [reflexivity|apply div_finite_not_nan].
Qed.

(* ================================================================== *)
(** * Facts about the input mask *)

Module ValidatorFacts.

Import Validator.

Lemma nullable_sound r : nullable r = true -> lang r [].
Proof.
  induction r as [| |p|r1 IH1 r2 IH2|r1 IH1 r2 IH2|r IH]; simpl;
    intros H; try discriminate.
  - constructor.
  - apply andb_prop in H as [H1 H2].
    change (@nil char) with (@nil char ++ []). constructor; auto.
  - apply orb_prop in H as [H|H]; [apply LAltL|apply LAltR]; auto.
  - constructor.
Qed.

Lemma deriv_sound c r s : lang (deriv c r) s -> lang r (c :: s).
Proof.
  revert s; induction r as [| |p|r1 IH1 r2 IH2|r1 IH1 r2 IH2|r IH];
    simpl; intros s H.
  - inversion H.
  - inversion H.
  - destruct (p c) eqn:E; inversion H; subst. now constructor.
  - assert (C : forall t, lang (Cat (deriv c r1) r2) t ->
                          lang (Cat r1 r2) (c :: t)).
    { intros t Ht. inversion Ht as [| |? ? s1 s2 H1 H2| | | |]; subst.
      change (c :: s1 ++ s2) with ((c :: s1) ++ s2). constructor; auto. }
    destruct (nullable r1) eqn:N; [|now apply C].
    inversion H as [| | |? ? ? H1|? ? ? H1| |]; subst; [now apply C|].
    change (c :: s) with ([] ++ c :: s).
    constructor; [now apply nullable_sound|auto].
  - inversion H; subst; [apply LAltL|apply LAltR]; auto.
  - inversion H as [| |? ? s1 s2 H1 H2| | | |]; subst.
    change (c :: s1 ++ s2) with ((c :: s1) ++ s2). constructor; auto.
Qed.

(** A text the matcher accepts is in the language of the pattern. *)
Lemma matches_sound s : forall r, matches r s = true -> lang r s.
Proof.
  induction s as [|c s IH]; simpl; intros r H.
  - now apply nullable_sound.
  - now apply deriv_sound, IH.
Qed.

Lemma lang_star_class p s :
  lang (Star (Class p)) s -> Forall (fun c => p c = true) s.
Proof.
  remember (Star (Class p)) as r eqn:E. intros H.
  induction H as [| | | | | |r s1 s2 H1 _ H2 IH]; try discriminate.
  - constructor.
  - injection E as ->. inversion H1; subst. constructor; auto.
Qed.

Lemma lang_opt_class p s :
  lang (opt (Class p)) s -> s = [] \/ exists c, s = [c] /\ p c = true.
Proof.
  intros H. inversion H as [| | |? ? ? H1|? ? ? H1| |]; subst.
  - inversion H1; subst. right; eauto.
  - inversion H1. now left.
Qed.

Lemma lang_amount_pattern s : lang amount_pattern s -> entry s.
Proof.
  unfold amount_pattern, plus, upto2. intros H.
  inversion H as [| |? ? s1 s2 Hp Hr| | | |]; subst; clear H.
  inversion Hp as [| |? ? d ds Hd Hds| | | |]; subst; clear Hp.
  inversion Hd as [|? c Hc| | | | |]; subst; clear Hd.
  apply lang_star_class in Hds.
  inversion Hr as [| |? ? o f Ho Hf| | | |]; subst; clear Hr.
  inversion Hf as [| |? ? f1 f2 Hf1 Hf2| | | |]; subst; clear Hf.
  apply lang_opt_class in Ho, Hf1, Hf2.
  assert (F : Forall (fun c => is_digit c = true) (f1 ++ f2)
              /\ (List.length (f1 ++ f2) <= 2)%nat).
  { destruct Hf1 as [->|[x [-> Hx]]]; destruct Hf2 as [->|[y [-> Hy]]];
      simpl; split; auto. }
  destruct F as [F L].
  destruct Ho as [->|[x [-> Hx]]].
  - simpl. apply EntryInt; [discriminate|].
    constructor; [exact Hc|]. apply Forall_app; split; [exact Hds|exact F].
  - apply N.eqb_eq in Hx; subst x.
    change (([c] ++ ds) ++ [46%N] ++ f1 ++ f2)
      with ((c :: ds) ++ 46%N :: (f1 ++ f2)).
    apply EntryFrac; auto. discriminate.
Qed.

Lemma matches_entry s : matches amount_pattern s = true -> entry s.
Proof. intros H. now apply lang_amount_pattern, matches_sound. Qed.

Lemma entry_chars s : entry s -> Forall (fun c => entry_char c = true) s.
Proof.
  assert (D : forall l, Forall (fun c => is_digit c = true) l ->
                        Forall (fun c => entry_char c = true) l).
  { intros l. apply Forall_impl. intros c Hc. unfold entry_char.
    now rewrite Hc. }
  intros [ip _ H|ip fp _ H1 H2 _]; [now apply D|].
  apply Forall_app; split; [now apply D|].
  constructor; [reflexivity|now apply D].
Qed.

Lemma entry_head s : entry s -> exists c t, s = c :: t /\ is_digit c = true.
Proof.
  intros [ip N H|ip fp N H _ _]; destruct ip as [|c t]; try congruence;
    inversion H; subst.
  - exists c, t; auto.
  - exists c, (t ++ 46%N :: fp); auto.
Qed.

Lemma digit_cases c :
  is_digit c = true ->
  In c [48; 49; 50; 51; 52; 53; 54; 55; 56; 57]%N.
Proof.
  unfold is_digit, in_range. intros H. apply andb_prop in H as [H1 H2].
  apply N.leb_le in H1, H2. simpl.
  assert (c = 48 \/ c = 49 \/ c = 50 \/ c = 51 \/ c = 52 \/ c = 53
          \/ c = 54 \/ c = 55 \/ c = 56 \/ c = 57)%N by lia.
  intuition auto.
Qed.

Lemma entry_char_cases c :
  entry_char c = true ->
  In c [46; 48; 49; 50; 51; 52; 53; 54; 55; 56; 57]%N.
Proof.
  unfold entry_char. intros H. apply orb_prop in H as [H|H].
  - right. now apply digit_cases.
  - left. apply N.eqb_eq in H. now subst.
Qed.

(** A property of the eleven characters holds of each of them. *)
Lemma entry_char_all (P : char -> bool) c :
  forallb P [46; 48; 49; 50; 51; 52; 53; 54; 55; 56; 57]%N = true ->
  entry_char c = true -> P c = true.
Proof.
  intros H Hc. rewrite forallb_forall in H. now apply H, entry_char_cases.
Qed.

(** The decimals of an entry are at most two digits. *)
Lemma decimals_no_point s :
  Forall (fun c => is_digit c = true) s -> decimals s = [].
Proof.
  induction 1 as [|c s Hc _ IH]; simpl; [reflexivity|].
  destruct (N.eqb_spec c 46) as [->|_]; [discriminate|exact IH].
Qed.

Lemma decimals_point ip fp :
  Forall (fun c => is_digit c = true) ip -> decimals (ip ++ 46%N :: fp) = fp.
Proof.
  induction 1 as [|c s Hc _ IH]; simpl; [reflexivity|].
  destruct (N.eqb_spec c 46) as [->|_]; [discriminate|exact IH].
Qed.

Lemma entry_decimals s :
  entry s ->
  (List.length (decimals s) <= 2)%nat
  /\ Forall (fun c => is_digit c = true) (decimals s).
Proof.
  intros [ip _ H|ip fp _ H1 H2 L].
  - rewrite decimals_no_point by exact H. simpl; split; [lia|constructor].
  - rewrite decimals_point by exact H1. now split.
Qed.

End ValidatorFacts.

(* ================================================================== *)
(** * The input mask, exactly *)

Module MaskFacts.
Import Validator ValidatorFacts.

Lemma nullable_complete r s : lang r s -> s = [] -> nullable r = true.
Proof.
  induction 1 as [|p c H|r1 r2 s1 s2 _ IH1 _ IH2|r1 r2 s _ IH|r1 r2 s _ IH
                  | |r s1 s2 _ _ _ _]; intros E; simpl; try reflexivity.
  - discriminate.
  - apply app_eq_nil in E as [E1 E2]. now rewrite IH1, IH2.
  - now rewrite IH.
  - rewrite IH by exact E. apply orb_true_r.
Qed.

Lemma deriv_complete r t :
  lang r t -> forall c s, t = c :: s -> lang (deriv c r) s.
Proof.
  induction 1 as [|p c' H|r1 r2 s1 s2 H1 IH1 H2 IH2|r1 r2 s' _ IH|r1 r2 s' _ IH
                  | |r s1 s2 H1 IH1 H2 IH2]; intros c s E; simpl.
  - discriminate.
  - injection E as -> <-. rewrite H. constructor.
  - destruct s1 as [|c1 s1'].
    + simpl in E. rewrite (nullable_complete r1 [] H1 eq_refl).
      apply LAltR. now apply IH2.
    + simpl in E. injection E as -> <-.
      assert (L : lang (Cat (deriv c r1) r2) (s1' ++ s2))
        by (constructor; [now apply IH1|exact H2]).
      destruct (nullable r1); [now apply LAltL|exact L].
  - apply LAltL. now apply IH.
  - apply LAltR. now apply IH.
  - discriminate.
  - destruct s1 as [|c1 s1'].
    + simpl in E. now apply IH2.
    + simpl in E. injection E as -> <-.
      constructor; [now apply IH1|exact H2].
Qed.

Lemma matches_complete s : forall r, lang r s -> matches r s = true.
Proof.
  induction s as [|c s IH]; intros r H; simpl.
  - now apply (nullable_complete r []).
  - apply IH. now apply (deriv_complete r (c :: s)).
Qed.

Lemma lang_star_digits l :
  Forall (fun c => is_digit c = true) l -> lang (Star digit) l.
Proof.
  induction 1 as [|c l H _ IH]; [constructor|].
  change (c :: l) with ([c] ++ l). constructor; [now constructor|exact IH].
Qed.

Lemma lang_plus_digits l :
  l <> [] -> Forall (fun c => is_digit c = true) l -> lang (plus digit) l.
Proof.
  intros N F. destruct F as [|c l H F]; [congruence|].
  change (c :: l) with ([c] ++ l).
  constructor; [now constructor|now apply lang_star_digits].
Qed.

Lemma lang_upto2_digits l :
  Forall (fun c => is_digit c = true) l -> (List.length l <= 2)%nat ->
  lang (upto2 digit) l.
Proof.
  intros F L. destruct F as [|a l Ha F].
  - change (@nil char) with (@nil char ++ []).
    constructor; apply LAltR; constructor.
  - destruct F as [|b l Hb F].
    + change [a] with ([a] ++ []).
      constructor; [apply LAltL; now constructor|apply LAltR; constructor].
    + destruct l; [|simpl in L; lia].
      change [a; b] with ([a] ++ [b]).
      constructor; apply LAltL; now constructor.
Qed.

Lemma entry_lang s : entry s -> lang amount_pattern s.
Proof.
  intros [ip N H|ip fp N H1 H2 L]; unfold amount_pattern.
  - rewrite <- (app_nil_r ip). constructor; [now apply lang_plus_digits|].
    change (@nil char) with (@nil char ++ []).
    constructor; [apply LAltR; constructor|].
    apply lang_upto2_digits; [constructor|simpl; lia].
  - constructor; [now apply lang_plus_digits|].
    change (46%N :: fp) with ([46%N] ++ fp).
    constructor; [apply LAltL; now constructor|].
    now apply lang_upto2_digits.
Qed.

Lemma entry_matches s : entry s -> matches amount_pattern s = true.
Proof. intros H. now apply matches_complete, entry_lang. Qed.

End MaskFacts.

(* ================================================================== *)
(** * Partial matches *)

Module PartialFacts.
Import Validator ValidatorFacts.

Lemma before_line_feed_app p : before_line_feed (p ++ [line_feed]) = Some p.
Proof.
  induction p as [|c p IH]; [reflexivity|].
  change ((c :: p) ++ [line_feed]) with (c :: (p ++ [line_feed])).
  cbn [before_line_feed]. rewrite IH.
  destruct (p ++ [line_feed]) eqn:E; [|reflexivity].
  now destruct p.
Qed.

Lemma before_line_feed_some s :
  forall p, before_line_feed s = Some p -> s = p ++ [line_feed].
Proof.
  induction s as [|c s IH]; intros p H; [discriminate|].
  cbn [before_line_feed] in H. destruct s as [|d s'].
  - destruct (N.eqb_spec c line_feed) as [->|_]; [|discriminate].
    now injection H as <-.
  - destruct (before_line_feed (d :: s')) as [q|]; [|discriminate].
    injection H as <-. now rewrite (IH q eq_refl).
Qed.

Lemma wants_more_sound r : wants_more r = true -> more r [].
Proof.
  induction r as [| |p|r1 IH1 r2 IH2|r1 IH1 r2 IH2|r IH]; simpl;
    intros H; try discriminate.
  - constructor.
  - apply orb_prop in H as [H|H]; [apply MCatL; auto|].
    apply andb_prop in H as [N H].
    change (@nil char) with (@nil char ++ []).
    apply MCatR; [now apply nullable_sound|auto].
  - apply orb_prop in H as [H|H]; [apply MAltL|apply MAltR]; auto.
  - change (@nil char) with (@nil char ++ []).
    apply MStar; [constructor|auto].
Qed.

Lemma deriv_more c r s : more (deriv c r) s -> more r (c :: s).
Proof.
  revert s; induction r as [| |p|r1 IH1 r2 IH2|r1 IH1 r2 IH2|r IH];
    simpl; intros s H.
  - inversion H.
  - inversion H.
  - destruct (p c); inversion H.
  - assert (C : forall t, more (Cat (deriv c r1) r2) t ->
                          more (Cat r1 r2) (c :: t)).
    { intros t Ht. inversion Ht as [|? ? ? H1|? ? s1 s2 H1 H2| | |]; subst.
      - apply MCatL; auto.
      - change (c :: s1 ++ s2) with ((c :: s1) ++ s2).
        apply MCatR; [now apply deriv_sound|exact H2]. }
    destruct (nullable r1) eqn:N; [|now apply C].
    inversion H as [| | |? ? ? H1|? ? ? H1|]; subst; [now apply C|].
    change (c :: s) with ([] ++ c :: s).
    apply MCatR; [now apply nullable_sound|auto].
  - inversion H; subst; [apply MAltL|apply MAltR]; auto.
  - inversion H as [|? ? ? H1|? ? s1 s2 H1 H2| | |]; subst.
    + change (c :: s) with ([] ++ c :: s).
      apply MStar; [constructor|auto].
    + inversion H2 as [| | | | |? s3 s4 H3 H4]; subst.
      change (c :: s1 ++ s3 ++ s4) with ((c :: s1) ++ s3 ++ s4).
      rewrite app_assoc. apply MStar; [|exact H4].
      constructor; [now apply deriv_sound|exact H3].
Qed.

Lemma residual_more s : forall r, wants_more (residual r s) = true -> more r s.
Proof.
  induction s as [|c s IH]; simpl; intros r H.
  - now apply wants_more_sound.
  - now apply deriv_more, IH.
Qed.

Lemma more_class p s : more (Class p) s -> s = [].
Proof. intros H. now inversion H. Qed.

Lemma more_opt_class p s : more (opt (Class p)) s -> s = [].
Proof.
  intros H. inversion H as [| | |? ? ? H1|? ? ? H1|]; subst.
  - now apply more_class in H1.
  - inversion H1.
Qed.

Lemma more_star_class p s :
  more (Star (Class p)) s -> Forall (fun c => p c = true) s.
Proof.
  intros H. inversion H as [| | | | |? s1 s2 H1 H2]; subst.
  apply more_class in H2; subst. rewrite app_nil_r.
  now apply lang_star_class.
Qed.

(** The pattern asks for a character only at the start and after an
    entry. *)
Lemma more_amount_pattern s : more amount_pattern s -> s = [] \/ entry s.
Proof.
  unfold amount_pattern, plus, upto2. intros H.
  inversion H as [|? ? ? Hp|? ? s1 s2 Hp Hr| | |]; subst; clear H.
  - inversion Hp as [|? ? ? Hd|? ? d ds Hd Hds| | |]; subst; clear Hp.
    + left. now apply more_class in Hd.
    + right. inversion Hd as [|? c Hc| | | | |]; subst; clear Hd.
      apply more_star_class in Hds.
      apply EntryInt; [discriminate|now constructor].
  - right.
    inversion Hp as [| |? ? d ds Hd Hds| | | |]; subst; clear Hp.
    inversion Hd as [|? c Hc| | | | |]; subst; clear Hd.
    apply lang_star_class in Hds.
    assert (D : Forall (fun c => is_digit c = true) ([c] ++ ds))
      by now constructor.
    inversion Hr as [|? ? ? Ho|? ? o f Ho Hf| | |]; subst; clear Hr.
    + apply more_opt_class in Ho; subst. rewrite app_nil_r.
      apply EntryInt; [discriminate|exact D].
    + apply lang_opt_class in Ho.
      assert (F : Forall (fun c => is_digit c = true) f
                  /\ (List.length f <= 2)%nat).
      { inversion Hf as [|? ? ? H1|? ? f1 f2 H1 H2| | |]; subst; clear Hf.
        - apply more_opt_class in H1; subst. simpl. split; [constructor|lia].
        - apply lang_opt_class in H1. apply more_opt_class in H2; subst.
          rewrite app_nil_r.
          destruct H1 as [->|[x [-> Hx]]]; simpl; split; auto. }
      destruct F as [F L].
      destruct Ho as [->|[x [-> Hx]]].
      * simpl. apply EntryInt; [discriminate|].
        constructor; [now inversion D|].
        apply Forall_app; split; [exact Hds|exact F].
      * apply N.eqb_eq in Hx; subst x.
        change (([c] ++ ds) ++ [46%N] ++ f) with ((c :: ds) ++ 46%N :: f).
        apply EntryFrac; auto. discriminate.
Qed.

End PartialFacts.

(* ================================================================== *)
(** * [float] on the entries of the amount field *)

Module EntryFacts.

Import Validator ValidatorFacts.

Lemma Forall_last (P : char -> Prop) c t :
  Forall P (c :: t) -> P (last (c :: t) c).
Proof.
  intros H. destruct (exists_last (l := c :: t) ltac:(discriminate))
    as [u [z E]].
  rewrite E in H |- *. rewrite last_last.
  apply Forall_app in H as [_ H]. now inversion H.
Qed.

(** An entry has no character that either kind of stripping removes. *)
Lemma entry_fixed_by (sp : char -> bool) s :
  forallb (fun c => negb (sp c))
    [46; 48; 49; 50; 51; 52; 53; 54; 55; 56; 57]%N = true ->
  entry s -> Str.drop_both sp s = s.
Proof.
  intros A H. pose proof (entry_chars s H) as F.
  assert (G : Forall (fun c => sp c = false) s).
  { revert F. apply Forall_impl. intros c Hc.
    apply negb_true_iff. now apply (entry_char_all _ c A). }
  destruct s as [|c t]; [reflexivity|].
  apply drop_both_fixed.
  - now inversion G.
  - now apply (Forall_last (fun c => sp c = false)).
Qed.

Lemma entry_strip s : entry s -> strip s = s.
Proof. now apply entry_fixed_by. Qed.

Lemma entry_strip_ascii s : entry s -> strip_ascii s = s.
Proof. now apply entry_fixed_by. Qed.

Lemma entry_to_ascii s : entry s -> to_ascii s = s.
Proof.
  intros H. pose proof (entry_chars s H) as F. clear H.
  unfold to_ascii.
  assert (A : forallb (fun c => (c <? 128)%N) s = true).
  { apply forallb_forall. rewrite Forall_forall in F. intros c Hc.
    now apply (entry_char_all (fun c => (c <? 128)%N) c eq_refl), F. }
  now rewrite A.
Qed.

Lemma entry_no_underscore s :
  entry s -> existsb (fun c => (c =? underscore)%N) s = false.
Proof.
  intros H. pose proof (entry_chars s H) as F. clear H.
  induction F as [|c s Hc _ IH]; simpl; [reflexivity|].
  rewrite IH, orb_false_r.
  apply negb_true_iff.
  now apply (entry_char_all (fun c => negb (c =? underscore)%N) c).
Qed.

(** A text that starts with a digit is no [inf] or [nan] and has no
    sign. *)
Lemma digit_not_inf_or_nan c t :
  is_digit c = true ->
  parse_inf_or_nan (c :: t) = None /\ parse_sign (c :: t) = (false, c :: t).
Proof.
  intros H. apply digit_cases in H. simpl in H.
  repeat (destruct H as [<-|H]; [split; reflexivity|]). contradiction.
Qed.

Lemma take_digits_app ip tl :
  Forall (fun c => is_digit c = true) ip ->
  take_digits tl = ([], tl) ->
  take_digits (ip ++ tl) = (List.map (fun c => (c - 48)%N) ip, tl).
Proof.
  intros H T. induction H as [|c s Hc _ IH]; simpl; [exact T|].
  now rewrite Hc, IH.
Qed.

Lemma take_digits_all ip :
  Forall (fun c => is_digit c = true) ip ->
  take_digits ip = (List.map (fun c => (c - 48)%N) ip, []).
Proof.
  intros H. rewrite <- (app_nil_r ip) at 1. now apply take_digits_app.
Qed.

Lemma count_drop_zeros ds : count (drop_zeros ds) <= count ds.
Proof.
  unfold count. induction ds as [|d ds IH]; [simpl; lia|].
  destruct d; cbn [drop_zeros List.length]; lia.
Qed.

Lemma count_app a b : count (a ++ b) = count a + count b.
Proof. unfold count. rewrite length_app. lia. Qed.

Lemma count_map (f : N -> N) a : count (List.map f a) = count a.
Proof. unfold count. now rewrite length_map. Qed.

(** A numeral of few enough digits and without exponent is read. *)
Lemma parse_decimal_plain ip fp rest s :
  take_digits s = (ip, rest) ->
  (rest = [] /\ fp = []
   \/ exists r, rest = 46%N :: r /\ take_digits r = (fp, [])) ->
  ip <> [] -> count ip + count fp <= max_digits ->
  exists m e, parse_decimal s = Some (m, e).
Proof.
  intros T R N L. unfold parse_decimal. rewrite T.
  assert (C1 : (max_digits <? count (drop_zeros (ip ++ fp))) = false).
  { apply Z.ltb_ge. pose proof (count_drop_zeros (ip ++ fp)).
    rewrite count_app in *. lia. }
  assert (C2 : (max_digits <? count fp) = false).
  { apply Z.ltb_ge. unfold count in *. lia. }
  destruct R as [[-> ->]|[r [-> ->]]];
    (destruct ip as [|d ds]; [congruence|]);
    cbn [app]; cbn [app] in C1; rewrite C1, C2; simpl; eauto.
Qed.

Lemma entry_parse_decimal s :
  entry s -> Z.of_nat (List.length s) <= max_digits ->
  exists m e, parse_decimal s = Some (m, e).
Proof.
  intros [ip N H|ip fp N H1 H2 _] L.
  - apply (parse_decimal_plain (List.map (fun c => (c - 48)%N) ip) [] []).
    + now apply take_digits_all.
    + now left.
    + destruct ip; [congruence|discriminate].
    + rewrite count_map. unfold count, max_digits, char in *.
      simpl List.length. lia.
  - apply (parse_decimal_plain (List.map (fun c => (c - 48)%N) ip)
             (List.map (fun c => (c - 48)%N) fp) (46%N :: fp)).
    + now apply take_digits_app.
    + right. exists fp. split; [reflexivity|now apply take_digits_all].
    + destruct ip; [congruence|discriminate].
    + rewrite !count_map. unfold count, max_digits, char in *.
      rewrite length_app in L. simpl List.length in L. lia.
Qed.

(** [float] reads every entry, and what it reads is a number. *)
Lemma entry_of_text s :
  entry s -> Z.of_nat (List.length s) <= max_digits ->
  exists v, Float.of_text s = Some v /\ is_nan v = false.
Proof.
  intros H L. unfold Float.of_text.
  rewrite (entry_to_ascii s H), (entry_strip_ascii s H),
    (entry_no_underscore s H).
  destruct (entry_head s H) as [c [t [E Hc]]].
  destruct (entry_parse_decimal s H L) as [m [e P]].
  unfold from_string_inner. rewrite E in *.
  destruct (digit_not_inf_or_nan c t Hc) as [-> ->].
  rewrite P. eexists; split; [reflexivity|apply of_decimal_not_nan].
Qed.

End EntryFacts.

(* ================================================================== *)
(** * Facts about the table *)

Module DbFacts.

Import Db.

Lemma bind_double_number a : is_nan a = false -> bind_double (Some a) = Some a.
Proof. intros H; simpl; now rewrite H. Qed.

Lemma insert_positive d c a s st :
  Float.ltb zero a = true ->
  insert (Some d) (Some c) (Some a) (Some s) st
  = (Ok (next_rowid st),
     {| rows := rows st ++ [new_row d c a s st]; seq := next_rowid st |}).
Proof.
  intros H. unfold insert.
  rewrite (bind_double_number a (positive_not_nan a H)), H. reflexivity.
Qed.

(** An insert either fails and changes nothing, or appends one row with a
    positive amount under the next key. *)
Lemma insert_cases d c a s st :
  (exists e, insert d c a s st = (Failed e, st))
  \/ (exists d' c' a' s',
        d = Some d' /\ c = Some c' /\ a = Some a' /\ s = Some s'
        /\ Float.ltb zero a' = true
        /\ insert d c a s st
           = (Ok (next_rowid st),
              {| rows := rows st ++ [new_row d' c' a' s' st];
                 seq := next_rowid st |})).
Proof.
  destruct d as [d'|]; [|left; eexists; reflexivity].
  destruct c as [c'|]; [|left; eexists; reflexivity].
  destruct a as [a'|]; [|left; eexists; reflexivity].
  destruct s as [s'|].
  - destruct (Float.ltb zero a') eqn:P.
    + right. exists d', c', a', s'. repeat split; auto.
      now apply insert_positive.
    + left. unfold insert, bind_double.
      destruct (is_nan a'); [eexists; reflexivity|].
      rewrite P. eexists; reflexivity.
  - left. unfold insert, bind_double.
    destruct (is_nan a'); eexists; reflexivity.
Qed.

Lemma insert_not_positive d c a s st :
  Float.leb a zero = true ->
  exists e, insert d c (Some a) s st = (Failed e, st).
Proof.
  intros H. destruct (insert_cases d c (Some a) s st) as [F|R]; [exact F|].
  destruct R as [d' [c' [a' [s' [_ [_ [E [_ [P _]]]]]]]]].
  injection E as <-. rewrite (leb_zero_not_positive a H) in P. discriminate.
Qed.

(** Keys. *)
Lemma max_rowid_bound r l : In r l -> id r <= max_rowid l.
Proof.
  induction l as [|x l IH]; simpl; [contradiction|].
  intros [->|H]; [lia|]. specialize (IH H). lia.
Qed.

Lemma next_rowid_fresh r st : In r (rows st) -> id r < next_rowid st.
Proof.
  intros H. apply max_rowid_bound in H. unfold next_rowid. lia.
Qed.

Lemma next_rowid_above_seq st : seq st < next_rowid st.
Proof. unfold next_rowid. lia. Qed.

Lemma max_rowid_nonneg l : 0 <= max_rowid l.
Proof. induction l; simpl; lia. Qed.

(** Deleting. *)
Lemma delete_rows k st r :
  In r (rows (snd (delete k st))) <-> In r (rows st) /\ id r <> k.
Proof.
  simpl. rewrite filter_In, negb_true_iff, Z.eqb_neq. reflexivity.
Qed.

Lemma filter_all (A : Type) (p : A -> bool) l :
  Forall (fun x => p x = true) l -> filter p l = l.
Proof.
  induction 1 as [|x l Hx _ IH]; simpl; [reflexivity|].
  now rewrite Hx, IH.
Qed.

Lemma delete_absent k st :
  (forall r, In r (rows st) -> id r <> k) -> delete k st = (Ok tt, st).
Proof.
  intros H. unfold delete. f_equal. destruct st as [l q]; simpl in *.
  f_equal. apply filter_all. apply Forall_forall. intros r Hr.
  apply negb_true_iff, Z.eqb_neq. auto.
Qed.

(** Ordering by date. *)
Lemma insert_desc_perm r l : Permutation (r :: l) (insert_desc r l).
Proof.
  induction l as [|x l IH]; simpl; [reflexivity|].
  destruct (Str.leb (date x) (date r)); [reflexivity|].
  rewrite perm_swap. now constructor.
Qed.

Lemma order_by_date_desc_perm l : Permutation l (order_by_date_desc l).
Proof.
  induction l as [|x l IH]; simpl; [constructor|].
  rewrite <- insert_desc_perm. now constructor.
Qed.

Lemma insert_desc_sorted r l :
  StronglySorted date_desc l -> StronglySorted date_desc (insert_desc r l).
Proof.
  induction 1 as [|x l S IH F]; simpl.
  - constructor; constructor.
  - destruct (Str.leb (date x) (date r)) eqn:E.
    + constructor; [now constructor|]. constructor; [exact E|].
      revert F. apply Forall_impl. intros y Hy. unfold date_desc in *.
      now apply (leb_trans _ (date x)).
    + constructor; [exact IH|].
      apply Forall_forall. intros y Hy.
      apply (Permutation_in _ (Permutation_sym (insert_desc_perm r l))) in Hy.
      destruct Hy as [<-|Hy].
      * unfold date_desc. destruct (leb_total (date x) (date r)); congruence.
      * rewrite Forall_forall in F. now apply F.
Qed.

Lemma order_by_date_desc_sorted l :
  StronglySorted date_desc (order_by_date_desc l).
Proof.
  induction l as [|x l IH]; simpl; [constructor|now apply insert_desc_sorted].
Qed.

(** The stable engine produces one of the results the statement allows. *)
Lemma fetch_all_select st : select_ordered st (fetch_all st).
Proof.
  split; [apply order_by_date_desc_perm|apply order_by_date_desc_sorted].
Qed.

Lemma select_ordered_In st l r :
  select_ordered st l -> (In r l <-> In r (rows st)).
Proof.
  intros [P _]. split; apply Permutation_in; [now symmetry|exact P].
Qed.

(** Whether a list is ordered by date depends on its dates alone, so two
    rows of one date may change places. *)
Lemma date_desc_dates x x' l l' :
  date x = date x' -> List.map date l = List.map date l' ->
  Forall (date_desc x) l -> Forall (date_desc x') l'.
Proof.
  intros Ex. revert l'. induction l as [|y l IH]; intros [|y' l'] E F;
    try discriminate; [constructor|].
  simpl in E. injection E as Ey E. inversion F; subst.
  constructor; [|now apply IH].
  unfold date_desc in *. now rewrite <- Ex, <- Ey.
Qed.

Lemma sorted_by_dates l :
  forall l', List.map date l = List.map date l' ->
             StronglySorted date_desc l -> StronglySorted date_desc l'.
Proof.
  induction l as [|x l IH]; intros [|x' l'] E S; try discriminate;
    [constructor|].
  simpl in E. injection E as Ex E. inversion S; subst.
  constructor; [now apply IH|]. now apply (date_desc_dates x x' l l').
Qed.

Lemma swap_perm (r1 r2 : row) l1 l2 l3 :
  Permutation (l1 ++ r1 :: l2 ++ r2 :: l3) (l1 ++ r2 :: l2 ++ r1 :: l3).
Proof.
  apply Permutation_app_head.
  transitivity (r1 :: r2 :: l2 ++ l3).
  - constructor. symmetry. apply Permutation_middle.
  - rewrite perm_swap. constructor. apply Permutation_middle.
Qed.

Lemma select_ordered_swap st r1 r2 l1 l2 l3 :
  date r1 = date r2 ->
  select_ordered st (l1 ++ r1 :: l2 ++ r2 :: l3) ->
  select_ordered st (l1 ++ r2 :: l2 ++ r1 :: l3).
Proof.
  intros E [P S]. split.
  - rewrite P. apply swap_perm.
  - revert S. apply sorted_by_dates.
    rewrite !map_app. simpl. rewrite !map_app. simpl. now rewrite E.
Qed.

(** The invariant. *)
Lemma well_formed_empty : well_formed empty.
Proof. split; simpl; constructor. Qed.

Lemma sorted_keys_app l k :
  StronglySorted Z.lt l -> Forall (fun x => x < k) l ->
  StronglySorted Z.lt (l ++ [k]).
Proof.
  induction 1 as [|x l S IH F]; simpl; intros B.
  - constructor; constructor.
  - inversion B; subst. constructor; [auto|].
    apply Forall_app; split; [exact F|]. constructor; [lia|constructor].
Qed.

Lemma sorted_keys_filter (p : row -> bool) l :
  StronglySorted Z.lt (List.map id l) ->
  StronglySorted Z.lt (List.map id (filter p l)).
Proof.
  induction l as [|x l IH]; simpl; [auto|].
  intros S. inversion S as [|? ? S' F]; subst.
  destruct (p x); simpl; [|auto].
  constructor; [auto|].
  rewrite Forall_forall in *. intros k Hk. apply F.
  apply in_map_iff in Hk as [r [<- Hr]]. apply filter_In in Hr as [Hr _].
  now apply in_map.
Qed.

Lemma Forall_filter (A : Type) (P : A -> Prop) (p : A -> bool) l :
  Forall P l -> Forall P (filter p l).
Proof.
  rewrite !Forall_forall. intros H x Hx. apply filter_In in Hx as [Hx _]. auto.
Qed.

Lemma well_formed_insert d c a s st :
  well_formed st -> well_formed (snd (insert d c a s st)).
Proof.
  intros [K Q P].
  destruct (insert_cases d c a s st) as [[e ->]|R]; [now split|].
  destruct R as [d' [c' [a' [s' [_ [_ [_ [_ [Pa ->]]]]]]]]]. simpl.
  pose proof (next_rowid_above_seq st) as B.
  split; simpl.
  - rewrite map_app; simpl. apply sorted_keys_app; [exact K|].
    apply Forall_forall. intros k Hk.
    apply in_map_iff in Hk as [r [<- Hr]]. now apply next_rowid_fresh.
  - apply Forall_app; split.
    + revert Q. apply Forall_impl. intros r Hr. lia.
    + constructor; [|constructor]. simpl.
      rewrite Forall_forall in Q. unfold next_rowid in *.
      pose proof (max_rowid_nonneg (rows st)). lia.
  - apply Forall_app; split; [exact P|]. constructor; [exact Pa|constructor].
Qed.

Lemma well_formed_delete k st :
  well_formed st -> well_formed (snd (delete k st)).
Proof.
  intros [K Q P]. split; simpl.
  - now apply sorted_keys_filter.
  - now apply Forall_filter.
  - now apply Forall_filter.
Qed.

Lemma well_formed_exec o st : well_formed st -> well_formed (fst (exec o st)).
Proof.
  intros H. destruct o as [d c a s|k]; simpl.
  - pose proof (well_formed_insert d c a s st H) as W.
    destruct (insert d c a s st) as [[k|e] st']; exact W.
  - now apply well_formed_delete.
Qed.

Lemma well_formed_run os : forall st,
  well_formed st -> well_formed (fst (run os st)).
Proof.
  induction os as [|o os IH]; intros st H; simpl; [exact H|].
  pose proof (well_formed_exec o st H) as W.
  destruct (exec o st) as [st1 k]. simpl in W.
  specialize (IH st1 W).
  destruct (run os st1) as [st2 ks]. exact IH.
Qed.

(** In a well-formed table a key names one row. *)
Lemma well_formed_key_unique st r1 r2 :
  well_formed st -> In r1 (rows st) -> In r2 (rows st) -> id r1 = id r2 ->
  r1 = r2.
Proof.
  intros [K _ _]. induction (rows st) as [|x l IH]; simpl; [contradiction|].
  simpl in K. inversion K as [|? ? S F]; subst.
  rewrite Forall_forall in F.
  intros [<-|H1] [<-|H2] E; auto.
  - specialize (F (id r2) (in_map id _ _ H2)). lia.
  - specialize (F (id r1) (in_map id _ _ H1)). lia.
Qed.

End DbFacts.

(* ================================================================== *)
(** * Facts about dates *)

Module DateFacts.

Import Date.

Lemma compare_cons x y s t :
  Str.compare (x :: s) (y :: t) = lexc (N.compare x y) (Str.compare s t).
Proof. reflexivity. Qed.

Lemma digit_char_compare m n :
  N.compare (digit_char m) (digit_char n)
  = N.compare (m mod 10)%N (n mod 10)%N.
Proof.
  unfold digit_char.
  destruct (N.compare_spec (m mod 10) (n mod 10))%N;
    [apply N.compare_eq_iff|apply N.compare_lt_iff|apply N.compare_gt_iff];
    lia.
Qed.

(** A number against another, by their last digits after the rest. *)
Lemma compare_base10 q1 r1 q2 r2 :
  (r1 < 10)%N -> (r2 < 10)%N ->
  N.compare (10 * q1 + r1) (10 * q2 + r2)
  = lexc (N.compare q1 q2) (N.compare r1 r2).
Proof.
  intros H1 H2. unfold lexc.
  destruct (N.compare_spec q1 q2) as [E|L|L];
    destruct (N.compare_spec r1 r2) as [E'|L'|L'];
    first [apply N.compare_eq_iff; lia | apply N.compare_lt_iff; lia
          | apply N.compare_gt_iff; lia].
Qed.

Lemma compare_last_digit m n :
  N.compare m n
  = lexc (N.compare (m / 10) (n / 10))%N (N.compare (m mod 10) (n mod 10))%N.
Proof.
  rewrite (N.div_mod m 10) at 1 by discriminate.
  rewrite (N.div_mod n 10) at 1 by discriminate.
  apply compare_base10; now apply N.mod_lt.
Qed.

Lemma compare_small m n :
  (m < 10)%N -> (n < 10)%N ->
  N.compare (m mod 10)%N (n mod 10)%N = N.compare m n.
Proof. intros Hm Hn. now rewrite !N.mod_small. Qed.

Lemma two_places m n :
  (m < 100)%N -> (n < 100)%N ->
  Str.compare [digit_char (m / 10); digit_char m]
              [digit_char (n / 10); digit_char n]
  = N.compare m n.
Proof.
  intros Hm Hn. rewrite !compare_cons, !digit_char_compare. simpl.
  rewrite (compare_last_digit m n).
  rewrite compare_small.
  - destruct (N.compare (m / 10) (n / 10))%N, (N.compare (m mod 10) (n mod 10))%N;
      reflexivity.
  - apply N.Div0.div_lt_upper_bound. lia.
  - apply N.Div0.div_lt_upper_bound. lia.
Qed.

Lemma four_places m n :
  (m < 10000)%N -> (n < 10000)%N ->
  Str.compare [digit_char (m / 1000); digit_char (m / 100);
               digit_char (m / 10); digit_char m]
              [digit_char (n / 1000); digit_char (n / 100);
               digit_char (n / 10); digit_char n]
  = N.compare m n.
Proof.
  intros Hm Hn. rewrite !compare_cons, !digit_char_compare. simpl.
  rewrite (compare_last_digit m n).
  rewrite (compare_last_digit (m / 10) (n / 10)).
  rewrite (compare_last_digit (m / 10 / 10) (n / 10 / 10)).
  assert (D : forall k, (k / 10 / 10 = k / 100 /\ k / 10 / 10 / 10 = k / 1000)%N)
    by (intros k; rewrite !N.Div0.div_div; split; reflexivity).
  destruct (D m) as [-> ->]. destruct (D n) as [-> ->].
  rewrite <- (compare_small (m / 1000) (n / 1000)).
  - destruct (N.compare ((m / 1000) mod 10) ((n / 1000) mod 10))%N,
      (N.compare ((m / 100) mod 10) ((n / 100) mod 10))%N,
      (N.compare ((m / 10) mod 10) ((n / 10) mod 10))%N,
      (N.compare (m mod 10) (n mod 10))%N; reflexivity.
  - apply N.Div0.div_lt_upper_bound. lia.
  - apply N.Div0.div_lt_upper_bound. lia.
Qed.

Lemma compare_app a1 a2 b1 b2 :
  List.length a1 = List.length b1 ->
  Str.compare (a1 ++ a2) (b1 ++ b2)
  = lexc (Str.compare a1 b1) (Str.compare a2 b2).
Proof.
  revert b1; induction a1 as [|x a1 IH]; intros [|y b1] L;
    try discriminate; [reflexivity|].
  simpl in L. injection L as L. simpl.
  rewrite (IH b1 L). destruct (N.compare x y); reflexivity.
Qed.

(** The text of a date orders as the date does. *)
Lemma to_string_compare a b :
  fits a = true -> fits b = true ->
  Str.compare (to_string a) (to_string b) = Date.compare a b.
Proof.
  unfold fits. intros Ha Hb.
  apply andb_prop in Ha as [Ha Fa]. apply andb_prop in Ha as [Ya Ma].
  apply andb_prop in Hb as [Hb Fb]. apply andb_prop in Hb as [Yb Mb].
  apply N.ltb_lt in Ya, Ma, Fa, Yb, Mb, Fb.
  unfold to_string, Date.compare.
  set (y1 := year a) in *. set (y2 := year b) in *.
  set (m1 := month a) in *. set (m2 := month b) in *.
  set (d1 := day a) in *. set (d2 := day b) in *.
  change (Str.compare
            ([digit_char (y1 / 1000); digit_char (y1 / 100);
              digit_char (y1 / 10); digit_char y1]
             ++ [45%N] ++ [digit_char (m1 / 10); digit_char m1]
             ++ [45%N] ++ [digit_char (d1 / 10); digit_char d1])
            ([digit_char (y2 / 1000); digit_char (y2 / 100);
              digit_char (y2 / 10); digit_char y2]
             ++ [45%N] ++ [digit_char (m2 / 10); digit_char m2]
             ++ [45%N] ++ [digit_char (d2 / 10); digit_char d2])
          = match N.compare y1 y2 with
            | Eq => match N.compare m1 m2 with
                    | Eq => N.compare d1 d2
                    | c => c
                    end
            | c => c
            end).
  rewrite !compare_app by reflexivity.
  rewrite four_places, !two_places by assumption.
  destruct (N.compare y1 y2), (N.compare m1 m2); reflexivity.
Qed.

Lemma to_string_leb a b :
  fits a = true -> fits b = true ->
  Str.leb (to_string a) (to_string b) = Date.leb a b.
Proof.
  intros Ha Hb. unfold Str.leb, Date.leb. now rewrite to_string_compare.
Qed.

(** What the date box can hold fills the places of [to_string]. *)
Lemma days_in_month_bound y m : (days_in_month y m <= 31)%N.
Proof.
  unfold days_in_month.
  destruct (m =? 2)%N; [destruct (is_leap y); lia|].
  destruct ((m =? 4) || (m =? 6) || (m =? 9) || (m =? 11))%N; lia.
Qed.

Lemma leb_year a b : Date.leb a b = true -> (year a <= year b)%N.
Proof.
  unfold Date.leb, Date.compare.
  destruct (N.compare_spec (year a) (year b)); [lia|lia|discriminate].
Qed.

Lemma box_allows_fits today d :
  (year today < 10000)%N -> box_allows today d = true -> fits d = true.
Proof.
  unfold box_allows, is_valid, fits. intros Y H.
  apply andb_prop in H as [H T]. apply andb_prop in H as [H _].
  apply andb_prop in H as [H D]. apply andb_prop in H as [H _].
  apply andb_prop in H as [_ M].
  apply N.leb_le in D, M. apply leb_year in T.
  pose proof (days_in_month_bound (year d) (month d)).
  rewrite !andb_true_iff, !N.ltb_lt. lia.
Qed.

End DateFacts.

(* ================================================================== *)
(** * Facts about the slots *)

Module AppFacts.

Import Db DbFacts App.

Lemma sumAmount_or_zero st : sumAmount st = or_zero (select_sum st).
Proof. reflexivity. Qed.

Lemma listAll_In st r : In r (listAll st) <-> In r (rows st).
Proof. apply select_ordered_In, fetch_all_select. Qed.

(** What [positive_amount] lets through is positive, or a NaN. *)
Lemma positive_amount_some t v :
  positive_amount t = Some v ->
  Float.of_text t = Some v
  /\ (is_nan v = true \/ Float.ltb zero v = true).
Proof.
  unfold positive_amount. destruct (Float.of_text t) as [a|]; [|discriminate].
  destruct (Float.leb a zero) eqn:L; [discriminate|].
  intros E; injection E as <-. split; [reflexivity|].
  destruct (is_nan a) eqn:N; [now left|right].
  rewrite (not_nan_leb_zero a N) in L. now apply negb_false_iff in L.
Qed.

Lemma positive_amount_none t :
  positive_amount t = None <->
  Float.of_text t = None
  \/ exists v, Float.of_text t = Some v /\ Float.leb v zero = true.
Proof.
  unfold positive_amount. destruct (Float.of_text t) as [a|].
  - destruct (Float.leb a zero) eqn:L; split; intros H; try discriminate.
    + right. eauto.
    + reflexivity.
    + destruct H as [H|[v [E H]]]; [discriminate|].
      injection E as <-. congruence.
  - split; auto.
Qed.

Lemma amounts_not_negative st :
  well_formed st ->
  Forall (fun a => not_negative a = true) (List.map amount (rows st)).
Proof.
  intros [_ _ P]. apply Forall_map. revert P. apply Forall_impl.
  intros r. apply positive_not_negative.
Qed.

(** Taking one row out of a list with distinct keys. *)
Lemma filter_key_split l r :
  StronglySorted Z.lt (List.map id l) -> In r l ->
  exists l1 l2,
    l = l1 ++ r :: l2
    /\ filter (fun x => negb (id x =? id r)) l = l1 ++ l2.
Proof.
  induction l as [|x l IH]; simpl; [contradiction|].
  intros S H. inversion S as [|? ? S' F]; subst.
  rewrite Forall_forall in F.
  destruct H as [->|H].
  - exists [], l. split; [reflexivity|].
    rewrite Z.eqb_refl; simpl. apply filter_all, Forall_forall.
    intros y Hy. apply negb_true_iff, Z.eqb_neq.
    specialize (F (id y) (in_map id _ _ Hy)). lia.
  - destruct (IH S' H) as [l1 [l2 [E1 E2]]].
    exists (x :: l1), l2. split; [simpl; now rewrite E1|].
    assert (N : id x <> id r)
      by (specialize (F (id r) (in_map id _ _ H)); lia).
    apply Z.eqb_neq in N. rewrite N; simpl. now rewrite E2.
Qed.

Lemma exact_sum_app l1 l2 :
  (exact_sum (l1 ++ l2) == exact_sum l1 + exact_sum l2)%Q.
Proof.
  induction l1 as [|x l1 IH]; simpl; [ring|]. rewrite IH. ring.
Qed.

End AppFacts.

(* ================================================================== *)
(** * What a slot does to the database *)

Module SlotFacts.

Import Db DbFacts App AppFacts Validator ValidatorFacts EntryFacts.

Lemma insert_nan d c a s st :
  is_nan a = true ->
  insert (Some d) (Some c) (Some a) (Some s) st
  = (Failed (NotNullFailed ColAmount), st).
Proof. intros H. unfold insert, bind_double. now rewrite H. Qed.

(** [add_expense], case by case. *)
Lemma add_expense_no_amount f w :
  strip (amount_input f) = [] ->
  add_expense f w = (InputError "Please enter an amount.", w).
Proof. intros H. unfold add_expense. now rewrite H. Qed.

Lemma add_expense_no_description f w :
  strip (amount_input f) <> [] -> strip (description_input f) = [] ->
  add_expense f w = (InputError "Please enter a description.", w).
Proof.
  intros H1 H2. unfold add_expense. rewrite H2.
  destruct (strip (amount_input f)); [congruence|reflexivity].
Qed.

Lemma add_expense_not_positive f w :
  strip (amount_input f) <> [] -> strip (description_input f) <> [] ->
  positive_amount (strip (amount_input f)) = None ->
  add_expense f w = (InputError "Amount must be a positive number.", w).
Proof.
  intros H1 H2 H3. unfold add_expense. rewrite H3.
  destruct (strip (amount_input f)); [congruence|].
  destruct (strip (description_input f)); [congruence|reflexivity].
Qed.

Lemma add_expense_positive f w v :
  strip (amount_input f) <> [] -> strip (description_input f) <> [] ->
  positive_amount (strip (amount_input f)) = Some v ->
  Float.ltb zero v = true ->
  add_expense f w = (Done, added f v w).
Proof.
  intros H1 H2 H3 P. unfold add_expense, added. cbv zeta. rewrite H3.
  destruct (strip (amount_input f)); [congruence|].
  destruct (strip (description_input f)) as [|x y] eqn:E; [congruence|].
  simpl is_empty. cbv iota.
  rewrite (insert_positive _ _ _ _ _ P). reflexivity.
Qed.

Lemma add_expense_nan f w v :
  strip (amount_input f) <> [] -> strip (description_input f) <> [] ->
  positive_amount (strip (amount_input f)) = Some v ->
  is_nan v = true ->
  fst (add_expense f w) = DatabaseError (NotNullFailed ColAmount)
  /\ db (snd (add_expense f w)) = db w.
Proof.
  intros H1 H2 H3 P. unfold add_expense. cbv zeta. rewrite H3.
  destruct (strip (amount_input f)); [congruence|].
  destruct (strip (description_input f)) as [|x y] eqn:E; [congruence|].
  simpl is_empty. cbv iota.
  rewrite (insert_nan _ _ _ _ _ P). split; reflexivity.
Qed.

(** The five ways [add_expense] can go. *)
Lemma add_expense_cases f w :
  (exists msg, add_expense f w = (InputError msg, w))
  \/ (exists v, Float.ltb zero v = true
                /\ positive_amount (strip (amount_input f)) = Some v
                /\ trimmed (strip (description_input f)) = true
                /\ add_expense f w = (Done, added f v w))
  \/ (fst (add_expense f w) = DatabaseError (NotNullFailed ColAmount)
      /\ db (snd (add_expense f w)) = db w).
Proof.
  destruct (strip (amount_input f)) as [|a0 a1] eqn:A.
  { left. eexists. now apply add_expense_no_amount. }
  assert (A' : strip (amount_input f) <> []) by (rewrite A; discriminate).
  destruct (strip (description_input f)) as [|d0 d1] eqn:D.
  { left. eexists. now apply add_expense_no_description. }
  assert (D' : strip (description_input f) <> []) by (rewrite D; discriminate).
  destruct (positive_amount (strip (amount_input f))) as [v|] eqn:V.
  - destruct (positive_amount_some _ _ V) as [_ [N|P]].
    + right; right. now apply (add_expense_nan f w v).
    + right; left. exists v. rewrite <- A, <- D. repeat split; auto.
      * apply is_empty_false_trimmed. now rewrite D.
      * now apply add_expense_positive.
  - left. eexists. now apply add_expense_not_positive.
Qed.

(** A rejected form leaves the window as it was: no statement has run. *)
Lemma add_expense_input_error f w msg :
  fst (add_expense f w) = InputError msg -> snd (add_expense f w) = w.
Proof.
  destruct (add_expense_cases f w) as [[m E]|[[v [_ [_ [_ E]]]]|[E _]]];
    rewrite E; simpl; [reflexivity|discriminate|discriminate].
Qed.

Lemma added_rows f v w :
  Float.ltb zero v = true ->
  rows (db (added f v w))
  = rows (db w)
    ++ [new_row (Date.to_string (date_box f))
          (category_text (category_dropdown f)) v
          (strip (description_input f)) (db w)].
Proof.
  intros P. unfold added. now rewrite (insert_positive _ _ _ _ _ P).
Qed.

(** What one event does to the rows of the table. *)
Lemma step_rows w e :
  rows (db (step w e)) = rows (db w)
  \/ (exists f v,
        Float.ltb zero v = true
        /\ trimmed (strip (description_input f)) = true
        /\ rows (db (step w e))
           = rows (db w)
             ++ [new_row (Date.to_string (date_box f))
                   (category_text (category_dropdown f)) v
                   (strip (description_input f)) (db w)])
  \/ (exists k, rows (db (step w e))
                = filter (fun r => negb (id r =? k)) (rows (db w))).
Proof.
  destruct e as [f|i c]; simpl.
  - destruct (add_expense_cases f w) as [[m E]|[[v [P [_ [T E]]]]|[_ E]]].
    + left. now rewrite E.
    + right; left. exists f, v. rewrite E. simpl snd.
      repeat split; auto. now apply added_rows.
    + left. now rewrite E.
  - unfold delete_expense. destruct i as [i|]; [|now left].
    destruct (nth_error (table w) i) as [r|]; [|now left].
    destruct c; [|now left].
    right; right. exists (id r). reflexivity.
Qed.

(** On an entry of the mask the rules of the specification and the tests
    of [add_expense] agree. *)
Lemma entry_positive_amount s :
  entry s -> Z.of_nat (List.length s) <= max_length ->
  strip s = s /\ s <> []
  /\ exists v, Float.of_text s = Some v
               /\ positive_amount s
                  = (if Float.ltb zero v then Some v else None).
Proof.
  intros H L. split; [now apply entry_strip|].
  destruct (entry_head s H) as [c [t [E _]]].
  split; [rewrite E; discriminate|].
  assert (L' : Z.of_nat (List.length s) <= max_digits)
    by (unfold max_length, max_digits in *; lia).
  destruct (entry_of_text s H L') as [v [V N]].
  exists v. split; [exact V|]. unfold positive_amount. rewrite V.
  rewrite (not_nan_leb_zero v N). now destruct (Float.ltb zero v).
Qed.

Lemma validate_acceptable s : validate s = Acceptable <-> entry s.
Proof.
  unfold validate. split.
  - destruct (matches amount_pattern s) eqn:M;
      [intros _; now apply matches_entry|].
    destruct (is_empty s || partial_match amount_pattern s); discriminate.
  - intros E. now rewrite (MaskFacts.entry_matches s E).
Qed.

(** No entry ends with a line feed. *)
Lemma entry_line_feed e : matches amount_pattern (e ++ [line_feed]) = false.
Proof.
  destruct (matches amount_pattern (e ++ [line_feed])) eqn:M; [|reflexivity].
  apply matches_entry, entry_chars, Forall_app in M as [_ M].
  inversion M as [|? ? C _]. discriminate C.
Qed.

(** The validator calls intermediate the empty text and an entry followed
    by one line feed, and nothing else. *)
Lemma validate_intermediate s :
  validate s = Intermediate
  <-> s = [] \/ exists e, entry e /\ s = e ++ [line_feed].
Proof.
  unfold validate, partial_match. split.
  - destruct (matches amount_pattern s) eqn:M; [discriminate|].
    destruct s as [|c t]; [now left|]. cbn [is_empty orb].
    destruct (wants_more (residual amount_pattern (c :: t))) eqn:W.
    + apply PartialFacts.residual_more, PartialFacts.more_amount_pattern in W.
      destruct W as [W|W]; [discriminate|].
      now rewrite (MaskFacts.entry_matches _ W) in M.
    + cbn [orb].
      destruct (before_line_feed (c :: t)) as [q|] eqn:B; [|discriminate].
      destruct (matches amount_pattern q) eqn:Q; [|discriminate].
      intros _. right. exists q. split; [now apply matches_entry|].
      now apply PartialFacts.before_line_feed_some.
  - intros [->|[e [E ->]]]; [reflexivity|].
    rewrite entry_line_feed, PartialFacts.before_line_feed_app,
      (MaskFacts.entry_matches e E).
    now rewrite !orb_true_r.
Qed.

(** What the field can hold: nothing, an entry, or an entry followed by
    one line feed. *)
Lemma field_allows_exact s :
  field_allows s = true
  <-> Z.of_nat (List.length s) <= max_length
      /\ (s = [] \/ entry s \/ exists e, entry e /\ s = e ++ [line_feed]).
Proof.
  unfold field_allows. rewrite andb_true_iff, Z.leb_le.
  split; intros [L H]; (split; [exact L|]).
  - destruct (validate s) eqn:V; [discriminate| |].
    + apply validate_intermediate in V as [V|V]; auto.
    + right; left. now apply validate_acceptable.
  - destruct H as [H|[H|H]].
    + now rewrite (proj2 (validate_intermediate s) (or_introl H)).
    + now rewrite (proj2 (validate_acceptable s) H).
    + now rewrite (proj2 (validate_intermediate s) (or_intror H)).
Qed.

Lemma field_allows_cases s :
  field_allows s = true ->
  Z.of_nat (List.length s) <= max_length
  /\ (s = [] \/ entry s \/ exists e, entry e /\ s = e ++ [line_feed]).
Proof. apply field_allows_exact. Qed.

Lemma entry_allows_exact s :
  entry_allows s = true
  <-> (s = [] \/ entry s) /\ Z.of_nat (List.length s) <= max_length.
Proof.
  unfold entry_allows. rewrite andb_true_iff, Z.leb_le, orb_true_iff.
  split.
  - intros [L [H|H]]; (split; [|exact L]).
    + left. now destruct s.
    + right. now apply matches_entry.
  - intros [[->|H] L]; (split; [exact L|]); [now left|right].
    now apply MaskFacts.entry_matches.
Qed.

Lemma entry_allows_cases s :
  entry_allows s = true ->
  s = [] \/ (entry s /\ Z.of_nat (List.length s) <= max_length).
Proof.
  intros H. apply entry_allows_exact in H as [[H|H] L]; auto.
Qed.

(** The field can hold what [add_expense] can find in it. *)
Lemma entry_allows_field s : entry_allows s = true -> field_allows s = true.
Proof.
  intros H. apply entry_allows_exact in H as [[H|H] L];
    apply field_allows_exact; auto.
Qed.

(** Dropping spaces takes the line feed off an entry. *)
Lemma entry_line_feed_dropped (sp : char -> bool) e :
  forallb (fun c => negb (sp c))
    [46; 48; 49; 50; 51; 52; 53; 54; 55; 56; 57]%N = true ->
  sp line_feed = true ->
  entry e -> Str.drop_both sp (e ++ [line_feed]) = e.
Proof.
  intros A F E. rewrite <- (entry_fixed_by sp e A E) at 2.
  destruct (entry_head e E) as [c [t [-> D]]].
  assert (S : sp c = false).
  { apply negb_true_iff.
    apply (entry_char_all (fun c => negb (sp c)) c A).
    unfold entry_char. now rewrite D. }
  unfold Str.drop_both.
  change ((c :: t) ++ [line_feed]) with (c :: (t ++ [line_feed])).
  rewrite !(drop_while_keeps sp) by exact S.
  change (c :: (t ++ [line_feed])) with ((c :: t) ++ [line_feed]).
  rewrite rev_unit. cbn [Str.drop_while]. now rewrite F.
Qed.

Lemma strip_line_feed e : entry e -> strip (e ++ [line_feed]) = e.
Proof. now apply (entry_line_feed_dropped is_space). Qed.

(** [float] reads an entry followed by a line feed as it reads the
    entry. *)
Lemma of_text_line_feed e :
  entry e -> Float.of_text (e ++ [line_feed]) = Float.of_text e.
Proof.
  intros E. unfold Float.of_text.
  assert (A : to_ascii (e ++ [line_feed]) = e ++ [line_feed]).
  { unfold to_ascii.
    assert (B : forallb (fun c => (c <? 128)%N) (e ++ [line_feed]) = true).
    { rewrite forallb_app. apply andb_true_iff. split; [|reflexivity].
      apply forallb_forall. intros c Hc.
      pose proof (entry_chars e E) as C. rewrite Forall_forall in C.
      now apply (entry_char_all (fun c => (c <? 128)%N) c eq_refl), C. }
    now rewrite B. }
  rewrite A, (entry_to_ascii e E), (entry_strip_ascii e E).
  unfold strip_ascii.
  now rewrite (entry_line_feed_dropped is_ascii_space e eq_refl eq_refl E).
Qed.

(** What [add_expense] finds in the field, and what [strip] took off. *)
Lemma field_strip s :
  field_allows s = true ->
  entry_allows (strip s) = true
  /\ (s = strip s \/ s = strip s ++ [line_feed]).
Proof.
  intros H. apply field_allows_exact in H as [L [->|[E|[e [E ->]]]]].
  - split; [reflexivity|now left].
  - rewrite (entry_strip s E). split; [|now left].
    apply entry_allows_exact. auto.
  - rewrite (strip_line_feed e E). split; [|now right].
    apply entry_allows_exact. split; [now right|].
    rewrite length_app in L. lia.
Qed.

(** In the field, [float] reads the text as it reads what [strip] leaves
    of it, and only the empty text leaves nothing. *)
Lemma field_read s :
  field_allows s = true ->
  s = []
  \/ (s <> [] /\ entry (strip s)
      /\ Z.of_nat (List.length (strip s)) <= max_length
      /\ Float.of_text s = Float.of_text (strip s)).
Proof.
  intros H. apply field_allows_exact in H as [L [->|[E|[e [E ->]]]]].
  - now left.
  - right. rewrite (entry_strip s E).
    destruct (entry_head s E) as [c [t [K _]]].
    repeat split; auto. rewrite K; discriminate.
  - right. rewrite (strip_line_feed e E), (of_text_line_feed e E).
    rewrite length_app in L. simpl in L.
    repeat split; auto; [|lia]. now destruct e.
Qed.

(** The characters after the point of what the field holds: at most two
    digits, and after them the line feed, if the field holds one. *)
Lemma field_decimals t :
  field_allows t = true ->
  (List.length (decimals (strip t)) <= 2)%nat
  /\ Forall (fun c => is_digit c = true) (decimals (strip t))
  /\ (decimals t = decimals (strip t)
      \/ decimals t = decimals (strip t) ++ [line_feed]).
Proof.
  intros H. apply field_allows_exact in H as [_ [->|[E|[e [E ->]]]]].
  - simpl. repeat split; [lia|constructor|now left].
  - rewrite (entry_strip t E).
    destruct (entry_decimals t E) as [L F]. repeat split; auto.
  - rewrite (strip_line_feed e E).
    destruct (entry_decimals e E) as [L F]. repeat split; auto.
    destruct E as [ip _ D|ip fp _ D1 D2 _].
    + left. rewrite (decimals_no_point ip D). clear L F.
      induction D as [|c s Hc _ IH]; [reflexivity|]. simpl.
      destruct (N.eqb_spec c 46) as [->|_]; [discriminate|exact IH].
    + right. rewrite <- app_assoc. simpl.
      now rewrite !decimals_point.
Qed.

End SlotFacts.

(* ================================================================== *)
(** * Sequences of statements and the keys they hand out *)

Module KeyFacts.

Import Db DbFacts.

Lemma run_cons_fst o os st :
  fst (Db.run (o :: os) st) = fst (Db.run os (fst (exec o st))).
Proof.
  simpl. destruct (exec o st) as [st1 k]. simpl.
  destruct (Db.run os st1) as [st2 ks]. reflexivity.
Qed.

Lemma exec_seq o st :
  seq st <= seq (fst (exec o st))
  /\ forall k, snd (exec o st) = Some k ->
               k = next_rowid st /\ seq (fst (exec o st)) = k.
Proof.
  destruct o as [d c a s|k0]; simpl.
  - destruct (insert_cases d c a s st) as [[e ->]|R]; simpl.
    + split; [lia|discriminate].
    + destruct R as [d' [c' [a' [s' [_ [_ [_ [_ [_ ->]]]]]]]]]. simpl.
      pose proof (next_rowid_above_seq st).
      split; [lia|]. intros k E. injection E as <-. auto.
  - split; [lia|discriminate].
Qed.

Lemma run_cons o os st :
  run (o :: os) st
  = (fst (run os (fst (exec o st))),
     match snd (exec o st) with
     | Some k => k :: snd (run os (fst (exec o st)))
     | None => snd (run os (fst (exec o st)))
     end).
Proof.
  simpl. destruct (exec o st) as [st1 k]. simpl.
  destruct (run os st1) as [st2 ks]. reflexivity.
Qed.

Lemma run_keys os : forall st,
  Forall (fun k => seq st < k) (snd (run os st))
  /\ StronglySorted Z.lt (snd (run os st)).
Proof.
  induction os as [|o os IH]; intros st.
  - simpl. split; constructor.
  - rewrite run_cons. simpl.
    destruct (exec_seq o st) as [M K].
    destruct (IH (fst (exec o st))) as [F S].
    assert (F' : Forall (fun k => seq st < k) (snd (run os (fst (exec o st))))).
    { revert F. apply Forall_impl. intros k Hk. lia. }
    destruct (snd (exec o st)) as [k|]; [|now split].
    destruct (K k eq_refl) as [E Q].
    pose proof (next_rowid_above_seq st).
    split.
    + constructor; [lia|exact F'].
    + constructor; [exact S|]. rewrite Q in F. exact F.
Qed.

Lemma sorted_keys_NoDup l : StronglySorted Z.lt l -> NoDup l.
Proof.
  induction 1 as [|k l S IH F]; constructor; [|exact IH].
  intros H. rewrite Forall_forall in F. specialize (F k H). lia.
Qed.

End KeyFacts.

(* ================================================================== *)
(** * Invariants of the rows *)

Module RowFacts.

Import Db DbFacts App AppFacts SlotFacts.

Section Invariant.

Variable P : row -> Prop.

Lemma exec_rows_invariant o st :
  (forall d c a s, Float.ltb zero a = true -> P (new_row d c a s st)) ->
  Forall P (rows st) -> Forall P (rows (fst (exec o st))).
Proof.
  intros N H. destruct o as [d c a s|k]; simpl.
  - destruct (insert_cases d c a s st) as [[e ->]|R]; [exact H|].
    destruct R as [d' [c' [a' [s' [_ [_ [_ [_ [Pa ->]]]]]]]]]. simpl.
    apply Forall_app; split; [exact H|]. constructor; [auto|constructor].
  - now apply Forall_filter.
Qed.

Lemma run_rows_invariant os :
  (forall d c a s st, Float.ltb zero a = true -> P (new_row d c a s st)) ->
  forall st, Forall P (rows st) -> Forall P (rows (fst (Db.run os st))).
Proof.
  intros N. induction os as [|o os IH]; intros st H; [exact H|].
  rewrite KeyFacts.run_cons_fst. apply IH, exec_rows_invariant; auto.
Qed.

Lemma step_rows_invariant w e :
  (forall f v, Float.ltb zero v = true ->
               trimmed (strip (description_input f)) = true ->
               P (new_row (Date.to_string (date_box f))
                    (category_text (category_dropdown f)) v
                    (strip (description_input f)) (db w))) ->
  Forall P (rows (db w)) -> Forall P (rows (db (step w e))).
Proof.
  intros N H.
  destruct (step_rows w e) as [->|[[f [v [Pv [T ->]]]]|[k ->]]].
  - exact H.
  - apply Forall_app; split; [exact H|]. constructor; [auto|constructor].
  - now apply Forall_filter.
Qed.

Lemma app_run_rows_invariant es :
  (forall f v st, Float.ltb zero v = true ->
                  trimmed (strip (description_input f)) = true ->
                  P (new_row (Date.to_string (date_box f))
                       (category_text (category_dropdown f)) v
                       (strip (description_input f)) st)) ->
  forall w, Forall P (rows (db w)) -> Forall P (rows (db (App.run es w))).
Proof.
  intros N. unfold App.run.
  induction es as [|e es IH]; intros w H; [exact H|].
  simpl. apply IH, step_rows_invariant; auto.
Qed.

End Invariant.

(** Every event leaves the table well formed. *)
Lemma well_formed_step w e :
  well_formed (db w) -> well_formed (db (step w e)).
Proof.
  intros W. destruct e as [f|i c]; simpl.
  - destruct (add_expense_cases f w) as [[m E]|[[v [P [_ [_ E]]]]|[_ E]]].
    + now rewrite E.
    + rewrite E. unfold added, update_total, load_table. cbn [snd db].
      now apply well_formed_insert.
    + now rewrite E.
  - unfold delete_expense. destruct i as [i|]; [|exact W].
    destruct (nth_error (table w) i) as [r|]; [|exact W].
    destruct c; [|exact W]. simpl. now apply well_formed_delete.
Qed.

Lemma well_formed_app_run es :
  forall w, well_formed (db w) -> well_formed (db (App.run es w)).
Proof.
  unfold App.run. induction es as [|e es IH]; intros w W; [exact W|].
  simpl. now apply IH, well_formed_step.
Qed.

Lemma well_formed_two_tenths : well_formed two_tenths.
Proof. apply well_formed_app_run. exact well_formed_empty. Qed.

(** Sortedness carries over to a weaker relation. *)
Lemma StronglySorted_weaken (R S : row -> row -> Prop) l :
  (forall a b, R a b -> S a b) -> StronglySorted R l -> StronglySorted S l.
Proof.
  intros I. induction 1 as [|x l H IH F]; constructor; [exact IH|].
  revert F. apply Forall_impl, I.
Qed.

(** The meaning of [trimmed]. *)
Lemma trimmed_meaning s :
  trimmed s = true ->
  s <> [] /\ strip s = s
  /\ (forall c t, s = c :: t ->
        is_space c = false /\ is_space (last s c) = false).
Proof.
  intros H. split; [destruct s; [discriminate|discriminate]|].
  split; [now apply strip_of_trimmed|].
  intros c t E. subst s. unfold trimmed in H.
  apply andb_prop in H as [H1 H2]. now apply negb_true_iff in H1, H2.
Qed.

End RowFacts.

(* ================================================================== *)
(** * Facts about sessions *)

Module SessionFacts.
Import Db App Session DbFacts AppFacts SlotFacts RowFacts.

Lemma in_sync_start file : in_sync (start file).
Proof. split; reflexivity. Qed.

Lemma in_sync_step w e : in_sync w -> in_sync (step w e).
Proof.
  intros [T S]. destruct e as [f|i c]; simpl.
  - destruct (add_expense_cases f w) as [[m E]|[[v [_ [_ [_ E]]]]|[_ E]]].
    + rewrite E. now split.
    + rewrite E. split; reflexivity.
    + revert E. unfold add_expense. cbv zeta.
      destruct (is_empty _); [intros _; now split|].
      destruct (is_empty _); [intros _; now split|].
      destruct (positive_amount _); [|intros _; now split].
      destruct (insert _ _ _ _ _) as [[k|e] d]; simpl.
      * intros _. split; reflexivity.
      * intros E. unfold in_sync. simpl. rewrite E. now split.
  - unfold delete_expense. destruct i as [i|]; [|now split].
    destruct (nth_error (table w) i) as [r|]; [|now split].
    destruct c; [|now split]. simpl. split; reflexivity.
Qed.

Lemma in_sync_run es : forall w, in_sync w -> in_sync (App.run es w).
Proof.
  unfold App.run. induction es as [|e es IH]; intros w S; [exact S|].
  simpl. now apply IH, in_sync_step.
Qed.

(** Sorting and filtering. *)
Lemma insert_desc_head r l :
  Forall (fun y => Str.leb (date y) (date r) = true) l ->
  insert_desc r l = r :: l.
Proof.
  intros F. destruct F as [|y l H _]; simpl; [reflexivity|now rewrite H].
Qed.

Lemma filter_insert_desc p r l :
  StronglySorted date_desc l ->
  filter p (insert_desc r l)
  = if p r then insert_desc r (filter p l) else filter p l.
Proof.
  induction 1 as [|x l S IH F]; simpl.
  - now destruct (p r).
  - destruct (Str.leb (date x) (date r)) eqn:E.
    + simpl. destruct (p r) eqn:R; [|reflexivity].
      destruct (p x) eqn:X; simpl; [now rewrite E|].
      symmetry. apply insert_desc_head, Forall_filter.
      revert F. apply Forall_impl. intros y Hy.
      exact (leb_trans _ _ _ Hy E).
    + simpl. rewrite IH.
      destruct (p x), (p r); simpl; try rewrite E; reflexivity.
Qed.

Lemma order_by_date_desc_filter p l :
  order_by_date_desc (filter p l) = filter p (order_by_date_desc l).
Proof.
  induction l as [|x l IH]; simpl; [reflexivity|].
  rewrite (filter_insert_desc p x _ (order_by_date_desc_sorted l)).
  destruct (p x); simpl; now rewrite IH.
Qed.

Lemma filter_without l :
  NoDup (List.map id l) ->
  forall i r, nth_error l i = Some r ->
  filter (fun x => negb (id x =? id r)) l = without i l.
Proof.
  unfold without.
  induction l as [|x l IH]; intros N [|i] r E; try discriminate; simpl in *.
  - injection E as ->. rewrite Z.eqb_refl. simpl.
    inversion N as [|? ? Hx _]; subst. apply filter_all.
    apply Forall_forall. intros y Hy.
    apply negb_true_iff, Z.eqb_neq. intros Q. apply Hx.
    rewrite <- Q. now apply in_map.
  - inversion N as [|? ? Hx N']; subst.
    rewrite (IH N' i r E).
    destruct (id x =? id r) eqn:Q; [|reflexivity].
    apply Z.eqb_eq in Q. exfalso. apply Hx. rewrite Q.
    apply in_map. now apply nth_error_In with i.
Qed.

Lemma table_keys_NoDup st :
  well_formed st -> NoDup (List.map id (listAll st)).
Proof.
  intros [K _ _].
  apply (Permutation_NoDup (l := List.map id (rows st))).
  - apply Permutation_map, order_by_date_desc_perm.
  - now apply KeyFacts.sorted_keys_NoDup.
Qed.

Lemma delete_expense_selected w i r :
  well_formed (db w) -> in_sync w -> nth_error (table w) i = Some r ->
  exists w',
    delete_expense (Some i) true w = (Done, w')
    /\ table w' = without i (table w)
    /\ in_sync w'
    /\ (forall x, In x (rows (db w')) <-> In x (rows (db w)) /\ x <> r)
    /\ executed w'
       = executed w ++ [SqlDelete (id r); SqlSelectAll; SqlSelectSum].
Proof.
  intros W [T S] E. unfold delete_expense. rewrite E. simpl.
  eexists. split; [reflexivity|]. simpl. split; [|split; [|split]].
  - rewrite T in E |- *.
    rewrite <- (filter_without _ (table_keys_NoDup _ W) i r E).
    apply order_by_date_desc_filter.
  - split; reflexivity.
  - intros x. rewrite filter_In, negb_true_iff, Z.eqb_neq.
    assert (R : In r (rows (db w))).
    { apply listAll_In. rewrite <- T. now apply nth_error_In with i. }
    split; intros [I Q]; split; auto.
    + intros ->. now apply Q.
    + intros Q'. apply Q. now apply (well_formed_key_unique (db w)).
  - now rewrite <- !app_assoc.
Qed.

End SessionFacts.

(* ================================================================== *)
(** * Facts about the window *)

Module GuiFacts.
Import Db App Session SessionFacts.

Lemma add_expense_app now g :
  fst (Gui.add_expense now g)
  = fst (App.add_expense (Gui.fields g) (Gui.state g))
  /\ Gui.state (snd (Gui.add_expense now g))
     = snd (App.add_expense (Gui.fields g) (Gui.state g)).
Proof.
  unfold Gui.add_expense, App.add_expense. cbv zeta.
  destruct (is_empty _); [now split|].
  destruct (is_empty _); [now split|].
  destruct (positive_amount _); [|now split].
  destruct (insert _ _ _ _ _) as [[k|e] d]; now split.
Qed.

Lemma strip_strip s : strip (strip s) = strip s.
Proof.
  destruct (strip_trimmed s) as [E|E]; [now rewrite E|].
  now apply strip_of_trimmed.
Qed.

(** [add_expense] does with a form what it does with the form as it reads
    it. *)
Lemma add_expense_as_read f w :
  App.add_expense (Gui.as_read f) w = App.add_expense f w.
Proof.
  unfold App.add_expense, Gui.as_read. simpl. now rewrite strip_strip.
Qed.

Lemma delete_expense_app c g :
  fst (Gui.delete_expense c g)
  = fst (App.delete_expense (Gui.selection g) c (Gui.state g))
  /\ Gui.state (snd (Gui.delete_expense c g))
     = snd (App.delete_expense (Gui.selection g) c (Gui.state g)).
Proof.
  unfold Gui.delete_expense, App.delete_expense.
  destruct (Gui.selection g) as [i|]; [|now split].
  destruct (nth_error _ i); [|now split].
  destruct c; now split.
Qed.


Lemma date_leb_refl d : Date.leb d d = true.
Proof.
  unfold Date.leb, Date.compare. now rewrite !N.compare_refl.
Qed.

Lemma date_leb_total a b : Date.leb a b = false -> Date.leb b a = true.
Proof.
  unfold Date.leb, Date.compare.
  rewrite (N.compare_antisym (Date.year a)), (N.compare_antisym (Date.month a)),
    (N.compare_antisym (Date.day a)).
  destruct (Date.year a ?= Date.year b)%N; simpl; try easy.
  destruct (Date.month a ?= Date.month b)%N; simpl; try easy.
  destruct (Date.day a ?= Date.day b)%N; simpl; easy.
Qed.

Lemma set_date_allowed maximum d old :
  Date.box_allows maximum maximum = true ->
  Date.box_allows maximum old = true ->
  Date.box_allows maximum (Gui.set_date maximum d old) = true.
Proof.
  intros M O. unfold Gui.set_date.
  destruct (Date.is_valid d) eqn:V; [|exact O].
  unfold Date.box_allows in *.
  apply andb_prop in M as [M Mx]. apply andb_prop in M as [Mv Mm].
  destruct (Date.leb d Date.minimum_date) eqn:L.
  - now rewrite Mm.
  - destruct (Date.leb d maximum) eqn:U.
    + now rewrite V, (date_leb_total _ _ L).
    + now rewrite Mv, Mm, Mx.
Qed.

Lemma window_well_formed_open today file :
  Date.box_allows today today = true -> Gui.well_formed (Gui.open today file).
Proof.
  intros T. split; simpl.
  - exact T.
  - unfold Gui.editable. simpl. now rewrite T.
  - discriminate.
  - apply in_sync_start.
Qed.

Lemma window_well_formed_clear now g :
  Gui.well_formed g -> Gui.well_formed (Gui.clear_inputs now g).
Proof.
  intros [R F S V]. split; simpl; auto.
  unfold Gui.editable in *. simpl.
  apply andb_prop in F as [F _]. apply andb_prop in F as [F _].
  now rewrite (set_date_allowed _ now _ R F).
Qed.

Lemma window_well_formed_add now g :
  Gui.well_formed g -> Gui.well_formed (snd (Gui.add_expense now g)).
Proof.
  intros W. pose proof (in_sync_step (Gui.state g) (Submit (Gui.fields g))
                          (Gui.wf_view g W)) as Y.
  simpl in Y. destruct (add_expense_app now g) as [_ A]. rewrite <- A in Y.
  revert Y. unfold Gui.add_expense. cbv zeta.
  destruct W as [R F S V].
  destruct (is_empty _); [intros _; now split|].
  destruct (is_empty _); [intros _; now split|].
  destruct (positive_amount _); [|intros _; now split].
  destruct (insert _ _ _ _ _) as [[k|e] d]; simpl; intros Y.
  - split; simpl; auto; [|discriminate].
    unfold Gui.editable in *. simpl.
    apply andb_prop in F as [F _]. apply andb_prop in F as [F _].
    now rewrite (set_date_allowed _ now _ R F).
  - split; simpl; auto.
Qed.

Lemma window_well_formed_delete c g :
  Gui.well_formed g -> Gui.well_formed (snd (Gui.delete_expense c g)).
Proof.
  intros W. unfold Gui.delete_expense.
  destruct (Gui.selection g) as [i|]; [|exact W].
  destruct (nth_error _ i); [|exact W].
  destruct c; [|exact W]. simpl.
  destruct W as [R F S V].
  split; simpl; auto; [discriminate|]. split; reflexivity.
Qed.

Lemma window_well_formed_step g ne :
  Gui.well_formed g -> Gui.well_formed (Gui.step g ne).
Proof.
  intros W. destruct ne as [now e]. destruct e as [f|[i|]| | |c|[|]]; simpl.
  - destruct (Gui.editable g f) eqn:E; [|exact W].
    destruct W as [R F S V]. split; simpl; auto.
  - destruct (Nat.ltb_spec i (List.length (table (Gui.state g)))); [|exact W].
    destruct W as [R F S V]. split; simpl; auto.
    intros j J. injection J as <-. assumption.
  - destruct W as [R F S V]. split; simpl; auto. discriminate.
  - now apply window_well_formed_add.
  - now apply window_well_formed_clear.
  - now apply window_well_formed_delete.
  - destruct (Validator.validate _); [exact W|exact W|].
    now apply window_well_formed_add.
  - now apply window_well_formed_add.
Qed.

Lemma window_well_formed_run es :
  forall g, Gui.well_formed g -> Gui.well_formed (Gui.run es g).
Proof.
  unfold Gui.run. induction es as [|e es IH]; intros g W; [exact W|].
  simpl. now apply IH, window_well_formed_step.
Qed.

Lemma maximum_date_add now g :
  Gui.maximum_date (snd (Gui.add_expense now g)) = Gui.maximum_date g.
Proof.
  unfold Gui.add_expense. cbv zeta.
  destruct (is_empty _); [reflexivity|].
  destruct (is_empty _); [reflexivity|].
  destruct (positive_amount _); [|reflexivity].
  now destruct (insert _ _ _ _ _) as [[k|e] d].
Qed.

Lemma maximum_date_step g ne :
  Gui.maximum_date (Gui.step g ne) = Gui.maximum_date g.
Proof.
  destruct ne as [now e]. destruct e as [f|[i|]| | |c|[|]]; simpl;
    try reflexivity; try apply maximum_date_add.
  - now destruct (Gui.editable g f).
  - now destruct (_ <? _)%nat.
  - unfold Gui.delete_expense.
    destruct (Gui.selection g) as [i|]; [|reflexivity].
    destruct (nth_error _ i); [|reflexivity]. now destruct c.
  - destruct (Validator.validate _); try reflexivity. apply maximum_date_add.
Qed.

(** One event of the window is at most one event of the slots. *)
Lemma step_simulation g ne :
  Gui.well_formed g ->
  exists es, Gui.state (Gui.step g ne) = App.run es (Gui.state g)
             /\ Forall (Gui.allowed (Gui.maximum_date g)) es.
Proof.
  intros W.
  assert (A : forall now,
             exists es, Gui.state (snd (Gui.add_expense now g))
                        = App.run es (Gui.state g)
                        /\ Forall (Gui.allowed (Gui.maximum_date g)) es).
  { intros now. exists [Submit (Gui.as_read (Gui.fields g))]. split.
    - destruct (add_expense_app now g) as [_ ->]. unfold App.run. simpl.
      now rewrite add_expense_as_read.
    - constructor; [|constructor]. simpl.
      pose proof (Gui.wf_fields g W) as F. unfold Gui.editable in F.
      apply andb_prop in F as [F _]. apply andb_prop in F as [D F].
      split; [exact D|]. now apply SlotFacts.field_strip. }
  assert (N : exists es, Gui.state g = App.run es (Gui.state g)
                         /\ Forall (Gui.allowed (Gui.maximum_date g)) es)
    by (exists []; split; [reflexivity|constructor]).
  destruct ne as [now e]. destruct e as [f|[i|]| | |c|[|]]; simpl; auto.
  - now destruct (Gui.editable g f).
  - now destruct (_ <? _)%nat.
  - exists [Remove (Gui.selection g) c]. split.
    + now destruct (delete_expense_app c g) as [_ ->].
    + constructor; [exact I|constructor].
  - destruct (Validator.validate _); auto.
Qed.

Lemma run_simulation es :
  forall g, Gui.well_formed g ->
  exists es', Gui.state (Gui.run es g) = App.run es' (Gui.state g)
              /\ Forall (Gui.allowed (Gui.maximum_date g)) es'.
Proof.
  unfold Gui.run. induction es as [|e es IH]; intros g W.
  - exists []. split; [reflexivity|constructor].
  - simpl. destruct (step_simulation g e W) as [e1 [E1 A1]].
    destruct (IH _ (window_well_formed_step g e W)) as [e2 [E2 A2]].
    exists (e1 ++ e2). split.
    + rewrite E2, E1. unfold App.run. now rewrite fold_left_app.
    + apply Forall_app. split; [exact A1|].
      now rewrite maximum_date_step in A2.
Qed.

(** The amount field never holds what its validator refuses. *)
Lemma amount_field_add now g :
  Validator.field_allows (amount_input (Gui.fields g)) = true ->
  Validator.field_allows
    (amount_input (Gui.fields (snd (Gui.add_expense now g)))) = true.
Proof.
  intros F. unfold Gui.add_expense. cbv zeta.
  destruct (is_empty _); [exact F|].
  destruct (is_empty _); [exact F|].
  destruct (positive_amount _); [|exact F].
  destruct (insert _ _ _ _ _) as [[k|e] d]; [reflexivity|exact F].
Qed.

Lemma amount_field_step g ne :
  Validator.field_allows (amount_input (Gui.fields g)) = true ->
  Validator.field_allows (amount_input (Gui.fields (Gui.step g ne))) = true.
Proof.
  intros F. destruct ne as [now e]. destruct e as [f|[i|]| | |c|[|]]; simpl;
    try exact F; try reflexivity; try (now apply amount_field_add).
  - destruct (Gui.editable g f) eqn:E; [|exact F]. simpl.
    unfold Gui.editable in E. apply andb_prop in E as [E _].
    now apply andb_prop in E.
  - now destruct (_ <? _)%nat.
  - unfold Gui.delete_expense.
    destruct (Gui.selection g) as [i|]; [|exact F].
    destruct (nth_error _ i); [|exact F]. now destruct c.
  - destruct (Validator.validate _); try exact F. now apply amount_field_add.
Qed.

Lemma amount_field_run es :
  forall g,
    Validator.field_allows (amount_input (Gui.fields g)) = true ->
    Validator.field_allows (amount_input (Gui.fields (Gui.run es g))) = true.
Proof.
  unfold Gui.run. induction es as [|e es IH]; intros g F; [exact F|].
  simpl. now apply IH, amount_field_step.
Qed.

(** A stored submission empties the line edits, a deletion the selection. *)
Lemma add_expense_twice now now' g :
  fst (Gui.add_expense now g) = Done ->
  Gui.add_expense now' (snd (Gui.add_expense now g))
  = (InputError "Please enter an amount.", snd (Gui.add_expense now g)).
Proof.
  unfold Gui.add_expense at 1 3 4. cbv zeta.
  destruct (is_empty _); [discriminate|].
  destruct (is_empty _); [discriminate|].
  destruct (positive_amount _); [|discriminate].
  destruct (insert _ _ _ _ _) as [[k|e] d]; [|discriminate].
  intros _. reflexivity.
Qed.

Lemma delete_expense_twice c g :
  fst (Gui.delete_expense true g) = Done ->
  Gui.delete_expense c (snd (Gui.delete_expense true g))
  = (DeleteError "Please select an expense to delete.",
     snd (Gui.delete_expense true g)).
Proof.
  unfold Gui.delete_expense at 1 3 4.
  destruct (Gui.selection g) as [i|]; [|discriminate].
  destruct (nth_error _ i); [|discriminate].
  intros _. reflexivity.
Qed.

End GuiFacts.

(* ================================================================== *)
(** * Facts about the origin of the rows *)

Module OriginFacts.
Import Db App Session SessionFacts DbFacts AppFacts SlotFacts Origin.

Lemma step_submit_rows f w :
  rows (db (step w (Submit f))) = rows (db w)
  \/ exists v,
       positive_amount (strip (amount_input f)) = Some v
       /\ rows (db (step w (Submit f)))
          = rows (db w)
            ++ [new_row (Date.to_string (date_box f))
                  (category_text (category_dropdown f)) v
                  (strip (description_input f)) (db w)].
Proof.
  simpl. destruct (add_expense_cases f w) as [[m E]|[[v [P [V [T E]]]]|[_ E]]].
  - left. now rewrite E.
  - right. exists v. split; [exact V|]. rewrite E. now apply added_rows.
  - left. now rewrite E.
Qed.

Lemma step_remove_rows i c w :
  exists p, rows (db (step w (Remove i c))) = filter p (rows (db w)).
Proof.
  simpl. unfold delete_expense.
  assert (N : exists p, rows (db w) = filter p (rows (db w))).
  { exists (fun _ => true). symmetry. apply filter_all.
    apply Forall_forall. reflexivity. }
  destruct i as [i|]; [|exact N].
  destruct (nth_error (table w) i) as [r|]; [|exact N].
  destruct c; [|exact N]. eexists. reflexivity.
Qed.

Section Allowed.

Variable A : App.event -> Prop.
Variable P : row -> Prop.
Hypothesis new_rows :
  forall f v st, A (Submit f) ->
    positive_amount (strip (amount_input f)) = Some v ->
    P (new_row (Date.to_string (date_box f))
         (category_text (category_dropdown f)) v
         (strip (description_input f)) st).

Lemma allowed_step_invariant w e :
  A e -> Forall P (rows (db w)) -> Forall P (rows (db (step w e))).
Proof.
  intros Ae H. destruct e as [f|i c].
  - destruct (step_submit_rows f w) as [->|[v [V ->]]]; [exact H|].
    apply Forall_app. split; [exact H|]. constructor; [auto|constructor].
  - destruct (step_remove_rows i c w) as [p ->]. now apply Forall_filter.
Qed.

Lemma allowed_run_invariant es :
  Forall A es ->
  forall w, Forall P (rows (db w)) -> Forall P (rows (db (App.run es w))).
Proof.
  unfold App.run. induction 1 as [|e es Ae _ IH]; intros w H; [exact H|].
  simpl. now apply IH, allowed_step_invariant.
Qed.

End Allowed.

Lemma category_text_listed c :
  In (category_text c) (List.map category_text categories).
Proof. apply in_map. destruct c; simpl; auto 8. Qed.

Lemma from_widgets_run today es w :
  Forall (Gui.allowed today) es ->
  Forall (from_widgets today) (rows (db w)) ->
  Forall (from_widgets today) (rows (db (App.run es w))).
Proof.
  intros A. apply (allowed_run_invariant (Gui.allowed today)); [|exact A].
  intros f v st [D F] V. split; [|split]; simpl.
  - now exists (date_box f).
  - apply category_text_listed.
  - exists (amount_input f). split; [exact F|].
    destruct (positive_amount_some _ _ V) as [O _].
    destruct (entry_allows_cases _ F) as [E|[E _]].
    + rewrite E in O. discriminate.
    + now rewrite (EntryFacts.entry_strip _ E) in O.
Qed.

(** The texts the amounts of such rows were typed as, row by row. *)
Lemma texts_of_rows today l :
  Forall (from_widgets today) l ->
  exists ts, Forall2 (fun r t => typed_as t (amount r)) l ts.
Proof.
  induction 1 as [|r l [_ [_ [t T]]] _ [ts F]].
  - exists []. constructor.
  - exists (t :: ts). now constructor.
Qed.

Lemma days_of_rows today l :
  Forall (from_widgets today) l ->
  exists qs, List.map date l = List.map Date.to_string qs
             /\ Forall (fun q => Date.box_allows today q = true) qs.
Proof.
  induction 1 as [|r l [[q [B E]] _] _ [qs [M F]]].
  - exists []. split; [reflexivity|constructor].
  - exists (q :: qs). simpl. rewrite E, M. split; [reflexivity|now constructor].
Qed.

Lemma days_sorted today qs :
  (Date.year today < 10000)%N ->
  Forall (fun q => Date.box_allows today q = true) qs ->
  forall l, List.map date l = List.map Date.to_string qs ->
  StronglySorted date_desc l -> StronglySorted latest_first qs.
Proof.
  intros Y. induction 1 as [|q qs B F IH]; intros [|r l] M S;
    try discriminate; [constructor|].
  simpl in M. injection M as Er M. inversion S as [|? ? S' Fr]; subst.
  constructor; [now apply (IH l)|].
  clear IH S S'. revert l M Fr.
  induction F as [|q' qs B' F IH]; intros [|r' l] M Fr; try discriminate;
    constructor.
  - simpl in M. injection M as Er' M. inversion Fr as [|? ? D _]; subst.
    unfold date_desc in D. rewrite Er, Er' in D. unfold latest_first.
    rewrite <- D. symmetry.
    apply DateFacts.to_string_leb; now apply (DateFacts.box_allows_fits today).
  - simpl in M. injection M as _ M. inversion Fr; subst. now apply (IH l).
Qed.

End OriginFacts.

(* ================================================================== *)
(** * Facts about rounding *)

Module RoundFacts.

Import Typed.

Lemma pow2_pos k : 0 <= k -> 0 < 2 ^ k.
Proof. intros H. now apply Z.pow_pos_nonneg. Qed.

Lemma pow2_le a b : 0 <= a <= b -> 2 ^ a <= 2 ^ b.
Proof. intros H. apply Z.pow_le_mono_r; lia. Qed.

Lemma pow2_lt a b : 0 <= a < b -> 2 ^ a < 2 ^ b.
Proof. intros H. apply Z.pow_lt_mono_r; lia. Qed.

(** The number of binary digits. *)
Lemma digits2_pos_size p : digits2_pos p = Pos.size p.
Proof. induction p as [p IH|p IH|]; simpl; now rewrite ?IH. Qed.

Lemma digits_nonneg m : 0 <= m -> 0 <= Zdigits2 m.
Proof. destruct m; simpl; lia. Qed.

Lemma digits_gt m : 0 <= m -> m < 2 ^ Zdigits2 m.
Proof.
  destruct m as [|p|p]; simpl; try lia. intros _.
  rewrite digits2_pos_size. pose proof (Pos.size_gt p) as H.
  apply Pos2Z.pos_lt_pos in H. now rewrite Pos2Z.inj_pow in H.
Qed.

Lemma digits_le m : 0 < m -> 2 ^ Zdigits2 m <= 2 * m.
Proof.
  destruct m as [|p|p]; simpl; try lia. intros _.
  rewrite digits2_pos_size. pose proof (Pos.size_le p) as H.
  apply Pos2Z.pos_le_pos in H. now rewrite Pos2Z.inj_pow in H.
Qed.

Lemma digits_upper m n : 0 <= n -> 0 <= m < 2 ^ n -> Zdigits2 m <= n.
Proof.
  intros N [L U]. destruct (Z.eq_dec m 0) as [->|Z]; [simpl; lia|].
  destruct (Z.le_gt_cases (Zdigits2 m) n) as [H|H]; [exact H|].
  pose proof (digits_le m ltac:(lia)) as D.
  pose proof (pow2_le (n + 1) (Zdigits2 m) ltac:(lia)) as P.
  rewrite Z.pow_add_r in P by lia. lia.
Qed.

Lemma digits_lower m n : 0 <= n -> 2 ^ n <= m -> n < Zdigits2 m.
Proof.
  intros N L. pose proof (pow2_pos n N) as P.
  pose proof (digits_gt m ltac:(lia)) as G.
  pose proof (digits_nonneg m ltac:(lia)) as D.
  destruct (Z.le_gt_cases (Zdigits2 m) n) as [H|H]; [|exact H].
  pose proof (pow2_le (Zdigits2 m) n ltac:(lia)). lia.
Qed.

(** Shifting to the right divides the mantissa. *)
Lemma shr_1_m mrs : 0 <= shr_m mrs -> shr_m (shr_1 mrs) = shr_m mrs / 2.
Proof.
  destruct mrs as [m r s]. destruct m as [|[p|p|]|p]; simpl; intros H;
    try lia; try reflexivity.
  - apply Z.div_unique with 1; lia.
  - apply Z.div_unique with 0; lia.
Qed.

Lemma shr_iter_m p :
  forall mrs, 0 <= shr_m mrs ->
  shr_m (SpecFloat.iter_pos shr_1 p mrs) = shr_m mrs / 2 ^ Z.pos p.
Proof.
  induction p as [p IH|p IH|]; intros mrs H; simpl SpecFloat.iter_pos.
  - pose proof (pow2_pos (Z.pos p) ltac:(lia)) as P.
    assert (H1 : 0 <= shr_m (shr_1 mrs))
      by (rewrite shr_1_m by exact H; apply Z.div_pos; lia).
    assert (H2 : 0 <= shr_m (SpecFloat.iter_pos shr_1 p (shr_1 mrs)))
      by (rewrite IH by exact H1; apply Z.div_pos; lia).
    rewrite IH, IH, shr_1_m by assumption.
    rewrite !Z.div_div by lia. f_equal.
    replace (Z.pos p~1) with (1 + Z.pos p + Z.pos p) by lia.
    rewrite !Z.pow_add_r by lia. change (2 ^ 1) with 2. lia.
  - pose proof (pow2_pos (Z.pos p) ltac:(lia)) as P.
    assert (H2 : 0 <= shr_m (SpecFloat.iter_pos shr_1 p mrs))
      by (rewrite IH by exact H; apply Z.div_pos; lia).
    rewrite IH, IH by assumption.
    rewrite !Z.div_div by lia. f_equal.
    replace (Z.pos p~0) with (Z.pos p + Z.pos p) by lia.
    now rewrite Z.pow_add_r by lia.
  - now apply shr_1_m.
Qed.

Lemma places_nonneg m e : 0 <= places m e.
Proof. unfold places. apply Z.le_max_l. Qed.

Lemma shr_fexp_m m e l :
  0 <= m ->
  shr_m (fst (shr_fexp prec emax m e l)) = m / 2 ^ places m e
  /\ snd (shr_fexp prec emax m e l) = e + places m e.
Proof.
  intros H. unfold shr_fexp, shr, places.
  assert (M : shr_m (shr_record_of_loc m l) = m) by (now destruct l as [|[]]).
  destruct (fexp prec emax (Zdigits2 m + e) - e) as [|p|p] eqn:E; simpl.
  - rewrite M, Z.div_1_r. split; [reflexivity|lia].
  - rewrite shr_iter_m by (rewrite M; exact H). rewrite M.
    rewrite Z.max_r by lia. split; [reflexivity|lia].
  - rewrite M, Z.max_l by lia. simpl. rewrite Z.div_1_r.
    split; [reflexivity|lia].
Qed.

Lemma round_nearest_even_cases m l :
  round_nearest_even m l = m \/ round_nearest_even m l = m + 1.
Proof. destruct l as [|[]]; simpl; auto. destruct (Z.even m); auto. Qed.

(** What [binary_round_aux] computes, in terms of the mantissa alone. *)
Lemma round_aux_shape s mx ex lx :
  0 <= mx ->
  exists m2,
    (m2 = mx / 2 ^ places mx ex \/ m2 = mx / 2 ^ places mx ex + 1)
    /\ binary_round_aux prec emax s mx ex lx
       = match m2 / 2 ^ places m2 (ex + places mx ex) with
         | 0 => S754_zero s
         | Z.pos m =>
             if ex + places mx ex + places m2 (ex + places mx ex)
                <=? emax - prec
             then S754_finite s m
                    (ex + places mx ex + places m2 (ex + places mx ex))
             else S754_infinity s
         | Z.neg _ => S754_nan
         end.
Proof.
  intros H. unfold binary_round_aux.
  destruct (shr_fexp_m mx ex lx H) as [M1 E1].
  destruct (shr_fexp prec emax mx ex lx) as [mrs e1]. simpl in M1, E1.
  set (m2 := round_nearest_even (shr_m mrs) (loc_of_shr_record mrs)).
  assert (C : m2 = mx / 2 ^ places mx ex \/ m2 = mx / 2 ^ places mx ex + 1)
    by (rewrite <- M1; apply round_nearest_even_cases).
  assert (H2 : 0 <= m2).
  { pose proof (Z.div_pos mx (2 ^ places mx ex) H
                  (pow2_pos _ (places_nonneg mx ex))). lia. }
  destruct (shr_fexp_m m2 e1 loc_Exact H2) as [M2 E2].
  destruct (shr_fexp prec emax m2 e1 loc_Exact) as [mrs2 e2]. simpl in M2, E2.
  exists m2. split; [exact C|]. subst e1 e2. now rewrite M2.
Qed.


Lemma places_def m e :
  places m e = Z.max 0 (Z.max (Zdigits2 m - 53) (- 1074 - e)).
Proof. unfold places, fexp, SpecFloat.emin, prec, emax. lia. Qed.

Lemma div_pow2_bounds m k :
  0 <= k -> 2 ^ k * (m / 2 ^ k) <= m < 2 ^ k * (m / 2 ^ k + 1).
Proof.
  intros K. pose proof (pow2_pos k K) as P. split.
  - now apply Z.mul_div_le.
  - now apply Z.mul_succ_div_gt.
Qed.

Lemma div_pow2_lt m k n :
  0 <= m < 2 ^ n -> 0 <= k -> 0 <= n ->
  m / 2 ^ k < 2 ^ Z.max (n - k) 0.
Proof.
  intros [L U] K N. pose proof (pow2_pos k K) as P.
  destruct (Z.le_gt_cases k n) as [H|H].
  - rewrite Z.max_l by lia. apply Z.div_lt_upper_bound; [exact P|].
    rewrite <- Z.pow_add_r by lia. now replace (k + (n - k)) with n by lia.
  - rewrite Z.max_r by lia. rewrite Z.div_small; [reflexivity|].
    pose proof (pow2_le n k ltac:(lia)). lia.
Qed.

Lemma shift_keeps_positive m e :
  1 <= m -> - 1074 <= e -> 1 <= m / 2 ^ places m e.
Proof.
  intros M E. pose proof (places_nonneg m e) as K.
  apply Z.div_le_lower_bound; [now apply pow2_pos|]. rewrite Z.mul_1_r.
  rewrite places_def in *.
  destruct (Z.le_gt_cases (Zdigits2 m) 53) as [D|D].
  - rewrite !Z.max_l by lia. simpl. lia.
  - replace (Z.max 0 (Z.max (Zdigits2 m - 53) (- 1074 - e)))
      with (Zdigits2 m - 53) by lia.
    pose proof (digits_le m ltac:(lia)) as L.
    replace (Zdigits2 m) with ((Zdigits2 m - 53) + 53) in L at 1 by lia.
    rewrite Z.pow_add_r in L by lia.
    pose proof (pow2_pos (Zdigits2 m - 53) ltac:(lia)) as P.
    change (2 ^ 53) with 9007199254740992 in L. lia.
Qed.

(** The result of rounding the mantissa [mx] at the exponent [ex]: a
    mantissa [m] at an exponent raised by [k] places, no further from
    [mx] than one unit of the new exponent. *)
Lemma round_aux_spec s mx ex lx :
  0 <= mx ->
  exists m k,
    0 <= m /\ 0 <= k
    /\ mx + 1 - 2 ^ k <= m * 2 ^ k <= mx + 2 ^ k
    /\ - 1074 <= ex + k
    /\ (forall n, 0 <= n -> mx < 2 ^ n ->
                  ex + k <= Z.max ex (Z.max (ex + n - 52) (- 1074)))
    /\ (1 <= mx -> - 1074 <= ex -> 1 <= m)
    /\ binary_round_aux prec emax s mx ex lx
       = match m with
         | 0 => S754_zero s
         | Z.pos p =>
             if ex + k <=? emax - prec then S754_finite s p (ex + k)
             else S754_infinity s
         | Z.neg _ => S754_nan
         end.
Proof.
  intros H. destruct (round_aux_shape s mx ex lx H) as [m2 [C R]].
  set (k1 := places mx ex) in *. set (k2 := places m2 (ex + k1)) in *.
  pose proof (places_nonneg mx ex) as K1. fold k1 in K1.
  pose proof (places_nonneg m2 (ex + k1)) as K2. fold k2 in K2.
  pose proof (pow2_pos k1 K1) as P1. pose proof (pow2_pos k2 K2) as P2.
  pose proof (div_pow2_bounds mx k1 K1) as B1.
  pose proof (div_pow2_bounds m2 k2 K2) as B2.
  pose proof (Z.div_pos mx (2 ^ k1) H P1) as N1.
  assert (H2 : 0 <= m2) by lia.
  pose proof (Z.div_pos m2 (2 ^ k2) H2 P2) as N2.
  exists (m2 / 2 ^ k2), (k1 + k2).
  split; [exact N2|]. split; [lia|].
  rewrite Z.pow_add_r by lia. split; [nia|].
  assert (E1 : - 1074 <= ex + k1)
    by (unfold k1; rewrite places_def; lia).
  split; [lia|]. split; [|split].
  - intros n N U.
    pose proof (digits_upper mx n N (conj H U)) as D.
    pose proof (div_pow2_lt mx k1 n (conj H U) K1 N) as M1.
    assert (D2 : Zdigits2 m2 <= Z.max (n - k1) 0 + 1).
    { apply digits_upper; [lia|]. split; [exact H2|].
      rewrite Z.pow_add_r by lia. change (2 ^ 1) with 2.
      pose proof (pow2_pos (Z.max (n - k1) 0) ltac:(lia)). lia. }
    unfold k2. rewrite places_def. unfold k1 in *. rewrite places_def in *. lia.
  - intros M E.
    pose proof (shift_keeps_positive mx ex M E) as S1. fold k1 in S1.
    apply shift_keeps_positive; lia.
  - rewrite R. now rewrite Z.add_assoc.
Qed.


(** The quotient [SFdiv] rounds. *)
Lemma div_core_spec mx ex my ey :
  exists l,
    SFdiv_core_binary prec emax (Z.pos mx) ex (Z.pos my) ey
    = (Z.pos mx
         * 2 ^ (ex - ey
                - Z.min (fexp prec emax
                           (Zdigits2 (Z.pos mx) + ex
                            - (Zdigits2 (Z.pos my) + ey))) (ex - ey))
         / Z.pos my,
       Z.min (fexp prec emax
                (Zdigits2 (Z.pos mx) + ex - (Zdigits2 (Z.pos my) + ey)))
         (ex - ey),
       l).
Proof.
  unfold SFdiv_core_binary.
  set (e' := Z.min _ (ex - ey)). set (s := ex - ey - e').
  assert (S : 0 <= s) by (unfold s, e'; lia).
  set (m' := match s with Z.pos _ => Z.shiftl (Z.pos mx) s
                        | 0 => Z.pos mx | Z.neg _ => 0 end).
  assert (M : m' = Z.pos mx * 2 ^ s).
  { unfold m'. destruct s as [|p|p] eqn:E; [simpl; lia| |lia].
    apply Z.shiftl_mul_pow2. lia. }
  unfold Z.div. rewrite <- M.
  destruct (Z.div_eucl m' (Z.pos my)) as [q r]. eexists. reflexivity.
Qed.


Lemma fexp_def z : fexp prec emax z = Z.max (z - 53) (- 1074).
Proof. reflexivity. Qed.

(** [Float.div] on two positive integers rounds their quotient, taken
    with enough binary places to be at least one. *)
Lemma div_rounds mx my :
  Zdigits2 (Z.pos my) <= 1000 ->
  exists q e' l,
    Float.div (S754_finite false mx 0) (S754_finite false my 0)
    = binary_round_aux prec emax false q e' l
    /\ e' = Z.min (Z.max (Zdigits2 (Z.pos mx) - Zdigits2 (Z.pos my) - 53)
                     (- 1074)) 0
    /\ q = Z.pos mx * 2 ^ (- e') / Z.pos my
    /\ 1 <= q.
Proof.
  intros Dy. unfold Float.div, SFdiv.
  destruct (div_core_spec mx 0 my 0) as [l ->].
  rewrite fexp_def. rewrite !Z.add_0_r, !Z.sub_0_r.
  set (dx := Zdigits2 (Z.pos mx)) in *. set (dy := Zdigits2 (Z.pos my)) in *.
  set (e' := Z.min (Z.max (dx - dy - 53) (- 1074)) 0).
  replace (0 - e') with (- e') by lia.
  change (xorb false false) with false.
  exists (Z.pos mx * 2 ^ (- e') / Z.pos my), e', l.
  split; [reflexivity|]. split; [reflexivity|]. split; [reflexivity|].
  pose proof (digits_le (Z.pos mx) ltac:(lia)) as Lx. fold dx in Lx.
  pose proof (digits_gt (Z.pos my) ltac:(lia)) as Gy. fold dy in Gy.
  assert (Dx1 : 1 <= dx) by (unfold dx; simpl; lia).
  assert (Dy1 : 1 <= dy) by (unfold dy; simpl; lia).
  apply Z.div_le_lower_bound; [lia|]. rewrite Z.mul_1_r.
  destruct (Z.le_gt_cases (dx - dy - 53) 0) as [C|C].
  - assert (E : - e' = 53 + dy - dx) by (unfold e'; lia).
    rewrite E.
    assert (P : 2 ^ dx * 2 ^ (53 + dy - dx) = 2 ^ 53 * 2 ^ dy).
    { rewrite <- !Z.pow_add_r by lia. f_equal. lia. }
    change (2 ^ 53) with 9007199254740992 in P.
    pose proof (pow2_pos (53 + dy - dx) ltac:(lia)).
    pose proof (pow2_pos dy ltac:(lia)). nia.
  - assert (E : - e' = 0) by (unfold e'; lia). rewrite E, Z.mul_1_r.
    assert (P : 2 ^ dx = 2 ^ (dx - dy) * 2 ^ dy).
    { rewrite <- Z.pow_add_r by lia. f_equal. lia. }
    pose proof (pow2_le 1 (dx - dy) ltac:(lia)) as P1.
    change (2 ^ 1) with 2 in P1.
    pose proof (pow2_pos dy ltac:(lia)). nia.
Qed.

(** Such a quotient is never rounded to zero. *)
Lemma div_positive mx my :
  Zdigits2 (Z.pos my) <= 1000 ->
  Float.ltb zero (Float.div (S754_finite false mx 0) (S754_finite false my 0))
  = true.
Proof.
  intros Dy. destruct (div_rounds mx my Dy) as [q [e' [l [-> [E [_ Q]]]]]].
  destruct (round_aux_spec false q e' l ltac:(lia))
    as [m [k [M0 [K [_ [_ [_ [P ->]]]]]]]].
  specialize (P Q ltac:(lia)).
  destruct m as [|p|p]; [lia| |lia].
  now destruct (e' + k <=? emax - prec).
Qed.

(** When the quotient is below [2^b], the result is a number whose
    exponent is at most [b - 52], and it is off by no more than one unit
    of this exponent.  The numbers are scaled by [2^1074] and by the
    divisor. *)
Lemma div_near mx my b :
  0 <= b <= 1023 -> Zdigits2 (Z.pos my) <= 1000 ->
  Z.pos mx < 2 ^ b * Z.pos my ->
  exists m e,
    Float.div (S754_finite false mx 0) (S754_finite false my 0)
    = S754_finite false m e
    /\ - 1074 <= e <= b - 52
    /\ Z.abs (Z.pos my * (Z.pos m * 2 ^ (e + 1074)) - Z.pos mx * 2 ^ 1074)
       <= Z.pos my * 2 ^ (e + 1074).
Proof.
  intros B Dy U. destruct (div_rounds mx my Dy) as [q [e' [l [-> [E [Q Q0]]]]]].
  set (dx := Zdigits2 (Z.pos mx)) in *. set (dy := Zdigits2 (Z.pos my)) in *.
  pose proof (digits_gt (Z.pos my) ltac:(lia)) as Gy. fold dy in Gy.
  assert (Dy1 : 1 <= dy) by (unfold dy; simpl; lia).
  assert (S : 0 <= - e') by lia.
  pose proof (pow2_pos (- e') S) as Ps.
  assert (Dxy : dx <= b + dy).
  { apply digits_upper; [lia|]. split; [lia|].
    rewrite Z.pow_add_r by lia.
    pose proof (pow2_pos b ltac:(lia)). nia. }
  pose proof (Z.mul_div_le (Z.pos mx * 2 ^ (- e')) (Z.pos my) ltac:(lia)) as Q1.
  pose proof (Z.mul_succ_div_gt (Z.pos mx * 2 ^ (- e')) (Z.pos my)
                ltac:(lia)) as Q2.
  rewrite <- Q in Q1, Q2.
  destruct (round_aux_spec false q e' l ltac:(lia))
    as [m [k [M0 [K [[B1 B2] [E1 [E2 [P R]]]]]]]].
  specialize (P Q0 ltac:(lia)).
  assert (Qn : q < 2 ^ (b - e')).
  { rewrite Q. apply Z.div_lt_upper_bound; [lia|].
    replace (b - e') with (b + - e') by lia. rewrite Z.pow_add_r by lia.
    pose proof (pow2_pos b ltac:(lia)). nia. }
  specialize (E2 (b - e') ltac:(lia) Qn).
  assert (E3 : e' + k <= b - 52) by lia.
  rewrite R. destruct m as [|p|p]; [lia| |lia].
  assert (L : (e' + k <=? emax - prec) = true)
    by (apply Z.leb_le; unfold emax, prec; lia).
  rewrite L. exists p, (e' + k). split; [reflexivity|]. split; [lia|].
  pose proof (pow2_pos k K) as Pk.
  assert (T : 2 ^ 1074 = 2 ^ (- e') * 2 ^ (e' + 1074)).
  { rewrite <- Z.pow_add_r by lia. f_equal. lia. }
  assert (T2 : 2 ^ (e' + k + 1074) = 2 ^ k * 2 ^ (e' + 1074)).
  { rewrite <- Z.pow_add_r by lia. f_equal. lia. }
  pose proof (pow2_pos (e' + 1074) ltac:(lia)) as Pe.
  rewrite T, T2.
  set (u := 2 ^ (e' + 1074)) in *. set (a := 2 ^ k) in *.
  set (t := 2 ^ (- e')) in *.
  replace (Z.pos my * (Z.pos p * (a * u)) - Z.pos mx * (t * u))
    with ((Z.pos my * (Z.pos p * a) - Z.pos mx * t) * u) by ring.
  replace (Z.pos my * (a * u)) with (Z.pos my * a * u) by ring.
  rewrite Z.abs_mul, (Z.abs_eq u) by lia.
  apply Z.mul_le_mono_nonneg_r; [lia|].
  apply Z.abs_le. nia.
Qed.

End RoundFacts.

(* ================================================================== *)
(** * Facts about the amounts of entries *)

Module AmountFacts.
Import Validator ValidatorFacts EntryFacts RoundFacts Render Typed.

Lemma digits_value_zero ds :
  forall a, fold_left (fun a d => (10 * a + d)%N) ds a = 0%N
            <-> a = 0%N /\ Forall (fun d => d = 0%N) ds.
Proof.
  induction ds as [|d ds IH]; intros a; cbn [fold_left].
  - split; [intros ->; split; [reflexivity|constructor]|now intros [-> _]].
  - rewrite IH. split.
    + intros [H F]. assert (a = 0%N /\ d = 0%N) as [-> ->] by lia.
      split; [reflexivity|now constructor].
    + intros [-> F]. inversion F; subst. split; [reflexivity|assumption].
Qed.

(** What [parse_decimal] reads in a numeral without exponent. *)
Lemma parse_decimal_value ip fp rest s :
  take_digits s = (ip, rest) ->
  (rest = [] /\ fp = []
   \/ exists r, rest = 46%N :: r /\ take_digits r = (fp, [])) ->
  ip <> [] -> count ip + count fp <= max_digits ->
  parse_decimal s = Some (digits_value (ip ++ fp), - count fp).
Proof.
  intros T R N L. unfold parse_decimal. rewrite T.
  assert (C1 : (max_digits <? count (drop_zeros (ip ++ fp))) = false).
  { apply Z.ltb_ge. pose proof (count_drop_zeros (ip ++ fp)).
    rewrite count_app in *. lia. }
  assert (C2 : (max_digits <? count fp) = false).
  { apply Z.ltb_ge. unfold count in *. lia. }
  destruct R as [[-> ->]|[r [-> ->]]];
    (destruct ip as [|d ds]; [congruence|]);
    cbn [List.app]; cbn [List.app] in C1; rewrite C1, C2; reflexivity.
Qed.


Lemma digit_zero c : is_digit c = true -> ((c - 48)%N = 0%N <-> c = 48%N).
Proof.
  unfold is_digit, in_range. intros H. apply andb_prop in H as [L U].
  apply N.leb_le in L. lia.
Qed.

Lemma digits_zero l :
  Forall (fun c => is_digit c = true) l ->
  (Forall (fun d => d = 0%N) (List.map (fun c => (c - 48)%N) l)
   <-> forallb (fun c => (c =? 48)%N || (c =? 46)%N) l = true).
Proof.
  induction 1 as [|c l Hc _ IH]; simpl.
  - split; [reflexivity|constructor].
  - rewrite andb_true_iff, <- IH. pose proof (digit_zero c Hc) as Z.
    assert (D : (c =? 46)%N = false).
    { unfold is_digit, in_range in Hc. apply andb_prop in Hc as [L U].
      apply N.leb_le in L. apply N.eqb_neq. lia. }
    rewrite D, orb_false_r, N.eqb_eq. split.
    + intros F. inversion F; subst. split; [now apply Z|assumption].
    + intros [E F]. constructor; [now apply Z|assumption].
Qed.

(** [float] on an entry: the number its digits denote, with no more
    than two of them after the point. *)
Lemma entry_read s :
  entry s -> Z.of_nat (List.length s) <= max_digits ->
  exists m e,
    parse_decimal s = Some (m, e) /\ - 2 <= e <= 0
    /\ Float.of_text s = Some (of_decimal false m e)
    /\ (m = 0%N <-> names_zero s = true).
Proof.
  intros H L.
  assert (O : forall m e, parse_decimal s = Some (m, e) ->
                          Float.of_text s = Some (of_decimal false m e)).
  { intros m e P. unfold Float.of_text.
    rewrite (entry_to_ascii s H), (entry_strip_ascii s H),
      (entry_no_underscore s H).
    destruct (entry_head s H) as [c [t [E Hc]]].
    unfold from_string_inner. rewrite E in *.
    destruct (digit_not_inf_or_nan c t Hc) as [-> ->]. now rewrite P. }
  destruct H as [ip N H|ip fp N H1 H2 F].
  - assert (P : parse_decimal ip
                = Some (digits_value (List.map (fun c => (c - 48)%N) ip ++ []),
                        - count [])).
    { apply (parse_decimal_value _ [] []).
      - now apply take_digits_all.
      - now left.
      - destruct ip; [congruence|discriminate].
      - rewrite count_map. unfold count, max_digits, char in *.
        simpl List.length. lia. }
    eexists. eexists. split; [exact P|]. split; [unfold count; simpl; lia|].
    split; [now apply O|].
    rewrite app_nil_r. unfold digits_value. rewrite digits_value_zero.
    unfold names_zero. rewrite <- (digits_zero ip H). tauto.
  - assert (P : parse_decimal (ip ++ 46%N :: fp)
                = Some (digits_value (List.map (fun c => (c - 48)%N) ip
                                      ++ List.map (fun c => (c - 48)%N) fp),
                        - count (List.map (fun c => (c - 48)%N) fp))).
    { apply (parse_decimal_value _ _ (46%N :: fp)).
      - now apply take_digits_app.
      - right. exists fp. split; [reflexivity|now apply take_digits_all].
      - destruct ip; [congruence|discriminate].
      - rewrite !count_map. unfold count, max_digits, char in *.
        rewrite length_app in L. simpl List.length in L. lia. }
    eexists. eexists. split; [exact P|].
    split; [rewrite count_map; unfold count, char in *; lia|].
    split; [now apply O|].
    rewrite <- map_app. unfold digits_value. rewrite digits_value_zero.
    unfold names_zero. rewrite forallb_app. simpl.
    assert (Hf : Forall (fun c => is_digit c = true) (ip ++ fp))
      by (apply Forall_app; now split).
    rewrite (digits_zero _ Hf), forallb_app. tauto.
Qed.


(** The three divisors of an entry. *)
Lemma of_decimal_entry p e :
  - 2 <= e <= 0 ->
  exists d,
    (d = 1%positive /\ e = 0 \/ d = 10%positive /\ e = - 1
     \/ d = 100%positive /\ e = - 2)
    /\ of_decimal false (N.pos p) e
       = Float.div (S754_finite false p 0) (S754_finite false d 0).
Proof.
  intros E. assert (C : e = 0 \/ e = - 1 \/ e = - 2) by lia.
  unfold of_decimal.
  destruct C as [->|[->| ->]]; simpl Z.max; simpl Z.to_pos;
    rewrite Pos.mul_1_r; eexists; (split; [|reflexivity]); auto.
Qed.

Lemma of_decimal_positive p e :
  - 2 <= e <= 0 -> Float.ltb zero (of_decimal false (N.pos p) e) = true.
Proof.
  intros E. destruct (of_decimal_entry p e E) as [d [C ->]].
  apply div_positive. destruct C as [[-> _]|[[-> _]|[-> _]]]; simpl; lia.
Qed.

Lemma of_decimal_within m e b :
  - 2 <= e <= 0 -> 0 <= b <= 1023 ->
  Z.of_N (m * 10 ^ Z.to_N (e + 2)) < 100 * 2 ^ b ->
  within (b - 52) 100 (of_decimal false m e)
    (Z.of_N (m * 10 ^ Z.to_N (e + 2))).
Proof.
  intros E B U. destruct m as [|p].
  - split; [now left|]. cbn [of_decimal scaled]. rewrite N.mul_0_l.
    change (Z.of_N 0) with 0. rewrite Z.mul_0_r, Z.mul_0_l. simpl Z.abs.
    pose proof (pow2_pos (b - 52 + 1074) ltac:(lia)). lia.
  - destruct (of_decimal_entry p e E) as [d [C ->]].
    assert (D : Z.of_N (N.pos p * 10 ^ Z.to_N (e + 2)) * Z.pos d
                = 100 * Z.pos p /\ Zdigits2 (Z.pos d) <= 1000
                /\ Z.pos d * (100 / Z.pos d) = 100).
    { destruct C as [[-> ->]|[[-> ->]|[-> ->]]]; simpl Z.to_N;
        (split; [|split; [simpl; lia|reflexivity]]);
        rewrite N2Z.inj_mul; simpl; lia. }
    destruct D as [D1 [D2 D3]].
    set (c := Z.of_N (N.pos p * 10 ^ Z.to_N (e + 2))) in *.
    pose proof (pow2_pos b ltac:(lia)) as Pb.
    destruct (div_near p d b B D2 ltac:(nia)) as [m' [e' [-> [Ee N]]]].
    split; [right; exists m', e'; split; [reflexivity|lia]|].
    cbn [scaled].
    pose proof (pow2_pos (e' + 1074) ltac:(lia)) as Pe.
    pose proof (pow2_le (e' + 1074) (b - 52 + 1074) ltac:(lia)) as Le.
    set (x := Z.pos m' * 2 ^ (e' + 1074)) in *.
    set (u := 2 ^ (e' + 1074)) in *.
    apply Z.abs_le in N. apply Z.abs_le.
    assert (K : 1 <= 100 / Z.pos d) by nia.
    set (k := 100 / Z.pos d) in *. nia.
Qed.

(** Rounding to the nearest integer finds an integer that is near. *)
Lemma round_half_even_near n d c :
  0 < d -> 2 * Z.abs (n - c * d) < d -> round_half_even n d = c.
Proof.
  intros D N. unfold round_half_even.
  destruct (Z.le_gt_cases (c * d) n) as [H|H].
  - assert (Q : n / d = c)
      by (symmetry; apply Z.div_unique with (n - c * d); lia).
    assert (R : n mod d = n - c * d)
      by (symmetry; apply Z.mod_unique with c; lia).
    rewrite R, Q.
    destruct (Z.compare_spec (2 * (n - c * d)) d); try lia.
  - assert (Q : n / d = c - 1)
      by (symmetry; apply Z.div_unique with (n - (c - 1) * d); lia).
    assert (R : n mod d = n - (c - 1) * d)
      by (symmetry; apply Z.mod_unique with (c - 1); lia).
    rewrite R, Q.
    destruct (Z.compare_spec (2 * (n - (c - 1) * d)) d); try lia.
Qed.

(** A number close enough to [c] hundredths is shown as [c]
    hundredths. *)
Lemma format_within E t v c :
  within E t v c -> E <= - 1 -> 2 * t < 2 ^ (- E) -> 0 <= c ->
  format_2f v = decimal (Z.to_N c).
Proof.
  intros [S A] En T C.
  pose proof (pow2_pos (- E) ltac:(lia)) as Pw.
  pose proof (pow2_pos 1074 ltac:(lia)) as P0.
  destruct S as [->|[m [e [-> Ee]]]].
  - simpl in A. simpl. assert (c = 0); [|now subst c].
    apply Z.abs_le in A.
    destruct (Z.le_gt_cases 0 (E + 1074)) as [L|L].
    + assert (X : 2 ^ 1074 = 2 ^ (- E) * 2 ^ (E + 1074)).
      { rewrite <- Z.pow_add_r by lia. f_equal. lia. }
      pose proof (pow2_pos (E + 1074) L) as Pe. nia.
    + rewrite (Z.pow_neg_r 2 (E + 1074)) in A by lia. nia.
  - cbn [scaled] in A. cbn [format_2f sign List.app]. unfold hundredths.
    destruct e as [|q|q]; try lia.
    f_equal. f_equal.
    assert (X : 2 ^ 1074 = 2 ^ (- E) * 2 ^ (E + 1074)).
    { rewrite <- Z.pow_add_r by lia. f_equal. lia. }
    assert (Y : 2 ^ 1074 = 2 ^ Z.pos q * 2 ^ (Z.neg q + 1074)).
    { rewrite <- Z.pow_add_r by lia. f_equal. lia. }
    pose proof (pow2_pos (E + 1074) ltac:(lia)) as Pe.
    pose proof (pow2_pos (Z.neg q + 1074) ltac:(lia)) as Pq.
    pose proof (pow2_pos (Z.pos q) ltac:(lia)) as Pd.
    apply round_half_even_near; [exact Pd|].
    rewrite Y in A.
    set (u := 2 ^ (Z.neg q + 1074)) in *. set (d := 2 ^ Z.pos q) in *.
    set (U := 2 ^ (E + 1074)) in *. set (w := 2 ^ (- E)) in *.
    replace (100 * (Z.pos m * u) - c * (d * u))
      with ((100 * Z.pos m - c * d) * u) in A by ring.
    rewrite Z.abs_mul, (Z.abs_eq u) in A by lia.
    set (z := Z.abs (100 * Z.pos m - c * d)) in *.
    assert (A2 : 2 * z * u < d * u) by nia.
    nia.
Qed.

End AmountFacts.

(* ================================================================== *)
(** * Facts about sums of amounts *)

Module SumFacts.
Import Db RoundFacts Render Typed AmountFacts.

Lemma iter_xO m d : Z.pos (Pos.iter xO m d) = Z.pos m * 2 ^ Z.pos d.
Proof.
  induction d as [|d IH] using Pos.peano_ind.
  - simpl. lia.
  - rewrite Pos.iter_succ, Pos2Z.inj_succ, Z.pow_succ_r by lia.
    rewrite Pos2Z.inj_xO, IH. lia.
Qed.

(** [shl_align] lowers the exponent to [e'] when that is lower. *)
Lemma shl_align_spec m e e' :
  Z.pos (fst (shl_align m e e')) = Z.pos m * 2 ^ (e - Z.min e e')
  /\ snd (shl_align m e e') = Z.min e e'.
Proof.
  unfold shl_align. destruct (e' - e) as [|d|d] eqn:D; cbn [fst snd].
  - replace (Z.min e e') with e by lia. rewrite Z.sub_diag.
    change (2 ^ 0) with 1. rewrite Z.mul_1_r. now split.
  - replace (Z.min e e') with e by lia. rewrite Z.sub_diag.
    change (2 ^ 0) with 1. rewrite Z.mul_1_r. now split.
  - replace (Z.min e e') with e' by lia. rewrite iter_xO.
    split; [|reflexivity]. f_equal. f_equal. lia.
Qed.

Lemma pow2_nonneg k : 0 <= 2 ^ k.
Proof. apply Z.pow_nonneg. lia. Qed.

Lemma ulp_pos E : - 1074 <= E -> 0 < ulp E.
Proof. intros H. apply pow2_pos. lia. Qed.

Lemma ulp_top E : - 1074 <= E -> 2 ^ (E + 1126) = 2 ^ 52 * ulp E.
Proof.
  intros H. unfold ulp. rewrite <- Z.pow_add_r by lia. f_equal. lia.
Qed.

(** A mantissa at an exponent from [-1074] to [E] that stands for less
    than [2^(E+52)] is rounded to a number with such an exponent, which is
    off by no more than one unit of it.  The numbers are scaled. *)
Lemma round_near s mz ez E :
  - 1074 <= ez <= E -> E <= 971 ->
  Z.pos mz * 2 ^ (ez + 1074) < 2 ^ (E + 1126) ->
  exists m e,
    binary_round prec emax s mz ez = S754_finite s m e
    /\ - 1074 <= e <= E
    /\ Z.abs (Z.pos m * 2 ^ (e + 1074) - Z.pos mz * 2 ^ (ez + 1074))
       <= 2 ^ (e + 1074).
Proof.
  intros Ez Em U. unfold binary_round.
  set (f := fexp prec emax (Z.pos (digits2_pos mz) + ez)).
  destruct (shl_align_spec mz ez f) as [Az Ee].
  destruct (shl_align mz ez f) as [mz' ez']. cbn [fst snd] in Az, Ee.
  assert (F : - 1074 <= f) by (unfold f; rewrite fexp_def; lia).
  assert (Z1 : - 1074 <= ez' <= ez) by lia.
  assert (X : Z.pos mz * 2 ^ (ez + 1074) = Z.pos mz' * 2 ^ (ez' + 1074)).
  { rewrite Az, <- Ee, <- Z.mul_assoc, <- Z.pow_add_r by lia.
    do 2 f_equal. lia. }
  rewrite X in *.
  set (b := E + 52) in *.
  replace (E + 1126) with (b + 1074) in U by (unfold b; lia).
  pose proof (pow2_pos (ez' + 1074) ltac:(lia)) as Pz.
  assert (Bz : ez' < b) by (unfold b; lia).
  assert (N : Z.pos mz' < 2 ^ (b - ez')).
  { replace (b + 1074) with ((b - ez') + (ez' + 1074)) in U by lia.
    rewrite (Z.pow_add_r 2 (b - ez') (ez' + 1074)) in U by lia.
    now apply Z.mul_lt_mono_pos_r in U. }
  destruct (round_aux_spec s (Z.pos mz') ez' loc_Exact ltac:(lia))
    as [m [k [M0 [K [[B1 B2] [E1 [E2 [P R]]]]]]]].
  specialize (P ltac:(lia) ltac:(lia)).
  specialize (E2 (b - ez') ltac:(lia) N).
  rewrite R. destruct m as [|p|p]; [lia| |lia].
  assert (L : (ez' + k <=? emax - prec) = true)
    by (apply Z.leb_le; unfold emax, prec, b in *; lia).
  rewrite L. exists p, (ez' + k). split; [reflexivity|].
  split; [unfold b in *; lia|].
  replace (ez' + k + 1074) with (k + (ez' + 1074)) by lia.
  rewrite Z.pow_add_r by lia.
  pose proof (pow2_pos k K) as Pk.
  set (u := 2 ^ (ez' + 1074)) in *. set (t := 2 ^ k) in *.
  replace (Z.pos p * (t * u) - Z.pos mz' * u)
    with ((Z.pos p * t - Z.pos mz') * u) by ring.
  rewrite Z.abs_mul, (Z.abs_eq u) by lia.
  apply Z.mul_le_mono_nonneg_r; [lia|]. apply Z.abs_le. lia.
Qed.

(** The same for an integer of either sign. *)
Lemma normalize_near z ez E :
  - 1074 <= ez <= E -> E <= 971 ->
  Z.abs z * 2 ^ (ez + 1074) < 2 ^ (E + 1126) ->
  fits E (binary_normalize prec emax z ez false)
  /\ Z.abs (scaled (binary_normalize prec emax z ez false)
            - z * 2 ^ (ez + 1074)) <= ulp E
  /\ (0 <= z -> 0 <= scaled (binary_normalize prec emax z ez false)).
Proof.
  intros Ez Em U. pose proof (ulp_pos E ltac:(lia)) as Pu.
  destruct z as [|p|p]; cbn [binary_normalize].
  - split; [now left|]. cbn [scaled]. split; [simpl; lia|lia].
  - destruct (round_near false p ez E Ez Em U) as [m [e [-> [Ee N]]]].
    split; [right; exists false, m, e; now split|]. cbn [scaled].
    pose proof (pow2_le (e + 1074) (E + 1074) ltac:(lia)) as L.
    fold (ulp E) in L. split; lia.
  - destruct (round_near true p ez E Ez Em U) as [m [e [-> [Ee N]]]].
    split; [right; exists true, m, e; now split|]. cbn [scaled].
    pose proof (pow2_le (e + 1074) (E + 1074) ltac:(lia)) as L.
    fold (ulp E) in L. split; lia.
Qed.

(** Two numbers brought to their lower exponent. *)
Lemma scaled_aligned s m e e' :
  - 1074 <= e' <= e ->
  scaled (S754_finite s m e)
  = cond_Zopp s (Z.pos (fst (shl_align m e e'))) * 2 ^ (e' + 1074).
Proof.
  intros H. destruct (shl_align_spec m e e') as [A _].
  replace (Z.min e e') with e' in A by lia.
  assert (P : 2 ^ (e + 1074) = 2 ^ (e - e') * 2 ^ (e' + 1074))
    by (rewrite <- Z.pow_add_r by lia; f_equal; lia).
  cbn [scaled]. rewrite A, P. destruct s; cbn [cond_Zopp]; ring.
Qed.

(** [Float.add] and [Float.sub] on numbers with exponents of at most [E],
    when the result is below [2^(E+52)]: it is off by no more than one
    unit of [E], and it is not negative when the exact result is not. *)
Lemma add_fits E x y :
  fits E x -> fits E y -> E <= 971 ->
  Z.abs (scaled x + scaled y) < 2 ^ (E + 1126) ->
  fits E (Float.add x y)
  /\ Z.abs (scaled (Float.add x y) - (scaled x + scaled y)) <= ulp E
  /\ (0 <= scaled x + scaled y -> 0 <= scaled (Float.add x y)).
Proof.
  intros Fx Fy Em U.
  destruct Fx as [->|[sx [mx [ex [-> Ex]]]]];
    destruct Fy as [->|[sy [my [ey [-> Ey]]]]].
  - pose proof (pow2_nonneg (E + 1074)) as Pu. fold (ulp E) in Pu.
    split; [now left|].
    cbn [scaled Float.add SFadd zero Bool.eqb]. simpl. lia.
  - pose proof (ulp_pos E ltac:(lia)) as Pu.
    split; [right; exists sy, my, ey; now split|].
    cbn [Float.add SFadd zero]. rewrite Z.add_0_l, Z.sub_diag. simpl Z.abs.
    split; [lia|auto].
  - pose proof (ulp_pos E ltac:(lia)) as Pu.
    split; [right; exists sx, mx, ex; now split|].
    cbn [Float.add SFadd zero]. rewrite Z.add_0_r, Z.sub_diag. simpl Z.abs.
    split; [lia|auto].
  - unfold Float.add, SFadd. set (ez := Z.min ex ey).
    rewrite (scaled_aligned sx mx ex ez), (scaled_aligned sy my ey ez) in *
      by (unfold ez; lia).
    set (a := cond_Zopp sx (Z.pos (fst (shl_align mx ex ez)))) in *.
    set (c := cond_Zopp sy (Z.pos (fst (shl_align my ey ez)))) in *.
    pose proof (pow2_pos (ez + 1074) ltac:(unfold ez; lia)) as Pz.
    rewrite <- Z.mul_add_distr_r in *.
    rewrite Z.abs_mul, (Z.abs_eq (2 ^ (ez + 1074))) in U by lia.
    destruct (normalize_near (a + c) ez E ltac:(unfold ez; lia) Em U)
      as [F [N P]].
    split; [exact F|]. split; [exact N|].
    intros H. apply P. nia.
Qed.

Lemma sub_fits E x y :
  fits E x -> fits E y -> E <= 971 ->
  Z.abs (scaled x - scaled y) < 2 ^ (E + 1126) ->
  fits E (Float.sub x y)
  /\ Z.abs (scaled (Float.sub x y) - (scaled x - scaled y)) <= ulp E.
Proof.
  intros Fx Fy Em U.
  destruct Fx as [->|[sx [mx [ex [-> Ex]]]]];
    destruct Fy as [->|[sy [my [ey [-> Ey]]]]].
  - pose proof (pow2_nonneg (E + 1074)) as Pu. fold (ulp E) in Pu.
    split; [now left|].
    cbn [scaled Float.sub SFsub zero]. simpl. lia.
  - pose proof (ulp_pos E ltac:(lia)) as Pu.
    split; [right; exists (negb sy), my, ey; now split|].
    cbn [Float.sub SFsub zero scaled].
    destruct sy; cbn [negb]; lia.
  - pose proof (ulp_pos E ltac:(lia)) as Pu.
    split; [right; exists sx, mx, ex; now split|].
    cbn [Float.sub SFsub zero]. change (scaled (S754_zero false)) with 0.
    rewrite Z.sub_0_r, Z.sub_diag. simpl Z.abs. lia.
  - unfold Float.sub, SFsub. set (ez := Z.min ex ey).
    rewrite (scaled_aligned sx mx ex ez), (scaled_aligned sy my ey ez) in *
      by (unfold ez; lia).
    set (a := cond_Zopp sx (Z.pos (fst (shl_align mx ex ez)))) in *.
    set (c := cond_Zopp sy (Z.pos (fst (shl_align my ey ez)))) in *.
    pose proof (pow2_pos (ez + 1074) ltac:(unfold ez; lia)) as Pz.
    rewrite <- Z.mul_sub_distr_r in *.
    rewrite Z.abs_mul, (Z.abs_eq (2 ^ (ez + 1074))) in U by lia.
    destruct (normalize_near (a - c) ez E ltac:(unfold ez; lia) Em U)
      as [F [N _]].
    split; [exact F|exact N].
Qed.


(** One step of the summation: the running sum takes one rounding error
    more, the running sum and the error term together three. *)
Lemma kahan_step_tracks E j S p r :
  - 1074 <= E <= 971 -> 0 <= j -> 0 <= S ->
  tracks E j S p -> fits E r -> 0 <= scaled r ->
  S + scaled r + 4 * (j + 1) * ulp E < 2 ^ (E + 1126) ->
  tracks E (j + 1) (S + scaled r) (kahan_step p r).
Proof.
  intros Em J S0 [Fs [Fe [Ps [As Ae]]]] Fr Pr U.
  pose proof (ulp_pos E ltac:(lia)) as Pu.
  set (u := ulp E) in *. set (top := 2 ^ (E + 1126)) in *.
  assert (Ju : 0 <= j * u) by nia.
  unfold kahan_step, tracks. cbn [rSum rErr].
  set (s := rSum p) in *. set (t := Float.add s r).
  destruct (add_fits E s r Fs Fr ltac:(lia)) as [Ft [At Pt]];
    [fold top; lia|].
  fold t in Ft, At, Pt. fold u in At. specialize (Pt ltac:(lia)).
  assert (D : forall x y,
             fits E x -> fits E y -> 0 <= scaled x -> 0 <= scaled y ->
             scaled x + scaled y = scaled s + scaled r ->
             fits E (Float.add (Float.sub x t) y)
             /\ Z.abs (scaled (Float.add (Float.sub x t) y)
                       - (scaled s + scaled r - scaled t)) <= 2 * u).
  { intros x y Fx Fy Px Py Exy.
    destruct (sub_fits E x t Fx Ft ltac:(lia)) as [F1 A1];
      [fold top; lia|].
    fold u in A1.
    destruct (add_fits E (Float.sub x t) y F1 Fy ltac:(lia)) as [F2 [A2 _]];
      [fold top; lia|].
    fold u in A2. split; [exact F2|lia]. }
  set (d := if Float.ltb (Float.abs r) (Float.abs s)
            then Float.add (Float.sub s t) r
            else Float.add (Float.sub r t) s).
  assert (Fd : fits E d
               /\ Z.abs (scaled d - (scaled s + scaled r - scaled t))
                  <= 2 * u).
  { unfold d. destruct (Float.ltb (Float.abs r) (Float.abs s));
      apply D; auto; lia. }
  destruct Fd as [Fd Ad].
  destruct (add_fits E (rErr p) d Fe Fd ltac:(lia)) as [Fe' [Ae' _]];
    [fold top; lia|].
  fold u in Ae'.
  split; [exact Ft|]. split; [exact Fe'|]. split; [exact Pt|]. split; lia.
Qed.

Lemma scaled_sum_nonneg E vs :
  Forall (fun v => fits E v /\ 0 <= scaled v) vs -> 0 <= scaled_sum vs.
Proof.
  induction 1 as [|v vs [_ P] _ IH]; simpl; lia.
Qed.

Lemma fold_tracks E :
  - 1074 <= E <= 971 ->
  forall vs p j S,
    0 <= j -> 0 <= S -> tracks E j S p ->
    Forall (fun v => fits E v /\ 0 <= scaled v) vs ->
    S + scaled_sum vs + 4 * (j + Z.of_nat (List.length vs)) * ulp E
    < 2 ^ (E + 1126) ->
    tracks E (j + Z.of_nat (List.length vs)) (S + scaled_sum vs)
      (fold_left kahan_step vs p).
Proof.
  intros Em. pose proof (ulp_pos E ltac:(lia)) as Pu.
  induction vs as [|v vs IH]; intros p j S J S0 T F U.
  - cbn [fold_left scaled_sum fold_right List.length].
    change (Z.of_nat 0) with 0. now rewrite !Z.add_0_r.
  - inversion F as [|? ? [Fv Pv] F']; subst.
    pose proof (scaled_sum_nonneg E vs F') as Ps.
    cbn [fold_left scaled_sum fold_right List.length] in *.
    fold (scaled_sum vs) in *.
    rewrite Nat2Z.inj_succ in *.
    replace (j + Z.succ (Z.of_nat (List.length vs)))
      with (j + 1 + Z.of_nat (List.length vs)) in * by lia.
    replace (S + (scaled v + scaled_sum vs))
      with (S + scaled v + scaled_sum vs) in * by lia.
    apply IH; [lia|lia| |exact F'|exact U].
    apply kahan_step_tracks; auto. nia.
Qed.

(** The sum as SQLite works it out is within three units of [E] for each
    amount, and one more, of the sum of the amounts as real numbers. *)
Lemma float_sum_near E vs :
  - 1074 <= E <= 971 -> bounded E vs ->
  fits E (float_sum vs)
  /\ Z.abs (scaled (float_sum vs) - scaled_sum vs)
     <= (3 * Z.of_nat (List.length vs) + 1) * ulp E.
Proof.
  intros Em [F U]. pose proof (ulp_pos E ltac:(lia)) as Pu.
  pose proof (scaled_sum_nonneg E vs F) as Ps.
  assert (T0 : tracks E 0 0 {| rSum := zero; rErr := zero |}).
  { unfold tracks. cbn [rSum rErr scaled zero]. simpl.
    repeat split; try (now left); lia. }
  pose proof (fold_tracks E Em vs _ 0 0 ltac:(lia) ltac:(lia) T0 F) as T.
  rewrite !Z.add_0_l in T. specialize (T ltac:(lia)).
  unfold float_sum, sum_finalize.
  destruct T as [Fs [Fe [P [As Ae]]]].
  set (p := fold_left kahan_step vs {| rSum := zero; rErr := zero |}) in *.
  assert (O : is_overflow (rErr p) = false)
    by (destruct Fe as [->|[s [m [e [-> _]]]]]; reflexivity).
  rewrite O.
  set (n := Z.of_nat (List.length vs)) in *.
  assert (Nn : 0 <= n * ulp E) by (unfold n; nia).
  destruct (add_fits E (rSum p) (rErr p) Fs Fe ltac:(lia)) as [Fr [Ar _]];
    [lia|].
  split; [exact Fr|lia].
Qed.


(** The amount [float] reads in what [add_expense] finds in the amount
    field. *)
Lemma entry_within t v b :
  Validator.entry_allows t = true -> Float.of_text t = Some v ->
  0 <= b <= 1023 -> Z.of_N (in_hundredths t) < 100 * 2 ^ b ->
  within (b - 52) 100 v (Z.of_N (in_hundredths t))
  /\ (in_hundredths t = 0%N -> v = zero).
Proof.
  intros F V B U.
  destruct (SlotFacts.entry_allows_cases t F) as [->|[H L]];
    [discriminate|].
  assert (L' : Z.of_nat (List.length t) <= max_digits)
    by (unfold Validator.max_length, max_digits in *; lia).
  destruct (entry_read t H L') as [m [e [P [E [O _]]]]].
  rewrite O in V. injection V as <-.
  unfold in_hundredths in *. rewrite P in *.
  split; [now apply of_decimal_within|].
  intros Z. destruct m as [|p]; [reflexivity|].
  apply N.eq_mul_0 in Z as [Z|Z]; [discriminate|].
  apply N.pow_nonzero in Z; [contradiction|discriminate].
Qed.

Lemma amount_shown t v :
  Validator.entry_allows t = true -> Float.of_text t = Some v ->
  Z.of_N (in_hundredths t) < 10 ^ 15 ->
  amount_cell v = rupee :: decimal (in_hundredths t).
Proof.
  intros F V U. unfold amount_cell. f_equal.
  rewrite <- (N2Z.id (in_hundredths t)).
  apply (format_within (- 8) 100); [|lia|reflexivity|lia].
  apply (entry_within t v 44 F V); [lia|].
  change (100 * 2 ^ 44) with 1759218604441600.
  change (10 ^ 15) with 1000000000000000 in U. lia.
Qed.

Lemma total_sum ts :
  Z.of_N (total ts) = sum (List.map (fun t => Z.of_N (in_hundredths t)) ts).
Proof.
  induction ts as [|t ts IH]; [reflexivity|].
  cbn [total fold_right List.map sum] in *. rewrite N2Z.inj_add. now f_equal.
Qed.

Lemma in_hundredths_le_total t ts :
  In t ts -> (in_hundredths t <= total ts)%N.
Proof.
  induction ts as [|x ts IH]; simpl; [contradiction|].
  intros [->|H]; [lia|]. specialize (IH H). lia.
Qed.

(** Amounts that are each within a unit of [E] of their hundredths: their
    sum as real numbers is within a unit for each of the sum of the
    hundredths. *)
Lemma scaled_sum_within E vs cs :
  Forall2 (within E 100) vs cs ->
  Forall (fun v => fits E v /\ 0 <= scaled v) vs
  /\ Z.abs (100 * scaled_sum vs - sum cs * 2 ^ 1074)
     <= 100 * Z.of_nat (List.length vs) * ulp E.
Proof.
  induction 1 as [|v c vs cs [Sv Av] _ [F A]].
  - split; [constructor|]. simpl. lia.
  - pose proof (pow2_nonneg (E + 1074)) as Pu. fold (ulp E) in Pu, Av.
    split.
    + constructor; [|exact F].
      destruct Sv as [->|[m [e [-> Ee]]]].
      * split; [now left|simpl; lia].
      * split; [right; exists false, m, e; now split|]. cbn [scaled]. lia.
    + cbn [scaled_sum fold_right sum List.length]. fold (scaled_sum vs).
      fold (sum cs). rewrite Nat2Z.inj_succ. lia.
Qed.

Lemma float_sum_zeros vs :
  Forall (fun v => v = zero) vs -> float_sum vs = zero.
Proof.
  intros F. unfold float_sum.
  assert (K : fold_left kahan_step vs {| rSum := zero; rErr := zero |}
              = {| rSum := zero; rErr := zero |});
    [|now rewrite K].
  induction F as [|v vs E _ IH]; [reflexivity|]. subst v. exact IH.
Qed.

(** The sum of up to ten thousand amounts that are less than a hundred
    million in all. *)
Lemma total_within ts vs :
  Forall2 (fun t v => Validator.entry_allows t = true
                      /\ Float.of_text t = Some v) ts vs ->
  Z.of_nat (List.length ts) <= 10000 -> Z.of_N (total ts) < 10 ^ 10 ->
  within (- 25) (400 * Z.of_nat (List.length ts) + 100) (float_sum vs)
    (Z.of_N (total ts)).
Proof.
  intros F L U.
  assert (I : forall t, In t ts -> Z.of_N (in_hundredths t) < 10 ^ 10).
  { intros t H. pose proof (in_hundredths_le_total t ts H). lia. }
  assert (Ln : List.length vs = List.length ts)
    by (symmetry; apply (Forall2_length F)).
  rewrite total_sum in *.
  set (cs := List.map (fun t => Z.of_N (in_hundredths t)) ts) in *.
  assert (W : Forall2 (within (- 25) 100) vs cs
              /\ (sum cs = 0 -> Forall (fun v => v = zero) vs)
              /\ 0 <= sum cs).
  { clear U L Ln. subst cs.
    induction F as [|t v ts vs [Ft Vt] _ IH];
      [split; [constructor|split; [constructor|simpl; lia]]|].
    destruct IH as [IH1 [IH2 IH3]];
      [intros x Hx; apply I; now right|].
    specialize (I t (or_introl eq_refl)).
    change (10 ^ 10) with 10000000000 in I.
    destruct (entry_within t v 27 Ft Vt) as [E1 E2];
      [lia|change (100 * 2 ^ 27) with 13421772800; lia|].
    cbn [List.map sum fold_right].
    fold (sum (List.map (fun t => Z.of_N (in_hundredths t)) ts)).
    split; [now constructor|]. split; [|lia].
    intros Z. constructor; [apply E2; lia|apply IH2; lia]. }
  destruct W as [W [Z0 P]].
  destruct (scaled_sum_within (- 25) vs cs W) as [Fv A]. rewrite Ln in A.
  set (n := Z.of_nat (List.length ts)) in *.
  pose proof (ulp_pos (- 25) ltac:(lia)) as Pu.
  assert (T1 : 2 ^ 1074 = 33554432 * ulp (- 25))
    by (unfold ulp; change 33554432 with (2 ^ 25);
        rewrite <- Z.pow_add_r by lia; reflexivity).
  assert (T2 : 2 ^ (- 25 + 1126) = 4503599627370496 * ulp (- 25))
    by (rewrite ulp_top by lia; reflexivity).
  change (10 ^ 10) with 10000000000 in U.
  assert (Nn : 0 <= n) by (unfold n; lia).
  assert (B : bounded (- 25) vs).
  { split; [exact Fv|]. rewrite Ln. fold n. rewrite T2.
    rewrite T1 in A. set (u := ulp (- 25)) in *. nia. }
  destruct (float_sum_near (- 25) vs ltac:(lia) B) as [Fr Ar].
  rewrite Ln in Ar. fold n in Ar.
  assert (Q : Z.abs (100 * scaled (float_sum vs) - sum cs * 2 ^ 1074)
              <= (400 * n + 100) * 2 ^ (- 25 + 1074)).
  { fold (ulp (- 25)). set (u := ulp (- 25)) in *. lia. }
  split; [|exact Q].
  destruct Fr as [Fr|[s [m [e [Fr Ee]]]]]; [now left|right].
  destruct s; [exfalso|exists m, e; now split].
  assert (C0 : sum cs = 0).
  { rewrite Fr in Q. cbn [scaled] in Q. fold (ulp (- 25)) in Q.
    rewrite T1 in Q.
    pose proof (pow2_pos (e + 1074) ltac:(lia)) as Pe.
    set (u := ulp (- 25)) in *. nia. }
  rewrite (float_sum_zeros vs (Z0 C0)) in Fr. discriminate.
Qed.

Lemma within_or_zero E t v c :
  within E t v c -> App.or_zero (result_double v) = v.
Proof. intros [[->|[m [e [-> _]]]] _]; reflexivity. Qed.

Lemma total_shown ts vs :
  Forall2 (fun t v => Validator.entry_allows t = true
                      /\ Float.of_text t = Some v) ts vs ->
  Z.of_nat (List.length ts) <= 10000 -> Z.of_N (total ts) < 10 ^ 10 ->
  format_2f (App.or_zero (result_double (float_sum vs)))
  = decimal (total ts).
Proof.
  intros F L U. pose proof (total_within ts vs F L U) as W.
  rewrite (within_or_zero _ _ _ _ W).
  rewrite <- (N2Z.id (total ts)).
  apply (format_within _ _ _ _ W); [lia| |lia].
  change (2 ^ (- - 25)) with 33554432. lia.
Qed.

End SumFacts.

(* ================================================================== *)
(** * Facts about what the window shows of the amounts *)

Module ShownFacts.

Import Db App Validator DbFacts AppFacts SlotFacts EntryFacts AmountFacts.
Import SumFacts Render Typed.

(** The test of [add_expense] on what it finds in the amount field. *)
Lemma field_positive_amount s :
  entry_allows s = true -> s <> [] ->
  strip s = s
  /\ (names_zero s = true -> positive_amount s = None)
  /\ (names_zero s = false ->
      exists v, positive_amount s = Some v /\ Float.ltb zero v = true).
Proof.
  intros F N. destruct (entry_allows_cases s F) as [->|[H L]]; [congruence|].
  split; [now apply entry_strip|].
  assert (L' : Z.of_nat (List.length s) <= max_digits)
    by (unfold max_length, max_digits in *; lia).
  destruct (entry_read s H L') as [m [e [_ [E [O Z]]]]].
  unfold positive_amount. rewrite O. split.
  - intros Nz. apply Z in Nz. now subst m.
  - intros Nz. destruct m as [|p].
    + destruct Z as [Z _]. rewrite Z in Nz by reflexivity. discriminate.
    + pose proof (of_decimal_positive p e E) as P.
      rewrite (positive_not_leb_zero _ P). eexists.
      split; [reflexivity|exact P].
Qed.

Lemma add_expense_on_field f w :
  field_allows (amount_input f) = true ->
  fst (add_expense f w)
  = if is_empty (strip (amount_input f))
    then InputError "Please enter an amount."
    else if is_empty (strip (description_input f))
         then InputError "Please enter a description."
    else if names_zero (strip (amount_input f))
         then InputError "Amount must be a positive number."
    else Done.
Proof.
  intros F. destruct (field_strip _ F) as [A _].
  destruct (strip (amount_input f)) as [|a0 a1] eqn:S.
  { rewrite add_expense_no_amount; [reflexivity|exact S]. }
  rewrite <- S in *.
  assert (N : strip (amount_input f) <> []) by (rewrite S; discriminate).
  destruct (field_positive_amount _ A N) as [_ [Z P]].
  replace (is_empty (strip (amount_input f))) with false by (now rewrite S).
  destruct (strip (description_input f)) as [|d0 d1] eqn:D.
  { rewrite add_expense_no_description; [reflexivity|exact N|exact D]. }
  assert (D' : strip (description_input f) <> [])
    by (rewrite D; discriminate).
  cbn [is_empty]. destruct (names_zero (strip (amount_input f))) eqn:Nz.
  - rewrite add_expense_not_positive; auto.
  - destruct (P eq_refl) as [v [V Pv]].
    now rewrite (add_expense_positive f w v).
Qed.

Lemma amounts_of_rows (l : list row) ts :
  Forall2 (fun r t => Origin.typed_as t (amount r)) l ts ->
  Forall2 (fun t v => entry_allows t = true /\ Float.of_text t = Some v)
    ts (List.map amount l).
Proof. induction 1; simpl; constructor; auto. Qed.

Lemma total_label_of_rows st ts :
  Forall2 (fun r t => Origin.typed_as t (amount r)) (rows st) ts ->
  Z.of_nat (List.length ts) <= 10000 -> Z.of_N (total ts) < 10 ^ 10 ->
  total_label (sumAmount st)
  = of_string "Total: " ++ rupee :: decimal (total ts).
Proof.
  intros F L U. unfold total_label. f_equal. f_equal.
  rewrite sumAmount_or_zero. unfold select_sum.
  destruct (rows st) as [|r l] eqn:R.
  - inversion F; subst. reflexivity.
  - rewrite <- R in *. apply total_shown; auto. now apply amounts_of_rows.
Qed.

(** With amounts that fit, the total is the sum as SQLite works it out,
    and it is near the sum of the amounts as real numbers. *)
Lemma fits_or_zero E v : fits E v -> or_zero (result_double v) = v.
Proof. intros [->|[s [m [e [-> _]]]]]; reflexivity. Qed.

Lemma sumAmount_near E st :
  - 1074 <= E <= 971 -> bounded E (List.map amount (rows st)) ->
  sumAmount st = float_sum (List.map amount (rows st))
  /\ fits E (sumAmount st)
  /\ Z.abs (scaled (sumAmount st) - scaled_sum (List.map amount (rows st)))
     <= (3 * Z.of_nat (List.length (rows st)) + 1) * ulp E.
Proof.
  intros Em B. destruct (float_sum_near E _ Em B) as [F A].
  rewrite length_map in A.
  assert (S : sumAmount st = float_sum (List.map amount (rows st))).
  { rewrite sumAmount_or_zero. unfold select_sum.
    destruct (rows st) as [|r l] eqn:R; [reflexivity|].
    rewrite <- R in *. now apply (fits_or_zero E). }
  rewrite S. auto.
Qed.

Lemma scaled_sum_app l1 l2 :
  scaled_sum (l1 ++ l2) = scaled_sum l1 + scaled_sum l2.
Proof.
  induction l1 as [|x l1 IH]; simpl; [reflexivity|].
  fold (scaled_sum (l1 ++ l2)). fold (scaled_sum l1). lia.
Qed.

(** Amounts stay bounded when one of them is taken out. *)
Lemma bounded_without E l1 a l2 :
  - 1074 <= E -> bounded E (l1 ++ a :: l2) ->
  bounded E (l1 ++ l2)
  /\ 0 <= scaled a
  /\ scaled_sum (l1 ++ l2) = scaled_sum (l1 ++ a :: l2) - scaled a.
Proof.
  intros Em [F U]. pose proof (ulp_pos E Em) as Pu.
  apply Forall_app in F as [F1 F2]. inversion F2 as [|? ? [_ Pa] F2']; subst.
  rewrite !scaled_sum_app in *. rewrite !length_app in *.
  cbn [scaled_sum fold_right List.length] in *. fold (scaled_sum l2) in *.
  rewrite Nat2Z.inj_add, Nat2Z.inj_succ in U.
  split; [|split; [exact Pa|lia]].
  split; [apply Forall_app; now split|].
  rewrite scaled_sum_app, length_app, Nat2Z.inj_add. nia.
Qed.

Lemma total_app ts1 ts2 : total (ts1 ++ ts2) = (total ts1 + total ts2)%N.
Proof.
  induction ts1 as [|t ts1 IH]; simpl; [reflexivity|].
  fold (total (ts1 ++ ts2)). fold (total ts1). lia.
Qed.

(** The texts of the amounts when one row is taken out. *)
Lemma typed_without (l1 : list row) r l2 ts :
  Forall2 (fun r t => Origin.typed_as t (amount r)) (l1 ++ r :: l2) ts ->
  exists t ts',
    Origin.typed_as t (amount r)
    /\ Forall2 (fun r t => Origin.typed_as t (amount r)) (l1 ++ l2) ts'
    /\ total ts = (total ts' + in_hundredths t)%N
    /\ List.length ts = S (List.length ts').
Proof.
  intros F. apply Forall2_app_inv_l in F as [t1 [t2 [F1 [F2 ->]]]].
  inversion F2 as [|? t ? t2' T F2']; subst.
  exists t, (t1 ++ t2'). split; [exact T|].
  split; [now apply Forall2_app|].
  rewrite !total_app, !length_app. simpl. fold (total t2'). split; lia.
Qed.

End ShownFacts.

(* ================================================================== *)
(** * Facts about the id cell *)

Module CellFacts.

Import Render.

Lemma uint_text_inj u :
  forall u', uint_text u = uint_text u' -> u = u'.
Proof.
  induction u as [|u IH|u IH|u IH|u IH|u IH|u IH|u IH|u IH|u IH|u IH];
    intros [|u'|u'|u'|u'|u'|u'|u'|u'|u'|u'] E; simpl in E;
    try discriminate; try reflexivity;
    injection E as E; f_equal; now apply IH.
Qed.

Lemma uint_text_head u c s : uint_text u = c :: s -> c <> 45%N.
Proof.
  destruct u; simpl; intros E; try discriminate; injection E as <- _; lia.
Qed.

Lemma of_N_inj a b : of_N a = of_N b -> a = b.
Proof. intros E. now apply DecimalN.Unsigned.to_uint_inj, uint_text_inj. Qed.

(** [str] of an [int] tells the integers apart. *)
Lemma str_int_inj a b : str_int a = str_int b -> a = b.
Proof.
  assert (H : forall n s, of_N n <> 45%N :: s).
  { intros n s E. unfold of_N in E. apply uint_text_head in E. congruence. }
  destruct a as [|p|p]; destruct b as [|q|q]; simpl; intros E;
    try reflexivity;
    try (now apply H in E); try (symmetry in E; now apply H in E).
  - apply of_N_inj in E. discriminate.
  - apply of_N_inj in E. discriminate.
  - apply of_N_inj in E. congruence.
  - injection E as E. apply of_N_inj in E. congruence.
Qed.

End CellFacts.

(* ================================================================== *)
(** * The properties of the specification *)

Import Db DbFacts App AppFacts SlotFacts RowFacts Validator ValidatorFacts.

(** A lunch of 250.00 on 2024-01-05, the first record of the scenario of
    the specification. *)
Example lunch_amount_text :
  Float.of_text (of_string "250.00")
  = Some (S754_finite false 8796093022208000 (-45)).
Proof. vm_compute. reflexivity. Qed.

(** C1. Inserting a date, a category, a positive amount and a description
    succeeds, and listing the table afterwards yields a record with exactly
    these four values; its id differs from the id of every record that was
    in the table before.  This holds for whatever result the ordered query
    may return, and for any date, category and description, so for the
    valid ones in particular. *)
Theorem insert_then_listAll (st : store) (d c : text) (a : float) (s : text) :
  Float.ltb zero a = true ->
  exists k st',
    insert (Some d) (Some c) (Some a) (Some s) st = (Ok k, st')
    /\ In {| id := k; date := d; category := c; amount := a;
             description := s |} (listAll st')
    /\ (forall l, select_ordered st' l ->
          In {| id := k; date := d; category := c; amount := a;
                description := s |} l)
    /\ (forall r, In r (rows st) -> id r <> k)
    /\ (forall r, In r (listAll st) -> id r <> k).
Proof.
  intros P. exists (next_rowid st). eexists.
  split; [now apply insert_positive|].
  assert (I : In (new_row d c a s st)
                (rows {| rows := rows st ++ [new_row d c a s st];
                         seq := next_rowid st |}))
    by (simpl; apply in_or_app; right; now left).
  split; [now apply listAll_In|].
  split; [intros l L; now apply (select_ordered_In _ l _ L)|].
  assert (F : forall r, In r (rows st) -> id r <> next_rowid st)
    by (intros r H; apply next_rowid_fresh in H; lia).
  split; [exact F|].
  intros r H. apply listAll_In in H. now apply F.
Qed.

Lemma insert_then_listAll_witness :
  Float.ltb zero (S754_finite false 8796093022208000 (-45)) = true
  /\ exists k st',
       insert (Some (of_string "2024-01-05")) (Some (of_string "Food"))
         (Some (S754_finite false 8796093022208000 (-45)))
         (Some (of_string "Lunch")) empty = (Ok k, st')
       /\ In {| id := k; date := of_string "2024-01-05";
                category := of_string "Food";
                amount := S754_finite false 8796093022208000 (-45);
                description := of_string "Lunch" |} (listAll st')
       /\ (forall l, select_ordered st' l ->
             In {| id := k; date := of_string "2024-01-05";
                   category := of_string "Food";
                   amount := S754_finite false 8796093022208000 (-45);
                   description := of_string "Lunch" |} l)
       /\ (forall r, In r (rows empty) -> id r <> k)
       /\ (forall r, In r (listAll empty) -> id r <> k).
Proof.
  split; [reflexivity|].
  apply (insert_then_listAll empty (of_string "2024-01-05")
           (of_string "Food") (S754_finite false 8796093022208000 (-45))
           (of_string "Lunch")).
  reflexivity.
Defined.

(** C2. No record of the table ever has an amount that is not positive.
    The table refuses it: an insert whose amount is [<= 0] fails with an
    error of the store and changes nothing, so after any sequence of
    inserts and deletes, from the empty table or from one whose amounts are
    positive, every amount is positive.  The form refuses it as well: a
    text whose value is [<= 0] is answered with an input error and no
    statement runs. *)
Theorem amount_always_positive :
  (forall d c a s st,
     Float.leb a zero = true ->
     exists e, insert d c (Some a) s st = (Failed e, st))
  /\ (forall os,
        Forall (fun r => Float.ltb zero (amount r) = true)
          (rows (fst (Db.run os empty))))
  /\ (forall os st,
        Forall (fun r => Float.ltb zero (amount r) = true) (rows st) ->
        Forall (fun r => Float.ltb zero (amount r) = true)
          (rows (fst (Db.run os st))))
  /\ (forall es,
        Forall (fun r => Float.ltb zero (amount r) = true)
          (rows (db (App.run es (start None)))))
  /\ (forall f w v,
        Float.of_text (strip (amount_input f)) = Some v ->
        Float.leb v zero = true ->
        exists msg, add_expense f w = (InputError msg, w)).
Proof.
  assert (R : forall os st,
    Forall (fun r => Float.ltb zero (amount r) = true) (rows st) ->
    Forall (fun r => Float.ltb zero (amount r) = true)
      (rows (fst (Db.run os st)))).
  { intros os. apply run_rows_invariant. intros d c a s st H. exact H. }
  split; [intros d c a s st H; now apply insert_not_positive|].
  split; [intros os; apply R; constructor|].
  split; [exact R|].
  split.
  - intros es. apply app_run_rows_invariant; [|constructor].
    intros f v st H _. exact H.
  - intros f w v V L.
    destruct (add_expense_cases f w) as [E|[[v' [P [A _]]]|[E _]]];
      [exact E| |].
    + apply positive_amount_some in A as [A _].
      rewrite V in A. injection A as <-.
      rewrite (positive_not_leb_zero v P) in L. discriminate.
    + exfalso. unfold add_expense in E. cbv zeta in E.
      unfold positive_amount in E. rewrite V, L in E.
      destruct (is_empty (strip (amount_input f)));
        destruct (is_empty (strip (description_input f))); discriminate.
Qed.

Lemma amount_always_positive_witness :
  Float.leb zero zero = true
  /\ (exists e,
        insert (Some (of_string "2024-01-05")) (Some (of_string "Food"))
          (Some zero) (Some (of_string "Lunch")) empty = (Failed e, empty))
  /\ Float.of_text (strip (of_string "0.00")) = Some zero
  /\ exists msg,
       add_expense
         {| date_box := Date.minimum_date; category_dropdown := Food;
            amount_input := of_string "0.00";
            description_input := of_string "Lunch" |} (start None)
       = (InputError msg, start None).
Proof.
  split; [reflexivity|].
  split; [apply (proj1 amount_always_positive); reflexivity|].
  split; [vm_compute; reflexivity|].
  apply (proj2 (proj2 (proj2 (proj2 amount_always_positive)))
           {| date_box := Date.minimum_date; category_dropdown := Food;
              amount_input := of_string "0.00";
              description_input := of_string "Lunch" |} (start None) zero);
    vm_compute; reflexivity.
Defined.

(** C3. Whatever the table holds, the list that [listAll] returns has the
    rows of the table, each date at least as large as every date after it.
    The dates compare as texts; for the texts the date box produces this
    is the order of the calendar.  Rows of one date may come in either
    order: in any result of the ordered query two rows of one date can
    change places, and the table [two_tenths] has two such rows. *)
Theorem listAll_sorted_by_date_desc :
  (forall st,
     Permutation (rows st) (listAll st)
     /\ StronglySorted date_desc (listAll st)
     /\ StronglySorted
          (fun a b =>
             forall qa qb,
               Date.fits qa = true -> Date.fits qb = true ->
               date a = Date.to_string qa -> date b = Date.to_string qb ->
               Date.leb qb qa = true)
          (listAll st))
  /\ (forall st l, select_ordered st l -> StronglySorted date_desc l)
  /\ (forall st r1 r2 l1 l2 l3,
        date r1 = date r2 ->
        select_ordered st (l1 ++ r1 :: l2 ++ r2 :: l3) ->
        select_ordered st (l1 ++ r2 :: l2 ++ r1 :: l3))
  /\ exists st r1 r2,
       date r1 = date r2 /\ id r1 <> id r2
       /\ select_ordered st [r1; r2] /\ select_ordered st [r2; r1].
Proof.
  split; [|split; [|split]].
  - intros st. destruct (fetch_all_select st) as [Pm S].
    split; [exact Pm|]. split; [exact S|].
    apply (StronglySorted_weaken date_desc); [|exact S].
    intros a b H qa qb Fa Fb Ea Eb. unfold date_desc in H.
    rewrite Ea, Eb in H. now rewrite DateFacts.to_string_leb in H.
  - intros st l [_ S]. exact S.
  - intros st r1 r2 l1 l2 l3. apply select_ordered_swap.
  - exists two_tenths.
    exists {| id := 1; date := of_string "2024-01-05";
              category := of_string "Food";
              amount := S754_finite false 7205759403792794 (-56);
              description := of_string "Tea" |}.
    exists {| id := 2; date := of_string "2024-01-05";
              category := of_string "Food";
              amount := S754_finite false 7205759403792794 (-55);
              description := of_string "Bun" |}.
    split; [reflexivity|]. split; [discriminate|].
    assert (L : forall a b : row, date a = of_string "2024-01-05" ->
                  date b = of_string "2024-01-05" -> date_desc a b).
    { intros a b Ea Eb. unfold date_desc. rewrite Ea, Eb. reflexivity. }
    split; (split;
      [vm_compute; first [apply Permutation_refl|apply perm_swap]
      |repeat constructor; apply L; reflexivity]).
Qed.

Lemma listAll_sorted_by_date_desc_witness :
  select_ordered two_tenths (listAll two_tenths)
  /\ StronglySorted date_desc (listAll two_tenths).
Proof.
  split; [apply fetch_all_select|].
  apply (proj1 (proj2 listAll_sorted_by_date_desc) two_tenths).
  apply fetch_all_select.
Defined.

(** C4, the claim as it stands, at the tables [two_tenths] and
    [six_tenths], which the user reaches by entering 0.1 and 0.2 and then
    0.3.  The total of the first is 0.30000000000000004: it is not the
    number 0.3, and not the sum of the two amounts as real numbers.  The
    total of the second is 0.6: it is not the sum of the three amounts as
    real numbers either, and not what adding them one after the other in
    binary64 gives, 0.6000000000000001. *)
Lemma sumAmount_counterexample :
  List.map (fun r => Some (amount r)) (rows six_tenths)
  = [Float.of_text (of_string "0.1"); Float.of_text (of_string "0.2");
     Float.of_text (of_string "0.3")]
  /\ List.map amount (rows two_tenths)
     = firstn 2 (List.map amount (rows six_tenths))
  /\ sumAmount two_tenths = S754_finite false 5404319552844596 (-54)
  /\ Float.of_text (of_string "0.3")
     = Some (S754_finite false 5404319552844595 (-54))
  /\ Qeq_bool (exact_value (sumAmount two_tenths))
       (exact_sum (rows two_tenths)) = false
  /\ sumAmount six_tenths = S754_finite false 5404319552844595 (-53)
  /\ Qeq_bool (exact_value (sumAmount six_tenths))
       (exact_sum (rows six_tenths)) = false
  /\ fold_left Float.add (List.map amount (rows six_tenths)) zero
     = S754_finite false 5404319552844596 (-53).
Proof. repeat split; vm_compute; reflexivity. Qed.

(** C4, amended. The total of an empty table is [0].  The total of a
    table is the sum of the amounts of its rows as SQLite works it out in
    binary64, with its error term: for amounts with exponents of at most
    [E] that stay below [2^(E+52)] in all, it is within three units of [E]
    for each row, and one more, of the sum of the amounts as real numbers.
    Written with two decimals it is the sum of the amounts as they were
    typed, for up to ten thousand rows of less than a hundred million in
    all.  12.50, 7.25 and 100.00 inserted into the empty table give
    119.75. *)
Theorem sumAmount_is_sum :
  (forall st, rows st = [] -> sumAmount st = zero)
  /\ (forall st E,
        - 1074 <= E <= 971 -> Typed.bounded E (List.map amount (rows st)) ->
        sumAmount st = float_sum (List.map amount (rows st))
        /\ Typed.fits E (sumAmount st)
        /\ Z.abs (Typed.scaled (sumAmount st)
                  - Typed.scaled_sum (List.map amount (rows st)))
           <= (3 * Z.of_nat (List.length (rows st)) + 1) * Typed.ulp E)
  /\ (forall st ts,
        Forall2 (fun r t => Origin.typed_as t (amount r)) (rows st) ts ->
        Z.of_nat (List.length ts) <= 10000 ->
        Z.of_N (Typed.total ts) < 10 ^ 10 ->
        Render.format_2f (sumAmount st) = Render.decimal (Typed.total ts))
  /\ (forall d1 c1 s1 d2 c2 s2 d3 c3 s3,
        Some
          (sumAmount
             (fst (Db.run
                     [Insert (Some d1) (Some c1)
                        (Float.of_text (of_string "12.50")) (Some s1);
                      Insert (Some d2) (Some c2)
                        (Float.of_text (of_string "7.25")) (Some s2);
                      Insert (Some d3) (Some c3)
                        (Float.of_text (of_string "100.00")) (Some s3)]
                     empty)))
        = Float.of_text (of_string "119.75")).
Proof.
  split.
  { intros st E. rewrite sumAmount_or_zero. unfold select_sum. now rewrite E. }
  split; [intros st E; apply ShownFacts.sumAmount_near|]. split.
  - intros st ts F L U.
    pose proof (ShownFacts.total_label_of_rows st ts F L U) as T.
    unfold Render.total_label in T. apply app_inv_head in T. now injection T.
  - intros. vm_compute. reflexivity.
Qed.

Lemma sumAmount_is_sum_witness :
  rows empty = []
  /\ - 1074 <= - 52 <= 971
  /\ Typed.bounded (- 52) (List.map amount (rows six_tenths))
  /\ Forall2 (fun r t => Origin.typed_as t (amount r)) (rows six_tenths)
       [of_string "0.1"; of_string "0.2"; of_string "0.3"]
  /\ sumAmount empty = zero
  /\ (sumAmount six_tenths = float_sum (List.map amount (rows six_tenths))
      /\ Typed.fits (- 52) (sumAmount six_tenths)
      /\ Z.abs (Typed.scaled (sumAmount six_tenths)
                - Typed.scaled_sum (List.map amount (rows six_tenths)))
         <= (3 * Z.of_nat (List.length (rows six_tenths)) + 1)
            * Typed.ulp (- 52))
  /\ Render.format_2f (sumAmount six_tenths)
     = Render.decimal
         (Typed.total [of_string "0.1"; of_string "0.2"; of_string "0.3"]).
Proof.
  assert (B : Typed.bounded (- 52) (List.map amount (rows six_tenths))).
  { assert (R : List.map amount (rows six_tenths)
                = [S754_finite false 7205759403792794 (-56);
                   S754_finite false 7205759403792794 (-55);
                   S754_finite false 5404319552844595 (-54)])
      by (vm_compute; reflexivity).
    rewrite R. split; [|vm_compute; reflexivity].
    assert (F : forall m e,
               - 1074 <= e <= - 52 ->
               Typed.fits (- 52) (S754_finite false m e)
               /\ 0 <= Typed.scaled (S754_finite false m e)).
    { intros m e H. split; [right; exists false, m, e; now split|].
      cbn [Typed.scaled].
      apply Z.mul_nonneg_nonneg; [lia|apply Z.pow_nonneg; lia]. }
    repeat (constructor; [apply F; lia|]). constructor. }
  assert (T : Forall2 (fun r t => Origin.typed_as t (amount r))
                (rows six_tenths)
                [of_string "0.1"; of_string "0.2"; of_string "0.3"])
    by (repeat constructor; vm_compute; reflexivity).
  split; [reflexivity|]. split; [lia|]. split; [exact B|]. split; [exact T|].
  split; [apply (proj1 sumAmount_is_sum); reflexivity|]. split.
  - apply (proj1 (proj2 sumAmount_is_sum)); [lia|exact B].
  - apply (proj1 (proj2 (proj2 sumAmount_is_sum))); [exact T|simpl; lia|].
    vm_compute. reflexivity.
Defined.

(** C5. Deleting an id that no record of the table carries succeeds and
    leaves the table, and the key sequence with it, exactly as it was. *)
Theorem delete_absent_is_noop (st : store) (k : Z) :
  (forall r, In r (rows st) -> id r <> k) ->
  delete k st = (Ok tt, st)
  /\ listAll (snd (delete k st)) = listAll st
  /\ sumAmount (snd (delete k st)) = sumAmount st.
Proof.
  intros H. rewrite (delete_absent k st H). auto.
Qed.

Lemma delete_absent_is_noop_witness :
  List.map id (rows two_tenths) = [1; 2]
  /\ delete 7 two_tenths = (Ok tt, two_tenths)
  /\ listAll (snd (delete 7 two_tenths)) = listAll two_tenths
  /\ sumAmount (snd (delete 7 two_tenths)) = sumAmount two_tenths.
Proof.
  split; [reflexivity|].
  apply (delete_absent_is_noop two_tenths 7).
  intros r H. apply (in_map id) in H.
  change (List.map id (rows two_tenths)) with [1; 2] in H.
  destruct H as [<-|[<-|[]]]; discriminate.
Defined.

(** C6, the claim as it stands, at the table [two_tenths], which the
    user reaches by entering 0.1 and 0.2: deleting the record of 0.2, the
    second row shown, leaves a total of 0.1, while the total before,
    0.1 + 0.2 in binary64, less 0.2 is larger than that, both in binary64
    and as real numbers. *)
Lemma sum_after_delete_counterexample :
  well_formed two_tenths
  /\ total two_tenths_window = sumAmount two_tenths
  /\ total (step two_tenths_window (Remove (Some 1%nat) true))
     = sumAmount (snd (delete 2 two_tenths))
  /\ In {| id := 2; date := of_string "2024-01-05";
           category := of_string "Food";
           amount := S754_finite false 7205759403792794 (-55);
           description := of_string "Bun" |} (rows two_tenths)
  /\ Float.of_text (of_string "0.2")
     = Some (S754_finite false 7205759403792794 (-55))
  /\ sumAmount (snd (delete 2 two_tenths))
     <> Float.sub (sumAmount two_tenths)
          (S754_finite false 7205759403792794 (-55))
  /\ Float.eqb (sumAmount (snd (delete 2 two_tenths)))
       (Float.sub (sumAmount two_tenths)
          (S754_finite false 7205759403792794 (-55))) = false
  /\ Float.ltb (sumAmount (snd (delete 2 two_tenths)))
       (Float.sub (sumAmount two_tenths)
          (S754_finite false 7205759403792794 (-55))) = true
  /\ Qeq_bool (exact_value (sumAmount (snd (delete 2 two_tenths))))
       (exact_value (sumAmount two_tenths)
        - exact_value (S754_finite false 7205759403792794 (-55))) = false.
Proof.
  split; [exact well_formed_two_tenths|].
  split; [vm_compute; reflexivity|].
  split; [vm_compute; reflexivity|].
  split; [vm_compute; auto|].
  split; [vm_compute; reflexivity|].
  split; [vm_compute; discriminate|].
  repeat split; vm_compute; reflexivity.
Qed.

(** C6, amended. In a table whose keys are distinct, deleting the id of a
    row removes that row and leaves the others as they were, in their
    order.  The sum of the amounts as real numbers goes down by the amount
    of the row.  The total follows within rounding: for amounts with
    exponents of at most [E] that stay below [2^(E+52)] in all, the total
    after the delete is within six units of [E] for each row, less one, of
    the total before less the amount.  Written with two decimals, for up
    to ten thousand rows of less than a hundred million in all, the total
    before is the sum of the amounts as they were typed and the total after
    is that sum without the amount of the row. *)
Theorem delete_removes_exactly (st : store) (r : row) :
  well_formed st -> In r (rows st) ->
  exists l1 l2,
    rows st = l1 ++ r :: l2
    /\ delete (id r) st = (Ok tt, {| rows := l1 ++ l2; seq := seq st |})
    /\ (forall r', In r' (listAll (snd (delete (id r) st)))
                   <-> In r' (listAll st) /\ r' <> r)
    /\ (exact_sum (l1 ++ l2) == exact_sum (rows st) - exact_value (amount r))%Q
    /\ (forall E,
          - 1074 <= E <= 971 ->
          Typed.bounded E (List.map amount (rows st)) ->
          Z.abs (Typed.scaled (sumAmount (snd (delete (id r) st)))
                 - (Typed.scaled (sumAmount st) - Typed.scaled (amount r)))
          <= (6 * Z.of_nat (List.length (rows st)) - 1) * Typed.ulp E)
    /\ (forall ts,
          Forall2 (fun x t => Origin.typed_as t (amount x)) (rows st) ts ->
          Z.of_nat (List.length ts) <= 10000 ->
          Z.of_N (Typed.total ts) < 10 ^ 10 ->
          exists t ts',
            Origin.typed_as t (amount r)
            /\ Forall2 (fun x t => Origin.typed_as t (amount x)) (l1 ++ l2) ts'
            /\ Typed.total ts = (Typed.total ts' + Typed.in_hundredths t)%N
            /\ Render.format_2f (sumAmount st) = Render.decimal (Typed.total ts)
            /\ Render.format_2f (sumAmount (snd (delete (id r) st)))
               = Render.decimal (Typed.total ts')).
Proof.
  intros W H.
  destruct (filter_key_split (rows st) r (wf_keys st W) H) as [l1 [l2 [E F]]].
  exists l1, l2. split; [exact E|].
  assert (D : delete (id r) st = (Ok tt, {| rows := l1 ++ l2; seq := seq st |}))
    by (unfold delete; now rewrite F).
  split; [exact D|]. split; [|split; [|split]].
  - intros r'. rewrite !listAll_In, delete_rows. split.
    + intros [I N]. split; [exact I|]. intros ->. now apply N.
    + intros [I N]. split; [exact I|]. intros K. apply N.
      now apply (well_formed_key_unique st).
  - rewrite E, !exact_sum_app. simpl. ring.
  - intros e Em B. rewrite D. cbn [snd].
    destruct (ShownFacts.sumAmount_near e st Em B) as [_ [_ A1]].
    rewrite E, map_app in B. cbn [List.map] in B.
    destruct (ShownFacts.bounded_without e _ _ _ ltac:(lia) B) as [B' [P S]].
    rewrite <- (map_app amount l1 l2) in B', S.
    destruct (ShownFacts.sumAmount_near e
                {| rows := l1 ++ l2; seq := seq st |} Em B') as [_ [_ A2]].
    cbn [rows] in A2. rewrite S in A2.
    rewrite E, map_app in A1. cbn [List.map] in A1.
    rewrite E, !length_app in *. cbn [List.length] in *.
    rewrite !Nat2Z.inj_add, ?Nat2Z.inj_succ in *.
    pose proof (SumFacts.ulp_pos e ltac:(lia)) as Pu. nia.
  - intros ts T L U. rewrite E in T.
    destruct (ShownFacts.typed_without l1 r l2 ts T)
      as [t [ts' [Tr [T' [S N]]]]].
    exists t, ts'. split; [exact Tr|]. split; [exact T'|]. split; [exact S|].
    rewrite <- E in T.
    pose proof (ShownFacts.total_label_of_rows st ts T L U) as A1.
    pose proof (ShownFacts.total_label_of_rows
                  {| rows := l1 ++ l2; seq := seq st |} ts' T'
                  ltac:(lia) ltac:(lia)) as A2.
    unfold Render.total_label in A1, A2.
    apply app_inv_head in A1, A2. rewrite D. cbn [snd].
    split; [now injection A1|now injection A2].
Qed.

Lemma delete_removes_exactly_witness :
  well_formed ten_tenths
  /\ In nut (rows ten_tenths)
  /\ exists l1 l2,
       rows ten_tenths = l1 ++ nut :: l2
       /\ delete (id nut) ten_tenths
          = (Ok tt, {| rows := l1 ++ l2; seq := seq ten_tenths |})
       /\ (forall r', In r' (listAll (snd (delete (id nut) ten_tenths)))
                      <-> In r' (listAll ten_tenths) /\ r' <> nut)
       /\ (exact_sum (l1 ++ l2)
           == exact_sum (rows ten_tenths) - exact_value (amount nut))%Q
       /\ (forall E,
             - 1074 <= E <= 971 ->
             Typed.bounded E (List.map amount (rows ten_tenths)) ->
             Z.abs (Typed.scaled (sumAmount (snd (delete (id nut) ten_tenths)))
                    - (Typed.scaled (sumAmount ten_tenths)
                       - Typed.scaled (amount nut)))
             <= (6 * Z.of_nat (List.length (rows ten_tenths)) - 1)
                * Typed.ulp E)
       /\ (forall ts,
             Forall2 (fun x t => Origin.typed_as t (amount x))
               (rows ten_tenths) ts ->
             Z.of_nat (List.length ts) <= 10000 ->
             Z.of_N (Typed.total ts) < 10 ^ 10 ->
             exists t ts',
               Origin.typed_as t (amount nut)
               /\ Forall2 (fun x t => Origin.typed_as t (amount x))
                    (l1 ++ l2) ts'
               /\ Typed.total ts
                  = (Typed.total ts' + Typed.in_hundredths t)%N
               /\ Render.format_2f (sumAmount ten_tenths)
                  = Render.decimal (Typed.total ts)
               /\ Render.format_2f
                    (sumAmount (snd (delete (id nut) ten_tenths)))
                  = Render.decimal (Typed.total ts')).
Proof.
  assert (W : well_formed ten_tenths)
    by (do 2 apply well_formed_app_run; exact well_formed_empty).
  split; [exact W|].
  split; [vm_compute; auto|].
  apply (delete_removes_exactly ten_tenths nut); [exact W|vm_compute; auto].
Defined.

(** The totals of these tables: 0.1, 0.2, 0.3 and 0.4 give 1.0; without
    the last row, and after the third entry, the total is 0.6; ten times
    0.1 give 1.0. *)
Example totals_of_tenths :
  sumAmount ten_tenths = S754_finite false 4503599627370496 (-52)
  /\ sumAmount (snd (delete (id nut) ten_tenths))
     = S754_finite false 5404319552844595 (-53)
  /\ sumAmount six_tenths = S754_finite false 5404319552844595 (-53)
  /\ Float.of_text (of_string "0.6")
     = Some (S754_finite false 5404319552844595 (-53))
  /\ float_sum (repeat (S754_finite false 7205759403792794 (-56)) 10)
     = S754_finite false 4503599627370496 (-52)
  /\ Float.of_text (of_string "1.0")
     = Some (S754_finite false 4503599627370496 (-52)).
Proof. repeat split; vm_compute; reflexivity. Qed.

(** C7. Whatever the fields hold, an input error means that no statement
    has run and nothing has changed.  A form whose amount field holds what
    its validator lets it hold is tested against the rules of the
    specification in their order: the first rule that fails decides the
    message, and the window, with the list of statements run, stays as it
    was; when no rule fails the record is added.  The amount field of the
    window holds nothing else, however the window was used: so on every
    click on Add, in every window that can be reached, the first rule that
    fails decides the message and the table stays as it was, and the
    expense is stored when none fails. *)
Theorem validation_order (f : form) (w : app) :
  (forall msg,
     fst (add_expense f w) = InputError msg -> snd (add_expense f w) = w)
  /\ (field_allows (amount_input f) = true ->
      match first_failing_rule f with
      | Some r => add_expense f w = (InputError (rule_message r), w)
      | None =>
          fst (add_expense f w) = Done
          /\ List.length (rows (db (snd (add_expense f w))))
             = S (List.length (rows (db w)))
      end)
  /\ (forall today file es now,
        field_allows
          (amount_input (Gui.fields (Gui.run es (Gui.open today file))))
        = true
        /\ match first_failing_rule
                  (Gui.fields (Gui.run es (Gui.open today file))) with
           | Some r =>
               fst (Gui.add_expense now (Gui.run es (Gui.open today file)))
               = InputError (rule_message r)
               /\ Gui.state
                    (snd (Gui.add_expense now
                            (Gui.run es (Gui.open today file))))
                  = Gui.state (Gui.run es (Gui.open today file))
           | None =>
               fst (Gui.add_expense now (Gui.run es (Gui.open today file)))
               = Done
           end).
Proof.
  assert (O : forall f w,
             field_allows (amount_input f) = true ->
             match first_failing_rule f with
             | Some r => add_expense f w = (InputError (rule_message r), w)
             | None =>
                 fst (add_expense f w) = Done
                 /\ List.length (rows (db (snd (add_expense f w))))
                    = S (List.length (rows (db w)))
             end).
  { clear f w. intros f w A.
    unfold first_failing_rule, find, rule_holds.
    destruct (field_read _ A) as [E|[Ne [E [B R]]]].
    - rewrite E. simpl. apply add_expense_no_amount. now rewrite E.
    - destruct (entry_positive_amount _ E B) as [_ [N [v [V Pv]]]].
      assert (Ne' : is_empty (amount_input f) = false)
        by (destruct (amount_input f); [congruence|reflexivity]).
      rewrite Ne'. simpl negb. cbv iota.
      destruct (strip (description_input f)) as [|d0 d1] eqn:Ed.
      + simpl. now apply add_expense_no_description.
      + simpl is_empty. simpl negb. cbv iota.
        assert (D' : strip (description_input f) <> [])
          by (rewrite Ed; discriminate).
        rewrite R, V.
        destruct (Float.ltb zero v) eqn:L; simpl negb; cbv iota.
        * rewrite (add_expense_positive f w v N D' Pv L).
          simpl fst. simpl snd. split; [reflexivity|].
          rewrite (added_rows f v w L), length_app. simpl. lia.
        * now apply add_expense_not_positive. }
  split; [intros msg; apply add_expense_input_error|].
  split; [apply O|].
  intros today file es now.
  set (g := Gui.run es (Gui.open today file)).
  assert (F : field_allows (amount_input (Gui.fields g)) = true)
    by (apply GuiFacts.amount_field_run; reflexivity).
  split; [exact F|].
  destruct (GuiFacts.add_expense_app now g) as [-> ->].
  specialize (O (Gui.fields g) (Gui.state g) F).
  destruct (first_failing_rule (Gui.fields g)) as [r|].
  - rewrite O. now split.
  - apply O.
Qed.

Lemma validation_order_witness :
  field_allows (of_string "0.00" ++ [line_feed]) = true
  /\ fst (add_expense
            {| date_box := Date.minimum_date; category_dropdown := Food;
               amount_input := of_string "0.00" ++ [line_feed];
               description_input := of_string "Lunch" |} (start None))
     = InputError "Amount must be a positive number."
  /\ snd (add_expense
            {| date_box := Date.minimum_date; category_dropdown := Food;
               amount_input := of_string "0.00" ++ [line_feed];
               description_input := of_string "Lunch" |} (start None))
     = start None
  /\ match first_failing_rule
             {| date_box := Date.minimum_date; category_dropdown := Food;
                amount_input := of_string "0.00" ++ [line_feed];
                description_input := of_string "Lunch" |} with
     | Some r =>
         add_expense
           {| date_box := Date.minimum_date; category_dropdown := Food;
              amount_input := of_string "0.00" ++ [line_feed];
              description_input := of_string "Lunch" |} (start None)
         = (InputError (rule_message r), start None)
     | None =>
         fst (add_expense
                {| date_box := Date.minimum_date; category_dropdown := Food;
                   amount_input := of_string "0.00" ++ [line_feed];
                   description_input := of_string "Lunch" |} (start None))
         = Done
         /\ List.length
              (rows (db (snd (add_expense
                                {| date_box := Date.minimum_date;
                                   category_dropdown := Food;
                                   amount_input :=
                                     of_string "0.00" ++ [line_feed];
                                   description_input := of_string "Lunch" |}
                                (start None)))))
            = S (List.length (rows (db (start None))))
     end.
Proof.
  split; [vm_compute; reflexivity|].
  split; [vm_compute; reflexivity|].
  split.
  - apply (proj1 (validation_order
                    {| date_box := Date.minimum_date; category_dropdown := Food;
                       amount_input := of_string "0.00" ++ [line_feed];
                       description_input := of_string "Lunch" |} (start None))
             "Amount must be a positive number."%string).
    vm_compute; reflexivity.
  - apply (proj2 (validation_order
                    {| date_box := Date.minimum_date; category_dropdown := Food;
                       amount_input := of_string "0.00" ++ [line_feed];
                       description_input := of_string "Lunch" |} (start None))).
    vm_compute; reflexivity.
Defined.

(** Outside the mask the tests of [add_expense] and the rules differ: a
    blank amount counts as missing, and [nan] passes for a positive number
    until the table refuses it. *)
Example blank_amount_outside_mask :
  field_allows (of_string " ") = false
  /\ first_failing_rule
       {| date_box := Date.minimum_date; category_dropdown := Food;
          amount_input := of_string " ";
          description_input := of_string "Lunch" |} = Some AmountPositive
  /\ fst (add_expense
            {| date_box := Date.minimum_date; category_dropdown := Food;
               amount_input := of_string " ";
               description_input := of_string "Lunch" |} (start None))
     = InputError "Please enter an amount.".
Proof. repeat split; vm_compute; reflexivity. Qed.

Example nan_outside_mask :
  field_allows (of_string "nan") = false
  /\ first_failing_rule
       {| date_box := Date.minimum_date; category_dropdown := Food;
          amount_input := of_string "nan";
          description_input := of_string "Lunch" |} = Some AmountPositive
  /\ fst (add_expense
            {| date_box := Date.minimum_date; category_dropdown := Food;
               amount_input := of_string "nan";
               description_input := of_string "Lunch" |} (start None))
     = DatabaseError (NotNullFailed ColAmount)
  /\ db (snd (add_expense
                {| date_box := Date.minimum_date; category_dropdown := Food;
                   amount_input := of_string "nan";
                   description_input := of_string "Lunch" |} (start None)))
     = empty.
Proof. repeat split; vm_compute; reflexivity. Qed.

(** C8. The test of the amount refuses [0], every text whose value is
    negative and every text that [float] does not read, and it lets
    [12.34] through as a positive number; a refused amount, when both
    fields are filled in, is answered with the message about positive
    numbers and nothing changes, while [12.34] is recorded.  What
    [add_expense] reads from the amount field has at most two characters
    after its point, all of them digits; the field itself holds these and
    at most one line feed after them. *)
Theorem amount_validation :
  positive_amount (of_string "0") = None
  /\ (forall t v,
        Float.of_text t = Some v -> Float.ltb v zero = true ->
        positive_amount t = None)
  /\ (forall t v,
        Float.of_text t = Some v -> Float.eqb v zero = true ->
        positive_amount t = None)
  /\ (forall t, Float.of_text t = None -> positive_amount t = None)
  /\ (exists v, positive_amount (of_string "12.34") = Some v
                /\ Float.ltb zero v = true)
  /\ (forall f w,
        strip (amount_input f) <> [] -> strip (description_input f) <> [] ->
        positive_amount (strip (amount_input f)) = None ->
        add_expense f w = (InputError "Amount must be a positive number.", w))
  /\ (forall f w,
        strip (amount_input f) = of_string "12.34" ->
        strip (description_input f) <> [] ->
        fst (add_expense f w) = Done)
  /\ (forall t,
        field_allows t = true ->
        (List.length (decimals (strip t)) <= 2)%nat
        /\ Forall (fun c => is_digit c = true) (decimals (strip t))
        /\ (decimals t = decimals (strip t)
            \/ decimals t = decimals (strip t) ++ [line_feed])).
Proof.
  split; [vm_compute; reflexivity|].
  split.
  { intros t v V L. apply positive_amount_none. right. exists v.
    split; [exact V|now apply negative_leb_zero]. }
  split.
  { intros t v V L. apply positive_amount_none. right. exists v.
    split; [exact V|now apply zero_leb_zero]. }
  split; [intros t V; apply positive_amount_none; now left|].
  assert (A : positive_amount (of_string "12.34")
              = Some (S754_finite false 6946802425218990 (-49)))
    by (vm_compute; reflexivity).
  split; [eexists; split; [exact A|reflexivity]|].
  split; [intros f w; apply add_expense_not_positive|].
  split.
  - intros f w E D.
    rewrite (add_expense_positive f w (S754_finite false 6946802425218990 (-49)));
      [reflexivity|rewrite E; discriminate|exact D|now rewrite E|reflexivity].
  - apply field_decimals.
Qed.

Lemma amount_validation_witness :
  Float.of_text (of_string "-5")
  = Some (S754_finite true 5629499534213120 (-50))
  /\ Float.ltb (S754_finite true 5629499534213120 (-50)) zero = true
  /\ positive_amount (of_string "-5") = None
  /\ Float.of_text (of_string "abc") = None
  /\ positive_amount (of_string "abc") = None
  /\ field_allows (of_string "1.23" ++ [line_feed]) = true
  /\ (List.length (decimals (strip (of_string "1.23" ++ [line_feed]))) <= 2)%nat
  /\ Forall (fun c => is_digit c = true)
       (decimals (strip (of_string "1.23" ++ [line_feed])))
  /\ (decimals (of_string "1.23" ++ [line_feed])
      = decimals (strip (of_string "1.23" ++ [line_feed]))
      \/ decimals (of_string "1.23" ++ [line_feed])
         = decimals (strip (of_string "1.23" ++ [line_feed])) ++ [line_feed]).
Proof.
  split; [vm_compute; reflexivity|]. split; [reflexivity|].
  split.
  { apply (proj1 (proj2 amount_validation) (of_string "-5")
             (S754_finite true 5629499534213120 (-50)));
      vm_compute; reflexivity. }
  split; [vm_compute; reflexivity|].
  split.
  { apply (proj1 (proj2 (proj2 (proj2 amount_validation))) (of_string "abc")).
    vm_compute; reflexivity. }
  split; [vm_compute; reflexivity|].
  apply (proj2 (proj2 (proj2 (proj2 (proj2 (proj2 (proj2 amount_validation))))))
           (of_string "1.23" ++ [line_feed])).
  vm_compute; reflexivity.
Defined.

(** C9. A description that [add_expense] stores is the text of the
    description field without the spaces at its ends.  So every stored
    description is [trimmed], that is, not empty and with no space at its
    start or end, after each single event and after any sequence of events
    on a new database. *)
Theorem stored_descriptions_trimmed :
  (forall f w w',
     add_expense f w = (Done, w') ->
     exists r,
       rows (db w') = rows (db w) ++ [r]
       /\ description r = strip (description_input f)
       /\ trimmed (description r) = true)
  /\ (forall w e,
        Forall (fun r => trimmed (description r) = true) (rows (db w)) ->
        Forall (fun r => trimmed (description r) = true)
          (rows (db (step w e))))
  /\ (forall es,
        Forall (fun r => trimmed (description r) = true)
          (rows (db (App.run es (start None)))))
  /\ (forall s,
        trimmed s = true ->
        s <> [] /\ strip s = s
        /\ forall c t, s = c :: t ->
             is_space c = false /\ is_space (last s c) = false).
Proof.
  split; [|split; [|split]].
  - intros f w w' E.
    destruct (add_expense_cases f w) as [[m K]|[[v [P [_ [T K]]]]|[K _]]];
      rewrite E in K; try discriminate.
    injection K as ->. eexists. split; [now apply added_rows|].
    split; [reflexivity|exact T].
  - intros w e. apply step_rows_invariant. intros f v _ T. exact T.
  - intros es. apply app_run_rows_invariant; [|constructor].
    intros f v st _ T. exact T.
  - exact trimmed_meaning.
Qed.

Lemma stored_descriptions_trimmed_witness :
  add_expense
    {| date_box := Date.minimum_date; category_dropdown := Food;
       amount_input := of_string "12.34";
       description_input := of_string "  Lunch " |} (start None)
  = (Done,
     added {| date_box := Date.minimum_date; category_dropdown := Food;
              amount_input := of_string "12.34";
              description_input := of_string "  Lunch " |}
       (S754_finite false 6946802425218990 (-49)) (start None))
  /\ strip (of_string "  Lunch ") = of_string "Lunch"
  /\ exists r,
       rows (db (added
                   {| date_box := Date.minimum_date; category_dropdown := Food;
                      amount_input := of_string "12.34";
                      description_input := of_string "  Lunch " |}
                   (S754_finite false 6946802425218990 (-49)) (start None)))
       = rows (db (start None)) ++ [r]
       /\ description r = strip (of_string "  Lunch ")
       /\ trimmed (description r) = true.
Proof.
  split; [vm_compute; reflexivity|].
  split; [vm_compute; reflexivity|].
  apply (proj1 stored_descriptions_trimmed
           {| date_box := Date.minimum_date; category_dropdown := Food;
              amount_input := of_string "12.34";
              description_input := of_string "  Lunch " |} (start None)).
  vm_compute; reflexivity.
Defined.

(** C10. Along any sequence of inserts and deletes on a table, each key
    that an insert assigns is larger than every key assigned before it
    and than every key the table held at the start; so no key is handed
    out twice, whether or not its record has been deleted meanwhile. *)
Theorem keys_never_reused (os : list op) (st : store) :
  well_formed st ->
  StronglySorted Z.lt (snd (Db.run os st))
  /\ Forall (fun k => seq st < k /\ forall r, In r (rows st) -> id r < k)
       (snd (Db.run os st))
  /\ NoDup (snd (Db.run os st)).
Proof.
  intros [_ Q _]. destruct (KeyFacts.run_keys os st) as [F S].
  split; [exact S|]. split; [|now apply KeyFacts.sorted_keys_NoDup].
  revert F. apply Forall_impl. intros k Hk. split; [exact Hk|].
  intros r Hr. rewrite Forall_forall in Q. specialize (Q r Hr). lia.
Qed.

Lemma keys_never_reused_witness :
  well_formed empty
  /\ StronglySorted Z.lt
       (snd (Db.run [Insert (Some (of_string "2024-01-05"))
                       (Some (of_string "Food"))
                       (Some (S754_finite false 8796093022208000 (-45)))
                       (Some (of_string "Lunch"));
                     Delete 1;
                     Insert (Some (of_string "2024-01-05"))
                       (Some (of_string "Food"))
                       (Some (S754_finite false 8796093022208000 (-45)))
                       (Some (of_string "Lunch"))] empty))
  /\ Forall (fun k => seq empty < k
                      /\ forall r, In r (rows empty) -> id r < k)
       (snd (Db.run [Insert (Some (of_string "2024-01-05"))
                       (Some (of_string "Food"))
                       (Some (S754_finite false 8796093022208000 (-45)))
                       (Some (of_string "Lunch"));
                     Delete 1;
                     Insert (Some (of_string "2024-01-05"))
                       (Some (of_string "Food"))
                       (Some (S754_finite false 8796093022208000 (-45)))
                       (Some (of_string "Lunch"))] empty))
  /\ NoDup
       (snd (Db.run [Insert (Some (of_string "2024-01-05"))
                       (Some (of_string "Food"))
                       (Some (S754_finite false 8796093022208000 (-45)))
                       (Some (of_string "Lunch"));
                     Delete 1;
                     Insert (Some (of_string "2024-01-05"))
                       (Some (of_string "Food"))
                       (Some (S754_finite false 8796093022208000 (-45)))
                       (Some (of_string "Lunch"))] empty)).
Proof.
  split; [exact well_formed_empty|].
  apply keys_never_reused. exact well_formed_empty.
Defined.

(** The key of a deleted record is not given to the next one. *)
Example key_not_reused_after_delete :
  snd (Db.run [Insert (Some (of_string "2024-01-05")) (Some (of_string "Food"))
                 (Some (S754_finite false 8796093022208000 (-45)))
                 (Some (of_string "Lunch"));
               Delete 1;
               Insert (Some (of_string "2024-01-01")) (Some (of_string "Bills"))
                 (Some (S754_finite false 8796093022208000 (-43)))
                 (Some (of_string "Rent"))] empty)
  = [1; 2].
Proof. reflexivity. Qed.

(* ================================================================== *)
(** * Further properties of the slots *)

(** A form that passes the tests of [add_expense] is recorded: the row
    with the text of the date, the text of the category, the value of the
    amount and the trimmed description is in the table shown afterwards,
    which is the list of all rows, beside the total of all amounts; the
    insert and the two queries are the statements that ran. *)
Theorem add_expense_records_form (f : form) (w : app) (v : float) :
  strip (amount_input f) <> [] -> strip (description_input f) <> [] ->
  Float.of_text (strip (amount_input f)) = Some v ->
  Float.ltb zero v = true ->
  exists w',
    add_expense f w = (Done, w')
    /\ In (new_row (Date.to_string (date_box f))
             (category_text (category_dropdown f)) v
             (strip (description_input f)) (db w)) (table w')
    /\ table w' = listAll (db w')
    /\ total w' = sumAmount (db w')
    /\ executed w'
       = executed w
         ++ [SqlInsert (Date.to_string (date_box f))
               (category_text (category_dropdown f)) v
               (strip (description_input f));
             SqlSelectAll; SqlSelectSum].
Proof.
  intros A D V P.
  assert (PA : positive_amount (strip (amount_input f)) = Some v).
  { unfold positive_amount. rewrite V.
    now rewrite (positive_not_leb_zero v P). }
  exists (added f v w). split; [now apply add_expense_positive|].
  split.
  - change (table (added f v w)) with (listAll (db (added f v w))).
    apply listAll_In. rewrite (added_rows f v w P).
    apply in_or_app. right. now left.
  - split; [reflexivity|]. split; [reflexivity|].
    unfold added, update_total, load_table. cbn [executed].
    now rewrite <- !app_assoc.
Qed.

Lemma add_expense_records_form_witness :
  exists w',
    add_expense
      {| date_box := {| Date.year := 2024; Date.month := 1; Date.day := 5 |};
         category_dropdown := Food;
         amount_input := of_string "250.00";
         description_input := of_string " Lunch " |} (start None)
    = (Done, w')
    /\ In (new_row (of_string "2024-01-05") (of_string "Food")
             (S754_finite false 8796093022208000 (-45)) (of_string "Lunch")
             empty) (table w')
    /\ table w' = listAll (db w')
    /\ total w' = sumAmount (db w')
    /\ executed w'
       = executed (start None)
         ++ [SqlInsert (of_string "2024-01-05") (of_string "Food")
               (S754_finite false 8796093022208000 (-45)) (of_string "Lunch");
             SqlSelectAll; SqlSelectSum].
Proof.
  apply (add_expense_records_form
           {| date_box := {| Date.year := 2024; Date.month := 1;
                             Date.day := 5 |};
              category_dropdown := Food;
              amount_input := of_string "250.00";
              description_input := of_string " Lunch " |} (start None)
           (S754_finite false 8796093022208000 (-45)));
    vm_compute; first [reflexivity|discriminate].
Defined.

(** The texts of two dates that the date box can hold compare as the
    dates do, so ordering the rows by the text of the date orders them by
    the calendar. *)
Theorem date_texts_order_as_dates (today a b : Date.qdate) :
  (Date.year today < 10000)%N ->
  Date.box_allows today a = true -> Date.box_allows today b = true ->
  Str.compare (Date.to_string a) (Date.to_string b) = Date.compare a b.
Proof.
  intros Y A B.
  apply DateFacts.to_string_compare; now apply (DateFacts.box_allows_fits today).
Qed.

Lemma date_texts_order_as_dates_witness :
  Str.compare
    (Date.to_string {| Date.year := 2024; Date.month := 1; Date.day := 5 |})
    (Date.to_string {| Date.year := 2023; Date.month := 12; Date.day := 31 |})
  = Date.compare {| Date.year := 2024; Date.month := 1; Date.day := 5 |}
      {| Date.year := 2023; Date.month := 12; Date.day := 31 |}.
Proof.
  apply (date_texts_order_as_dates
           {| Date.year := 2026; Date.month := 11; Date.day := 3 |});
    vm_compute; reflexivity.
Defined.

(** The scenario of the specification: a lunch of 250.00 on 2024-01-05
    and a rent of 1000.00 on 2024-01-01 are listed in this order with a
    total of 1250.00; after the lunch, the first row shown, is deleted, the
    rent is listed alone with a total of 1000.00. *)
Example specification_scenario :
  List.map description
    (table (App.run
              [Submit {| date_box := {| Date.year := 2024; Date.month := 1;
                                        Date.day := 5 |};
                         category_dropdown := Food;
                         amount_input := of_string "250.00";
                         description_input := of_string "Lunch" |};
               Submit {| date_box := {| Date.year := 2024; Date.month := 1;
                                        Date.day := 1 |};
                         category_dropdown := Bills;
                         amount_input := of_string "1000.00";
                         description_input := of_string "Rent" |}]
              (start None)))
  = [of_string "Lunch"; of_string "Rent"]
  /\ Some
       (total (App.run
                 [Submit {| date_box := {| Date.year := 2024; Date.month := 1;
                                           Date.day := 5 |};
                            category_dropdown := Food;
                            amount_input := of_string "250.00";
                            description_input := of_string "Lunch" |};
                  Submit {| date_box := {| Date.year := 2024; Date.month := 1;
                                           Date.day := 1 |};
                            category_dropdown := Bills;
                            amount_input := of_string "1000.00";
                            description_input := of_string "Rent" |}]
                 (start None)))
     = Float.of_text (of_string "1250.00")
  /\ List.map description
       (table (App.run
                 [Submit {| date_box := {| Date.year := 2024; Date.month := 1;
                                           Date.day := 5 |};
                            category_dropdown := Food;
                            amount_input := of_string "250.00";
                            description_input := of_string "Lunch" |};
                  Submit {| date_box := {| Date.year := 2024; Date.month := 1;
                                           Date.day := 1 |};
                            category_dropdown := Bills;
                            amount_input := of_string "1000.00";
                            description_input := of_string "Rent" |};
                  Remove (Some 0%nat) true]
                 (start None)))
     = [of_string "Rent"]
  /\ Some
       (total (App.run
                 [Submit {| date_box := {| Date.year := 2024; Date.month := 1;
                                           Date.day := 5 |};
                            category_dropdown := Food;
                            amount_input := of_string "250.00";
                            description_input := of_string "Lunch" |};
                  Submit {| date_box := {| Date.year := 2024; Date.month := 1;
                                           Date.day := 1 |};
                            category_dropdown := Bills;
                            amount_input := of_string "1000.00";
                            description_input := of_string "Rent" |};
                  Remove (Some 0%nat) true]
                 (start None)))
     = Float.of_text (of_string "1000.00").
Proof. repeat split; vm_compute; reflexivity. Qed.

(* ================================================================== *)
(** * Further properties of the window *)

(** However the window was used, it shows what the table holds: the rows
    of [table] are the rows [load_table] would fetch now, and the number
    of [total_label] is the sum [update_total] would fetch now.  This is
    so after a rejected form, a refused insert and an unanswered
    confirmation as well, which run no query. *)
Theorem view_never_stale (file : option store) (es : list event) :
  Session.in_sync (App.run es (start file)).
Proof. apply SessionFacts.in_sync_run, SessionFacts.in_sync_start. Qed.

(** Closing the program and starting it again on the same database file
    shows the same table and the same total. *)
Theorem restart_shows_the_same (file : option store) (es : list event) :
  db (start (Some (db (App.run es (start file)))))
  = db (App.run es (start file))
  /\ table (start (Some (db (App.run es (start file)))))
     = table (App.run es (start file))
  /\ total (start (Some (db (App.run es (start file)))))
     = total (App.run es (start file)).
Proof.
  destruct (SessionFacts.in_sync_run es (start file)
              (SessionFacts.in_sync_start file)) as [T S].
  split; [reflexivity|]. split; [now rewrite T|now rewrite S].
Qed.

(** A confirmed [delete_expense] on a selected row of a window that is in
    step with a well-formed table removes that row and no other: the
    table shown afterwards is the one shown before without the selected
    row, the other rows in their places; the stored rows are the former
    ones but that row; the statements run are the delete and the two
    queries. *)
Theorem delete_expense_removes_selected_row (w : app) (i : nat) (r : row) :
  well_formed (db w) -> Session.in_sync w ->
  nth_error (table w) i = Some r ->
  exists w',
    delete_expense (Some i) true w = (Done, w')
    /\ table w' = Session.without i (table w)
    /\ Session.in_sync w'
    /\ (forall x, In x (rows (db w')) <-> In x (rows (db w)) /\ x <> r)
    /\ executed w'
       = executed w ++ [SqlDelete (id r); SqlSelectAll; SqlSelectSum].
Proof. apply SessionFacts.delete_expense_selected. Qed.

Lemma delete_expense_removes_selected_row_witness :
  well_formed (db two_tenths_window)
  /\ Session.in_sync two_tenths_window
  /\ nth_error (table two_tenths_window) 1
     = Some {| id := 2; date := of_string "2024-01-05";
               category := of_string "Food";
               amount := S754_finite false 7205759403792794 (-55);
               description := of_string "Bun" |}
  /\ exists w',
       delete_expense (Some 1%nat) true two_tenths_window = (Done, w')
       /\ table w' = Session.without 1 (table two_tenths_window)
       /\ Session.in_sync w'
       /\ (forall x,
             In x (rows (db w'))
             <-> In x (rows (db two_tenths_window))
                 /\ x <> {| id := 2; date := of_string "2024-01-05";
                            category := of_string "Food";
                            amount := S754_finite false 7205759403792794 (-55);
                            description := of_string "Bun" |})
       /\ executed w'
          = executed two_tenths_window
            ++ [SqlDelete 2; SqlSelectAll; SqlSelectSum].
Proof.
  split; [exact well_formed_two_tenths|].
  split; [split; reflexivity|]. split; [reflexivity|].
  apply (delete_expense_removes_selected_row two_tenths_window 1
           {| id := 2; date := of_string "2024-01-05";
              category := of_string "Food";
              amount := S754_finite false 7205759403792794 (-55);
              description := of_string "Bun" |});
    [exact well_formed_two_tenths|split; reflexivity|reflexivity].
Defined.

(** The validator of [amount_input] and the length limit of the line
    edit let the field hold exactly this, in no more than 32767
    characters: nothing; or an entry, that is, one or more digits and then
    at most a point with up to two digits after it; or an entry followed
    by one line feed, which [insert] and [paste] can bring.  The validator
    calls the entries acceptable, and intermediate the empty text and an
    entry followed by a line feed, because [$] also holds before a line
    feed that ends the text; everything else it calls invalid. *)
Theorem amount_mask_exact (s : text) :
  (field_allows s = true
   <-> Z.of_nat (List.length s) <= max_length
       /\ (s = [] \/ entry s \/ exists e, entry e /\ s = e ++ [line_feed]))
  /\ (validate s = Acceptable <-> entry s)
  /\ (validate s = Intermediate
      <-> s = [] \/ exists e, entry e /\ s = e ++ [line_feed]).
Proof.
  split; [apply SlotFacts.field_allows_exact|].
  split; [apply SlotFacts.validate_acceptable|].
  apply SlotFacts.validate_intermediate.
Qed.

(** What the validator says of some texts. *)
Example validator_on_texts :
  validate [] = Intermediate
  /\ validate (of_string "12") = Acceptable
  /\ validate (of_string "12.") = Acceptable
  /\ validate (of_string "1.23") = Acceptable
  /\ validate (of_string "12" ++ [line_feed]) = Intermediate
  /\ validate (of_string "1.23" ++ [line_feed]) = Intermediate
  /\ validate (of_string "0" ++ [line_feed]) = Intermediate
  /\ validate [line_feed] = Invalid
  /\ validate (of_string "12" ++ [line_feed; line_feed]) = Invalid
  /\ validate (of_string "12" ++ [13%N]) = Invalid
  /\ validate (of_string "12 ") = Invalid
  /\ validate (of_string ".5") = Invalid
  /\ validate (of_string "1.234") = Invalid
  /\ validate (of_string "-1") = Invalid
  /\ validate (of_string "1e5") = Invalid.
Proof. repeat split; vm_compute; reflexivity. Qed.

(** Whatever the user does in a window opened on a day [today] that the
    date box can hold (edits, selections, clicks on the three buttons,
    Return in a line edit), the database, the table and the total go
    through a run of the slots [add_expense] and [delete_expense] on forms
    with a date the box allows on [today] and an amount that, as
    [add_expense] reads it, is nothing or an entry of the mask. *)
Theorem window_sessions_are_slot_runs
    (today : Date.qdate) (file : option store)
    (tr : list (Date.qdate * Gui.event)) :
  Date.box_allows today today = true ->
  exists es,
    Gui.state (Gui.run tr (Gui.open today file)) = App.run es (start file)
    /\ Forall (Gui.allowed today) es.
Proof.
  intros T.
  apply (GuiFacts.run_simulation tr (Gui.open today file)).
  now apply GuiFacts.window_well_formed_open.
Qed.

Lemma window_sessions_are_slot_runs_witness :
  Date.box_allows {| Date.year := 2026; Date.month := 11; Date.day := 3 |}
    {| Date.year := 2026; Date.month := 11; Date.day := 3 |} = true
  /\ exists es,
       Gui.state
         (Gui.run
            [({| Date.year := 2026; Date.month := 11; Date.day := 3 |},
              Gui.Edit {| date_box := {| Date.year := 2026; Date.month := 11;
                                         Date.day := 1 |};
                          category_dropdown := Bills;
                          amount_input := of_string "1000";
                          description_input := of_string "Rent" |});
             ({| Date.year := 2026; Date.month := 11; Date.day := 3 |},
              Gui.ReturnPressed Gui.AmountInput)]
            (Gui.open {| Date.year := 2026; Date.month := 11; Date.day := 3 |}
               None))
       = App.run es (start None)
       /\ Forall
            (Gui.allowed {| Date.year := 2026; Date.month := 11;
                            Date.day := 3 |}) es.
Proof.
  split; [reflexivity|].
  apply (window_sessions_are_slot_runs
           {| Date.year := 2026; Date.month := 11; Date.day := 3 |} None).
  reflexivity.
Defined.

(** In a window opened on such a day and used in any way, the input
    widgets hold what they can hold (a date between the first day of the
    box and [today], an amount the validator does not call invalid), a
    selection is a row of the table, and the window shows what the table
    holds. *)
Theorem window_stays_well_formed
    (today : Date.qdate) (file : option store)
    (tr : list (Date.qdate * Gui.event)) :
  Date.box_allows today today = true ->
  Gui.well_formed (Gui.run tr (Gui.open today file)).
Proof.
  intros T. apply GuiFacts.window_well_formed_run.
  now apply GuiFacts.window_well_formed_open.
Qed.

Lemma window_stays_well_formed_witness :
  Date.box_allows {| Date.year := 2026; Date.month := 11; Date.day := 3 |}
    {| Date.year := 2026; Date.month := 11; Date.day := 3 |} = true
  /\ Gui.well_formed
       (Gui.run
          [({| Date.year := 2026; Date.month := 11; Date.day := 3 |},
            Gui.Edit {| date_box := {| Date.year := 2026; Date.month := 11;
                                       Date.day := 1 |};
                        category_dropdown := Bills;
                        amount_input := of_string "1000" ++ [line_feed];
                        description_input := of_string "Rent" |});
           ({| Date.year := 2026; Date.month := 11; Date.day := 4 |},
            Gui.ClickAdd);
           ({| Date.year := 2026; Date.month := 11; Date.day := 4 |},
            Gui.Select (Some 0%nat))]
          (Gui.open {| Date.year := 2026; Date.month := 11; Date.day := 3 |}
             None)).
Proof.
  split; [reflexivity|].
  apply (window_stays_well_formed
           {| Date.year := 2026; Date.month := 11; Date.day := 3 |} None).
  reflexivity.
Defined.

(** An entry followed by a line feed in the amount field: Return in the
    field does nothing, since the text is not acceptable, and a click on
    Add stores the entry. *)
Example line_feed_in_amount_field :
  Gui.state
    (Gui.run
       [({| Date.year := 2026; Date.month := 11; Date.day := 3 |},
         Gui.Edit {| date_box := {| Date.year := 2026; Date.month := 11;
                                    Date.day := 1 |};
                     category_dropdown := Food;
                     amount_input := of_string "12" ++ [line_feed];
                     description_input := of_string "Tea" |});
        ({| Date.year := 2026; Date.month := 11; Date.day := 3 |},
         Gui.ReturnPressed Gui.AmountInput)]
       (Gui.open {| Date.year := 2026; Date.month := 11; Date.day := 3 |}
          None))
  = start None
  /\ List.map (fun r => Some (amount r))
       (rows (db (Gui.state
                    (Gui.run
                       [({| Date.year := 2026; Date.month := 11;
                            Date.day := 3 |},
                         Gui.Edit
                           {| date_box := {| Date.year := 2026;
                                             Date.month := 11;
                                             Date.day := 1 |};
                              category_dropdown := Food;
                              amount_input := of_string "12" ++ [line_feed];
                              description_input := of_string "Tea" |});
                        ({| Date.year := 2026; Date.month := 11;
                            Date.day := 3 |}, Gui.ClickAdd)]
                       (Gui.open {| Date.year := 2026; Date.month := 11;
                                    Date.day := 3 |} None)))))
     = [Float.of_text (of_string "12")].
Proof. split; vm_compute; reflexivity. Qed.

(** A submission that was stored is not stored twice by a second click
    on Add (or a second Return): [add_expense] has emptied the line edits,
    so the second run ends with the warning for a missing amount and
    changes nothing. *)
Theorem stored_form_is_not_stored_twice
    (now now' : Date.qdate) (g : Gui.window) :
  fst (Gui.add_expense now g) = Done ->
  Gui.add_expense now' (snd (Gui.add_expense now g))
  = (InputError "Please enter an amount.", snd (Gui.add_expense now g)).
Proof. apply GuiFacts.add_expense_twice. Qed.

Lemma stored_form_is_not_stored_twice_witness :
  fst (Gui.add_expense
         {| Date.year := 2026; Date.month := 11; Date.day := 3 |}
         (Gui.with_fields
            {| date_box := {| Date.year := 2026; Date.month := 11;
                              Date.day := 1 |};
               category_dropdown := Bills;
               amount_input := of_string "1000";
               description_input := of_string "Rent" |}
            (Gui.open {| Date.year := 2026; Date.month := 11; Date.day := 3 |}
               None))) = Done
  /\ Gui.add_expense {| Date.year := 2026; Date.month := 11; Date.day := 3 |}
       (snd (Gui.add_expense
               {| Date.year := 2026; Date.month := 11; Date.day := 3 |}
               (Gui.with_fields
                  {| date_box := {| Date.year := 2026; Date.month := 11;
                                    Date.day := 1 |};
                     category_dropdown := Bills;
                     amount_input := of_string "1000";
                     description_input := of_string "Rent" |}
                  (Gui.open {| Date.year := 2026; Date.month := 11;
                               Date.day := 3 |} None))))
     = (InputError "Please enter an amount.",
        snd (Gui.add_expense
               {| Date.year := 2026; Date.month := 11; Date.day := 3 |}
               (Gui.with_fields
                  {| date_box := {| Date.year := 2026; Date.month := 11;
                                    Date.day := 1 |};
                     category_dropdown := Bills;
                     amount_input := of_string "1000";
                     description_input := of_string "Rent" |}
                  (Gui.open {| Date.year := 2026; Date.month := 11;
                               Date.day := 3 |} None)))).
Proof.
  split; [reflexivity|].
  apply (stored_form_is_not_stored_twice
           {| Date.year := 2026; Date.month := 11; Date.day := 3 |}
           {| Date.year := 2026; Date.month := 11; Date.day := 3 |}).
  reflexivity.
Defined.

(** A deletion that was carried out is not repeated by a second click on
    Delete: [load_table] has rebuilt the table without a selection, so
    the second run ends with the warning for a missing selection and
    changes nothing. *)
Theorem deleted_row_is_not_followed_by_another
    (confirm : bool) (g : Gui.window) :
  fst (Gui.delete_expense true g) = Done ->
  Gui.delete_expense confirm (snd (Gui.delete_expense true g))
  = (DeleteError "Please select an expense to delete.",
     snd (Gui.delete_expense true g)).
Proof. apply GuiFacts.delete_expense_twice. Qed.

Lemma deleted_row_is_not_followed_by_another_witness :
  fst (Gui.delete_expense true
         (Gui.with_selection (Some 0%nat)
            (Gui.with_state two_tenths_window
               (Gui.open {| Date.year := 2026; Date.month := 11;
                            Date.day := 3 |} None)))) = Done
  /\ Gui.delete_expense true
       (snd (Gui.delete_expense true
               (Gui.with_selection (Some 0%nat)
                  (Gui.with_state two_tenths_window
                     (Gui.open {| Date.year := 2026; Date.month := 11;
                                  Date.day := 3 |} None)))))
     = (DeleteError "Please select an expense to delete.",
        snd (Gui.delete_expense true
               (Gui.with_selection (Some 0%nat)
                  (Gui.with_state two_tenths_window
                     (Gui.open {| Date.year := 2026; Date.month := 11;
                                  Date.day := 3 |} None))))).
Proof.
  split; [reflexivity|].
  apply (deleted_row_is_not_followed_by_another true).
  reflexivity.
Defined.

(** In a window opened on [today] on a database whose rows, if it has
    any, carry dates the box allows on [today], categories of the
    dropdown and amounts typed into the amount field, every stored row
    stays of this kind whatever the user does: no expense is dated after
    the day the program was started or before the first day of the box,
    every category is one of the seven, and every amount is the number
    [float] reads in an entry of the mask, which is what [add_expense]
    found in the amount field. *)
Theorem stored_rows_come_from_widgets
    (today : Date.qdate) (file : option store)
    (tr : list (Date.qdate * Gui.event)) :
  Date.box_allows today today = true ->
  Forall (Origin.from_widgets today) (rows (setup_database file)) ->
  Forall (Origin.from_widgets today)
    (rows (db (Gui.state (Gui.run tr (Gui.open today file))))).
Proof.
  intros T F.
  destruct (GuiFacts.run_simulation tr (Gui.open today file)
              (GuiFacts.window_well_formed_open today file T)) as [es [-> A]].
  now apply OriginFacts.from_widgets_run.
Qed.

Lemma stored_rows_come_from_widgets_witness :
  Date.box_allows {| Date.year := 2026; Date.month := 11; Date.day := 3 |}
    {| Date.year := 2026; Date.month := 11; Date.day := 3 |} = true
  /\ Forall
       (Origin.from_widgets
          {| Date.year := 2026; Date.month := 11; Date.day := 3 |})
       (rows (setup_database None))
  /\ Forall
       (Origin.from_widgets
          {| Date.year := 2026; Date.month := 11; Date.day := 3 |})
       (rows (db (Gui.state
                    (Gui.run
                       [({| Date.year := 2026; Date.month := 11;
                            Date.day := 3 |},
                         Gui.Edit
                           {| date_box := {| Date.year := 2026;
                                             Date.month := 11;
                                             Date.day := 1 |};
                              category_dropdown := Bills;
                              amount_input := of_string "1000";
                              description_input := of_string "Rent" |});
                        ({| Date.year := 2026; Date.month := 11;
                            Date.day := 3 |}, Gui.ClickAdd)]
                       (Gui.open {| Date.year := 2026; Date.month := 11;
                                    Date.day := 3 |} None))))).
Proof.
  split; [reflexivity|]. split; [constructor|].
  apply (stored_rows_come_from_widgets
           {| Date.year := 2026; Date.month := 11; Date.day := 3 |} None);
    [reflexivity|constructor].
Defined.

(** In such a window, with [today] in a year of at most four digits, the
    table shown lists the expenses by the calendar, the latest day first:
    the texts in the date column are the texts of days the box allows on
    [today], and these days never increase down the table. *)
Theorem table_in_calendar_order
    (today : Date.qdate) (file : option store)
    (tr : list (Date.qdate * Gui.event)) :
  (Date.year today < 10000)%N ->
  Date.box_allows today today = true ->
  Forall (Origin.from_widgets today) (rows (setup_database file)) ->
  exists qs,
    List.map date (table (Gui.state (Gui.run tr (Gui.open today file))))
    = List.map Date.to_string qs
    /\ Forall (fun q => Date.box_allows today q = true) qs
    /\ StronglySorted Origin.latest_first qs.
Proof.
  intros Y T F.
  pose proof (GuiFacts.window_well_formed_run tr _
                (GuiFacts.window_well_formed_open today file T)) as W.
  destruct (Gui.wf_view _ W) as [V _].
  destruct (GuiFacts.run_simulation tr (Gui.open today file)
              (GuiFacts.window_well_formed_open today file T)) as [es [E A]].
  change (Gui.state (Gui.open today file)) with (start file) in E.
  pose proof (OriginFacts.from_widgets_run today es (start file) A F) as R.
  rewrite <- E in R.
  set (g := Gui.run tr (Gui.open today file)) in *.
  assert (Ft : Forall (Origin.from_widgets today) (table (Gui.state g))).
  { rewrite V. apply Forall_forall. intros r Hr.
    apply listAll_In in Hr. rewrite Forall_forall in R. now apply R. }
  destruct (OriginFacts.days_of_rows today _ Ft) as [qs [M B]].
  exists qs. split; [exact M|]. split; [exact B|].
  apply (OriginFacts.days_sorted today qs Y B _ M).
  rewrite V. apply order_by_date_desc_sorted.
Qed.

Lemma table_in_calendar_order_witness :
  (Date.year {| Date.year := 2026; Date.month := 11; Date.day := 3 |}
   < 10000)%N
  /\ Date.box_allows {| Date.year := 2026; Date.month := 11; Date.day := 3 |}
       {| Date.year := 2026; Date.month := 11; Date.day := 3 |} = true
  /\ Forall
       (Origin.from_widgets
          {| Date.year := 2026; Date.month := 11; Date.day := 3 |})
       (rows (setup_database None))
  /\ exists qs,
       List.map date
         (table (Gui.state
                   (Gui.run
                      [({| Date.year := 2026; Date.month := 11;
                           Date.day := 3 |},
                        Gui.Edit
                          {| date_box := {| Date.year := 2026;
                                            Date.month := 11;
                                            Date.day := 1 |};
                             category_dropdown := Bills;
                             amount_input := of_string "1000";
                             description_input := of_string "Rent" |});
                       ({| Date.year := 2026; Date.month := 11;
                           Date.day := 3 |}, Gui.ClickAdd)]
                      (Gui.open {| Date.year := 2026; Date.month := 11;
                                   Date.day := 3 |} None))))
       = List.map Date.to_string qs
       /\ Forall
            (fun q =>
               Date.box_allows
                 {| Date.year := 2026; Date.month := 11; Date.day := 3 |} q
               = true) qs
       /\ StronglySorted Origin.latest_first qs.
Proof.
  split; [reflexivity|]. split; [reflexivity|]. split; [constructor|].
  apply (table_in_calendar_order
           {| Date.year := 2026; Date.month := 11; Date.day := 3 |} None);
    [reflexivity|reflexivity|constructor].
Defined.

(** The id cell identifies the row: in a well-formed table, two rows that
    [load_table] shows with the same text in the first cell are the same
    row, so the text [delete_expense] reads from the selected row names
    one stored expense. *)
Theorem id_cell_identifies_row (st : store) (r1 r2 : row) :
  well_formed st -> In r1 (listAll st) -> In r2 (listAll st) ->
  nth_error (Render.cells r1) 0 = nth_error (Render.cells r2) 0 ->
  r1 = r2.
Proof.
  intros W I1 I2 E. simpl in E. injection E as E.
  apply CellFacts.str_int_inj in E.
  apply listAll_In in I1, I2.
  now apply (well_formed_key_unique st).
Qed.

Lemma id_cell_identifies_row_witness :
  well_formed two_tenths
  /\ In {| id := 2; date := of_string "2024-01-05";
           category := of_string "Food";
           amount := S754_finite false 7205759403792794 (-55);
           description := of_string "Bun" |} (listAll two_tenths)
  /\ nth_error
       (Render.cells {| id := 2; date := of_string "2024-01-05";
                        category := of_string "Food";
                        amount := S754_finite false 7205759403792794 (-55);
                        description := of_string "Bun" |}) 0
     = Some (of_string "2")
  /\ {| id := 2; date := of_string "2024-01-05";
        category := of_string "Food";
        amount := S754_finite false 7205759403792794 (-55);
        description := of_string "Bun" |}
     = {| id := 2; date := of_string "2024-01-05";
          category := of_string "Food";
          amount := S754_finite false 7205759403792794 (-55);
          description := of_string "Bun" |}.
Proof.
  split; [exact well_formed_two_tenths|].
  split; [vm_compute; auto|]. split; [reflexivity|].
  apply (id_cell_identifies_row two_tenths);
    [exact well_formed_two_tenths|vm_compute; auto|vm_compute; auto
    |reflexivity].
Defined.

(** On what the amount field can hold, [add_expense] ends in one of four
    ways, decided in this order on the texts without the spaces at their
    ends: the warning for a missing amount when nothing is left of the
    amount, the warning for a missing description when nothing is left of
    the description, the warning for an amount that is not positive when
    the amount has no digit but 0, and otherwise the expense is stored.
    So every amount with a digit other than 0 that the field can hold is
    accepted, however small or large, with or without a line feed after
    it, and the store never refuses the insert. *)
Theorem add_expense_on_typed_amount (f : form) (w : app) :
  field_allows (amount_input f) = true ->
  fst (add_expense f w)
  = if is_empty (strip (amount_input f))
    then InputError "Please enter an amount."
    else if is_empty (strip (description_input f))
         then InputError "Please enter a description."
    else if Typed.names_zero (strip (amount_input f))
         then InputError "Amount must be a positive number."
    else Done.
Proof. apply ShownFacts.add_expense_on_field. Qed.

Lemma add_expense_on_typed_amount_witness :
  field_allows (of_string "0" ++ [line_feed]) = true
  /\ fst (add_expense
            {| date_box := {| Date.year := 2024; Date.month := 1;
                              Date.day := 5 |};
               category_dropdown := Food;
               amount_input := of_string "0" ++ [line_feed];
               description_input := of_string "Sweet" |} (start None))
     = InputError "Amount must be a positive number.".
Proof.
  split; [reflexivity|].
  apply (add_expense_on_typed_amount
           {| date_box := {| Date.year := 2024; Date.month := 1;
                             Date.day := 5 |};
              category_dropdown := Food;
              amount_input := of_string "0" ++ [line_feed];
              description_input := of_string "Sweet" |} (start None)).
  reflexivity.
Defined.

(** The smallest amount, with and without a line feed after it. *)
Example smallest_amount_is_stored :
  fst (add_expense
         {| date_box := {| Date.year := 2024; Date.month := 1;
                           Date.day := 5 |};
            category_dropdown := Food;
            amount_input := of_string "0.01";
            description_input := of_string "Sweet" |} (start None)) = Done
  /\ fst (add_expense
            {| date_box := {| Date.year := 2024; Date.month := 1;
                              Date.day := 5 |};
               category_dropdown := Food;
               amount_input := of_string "0.01" ++ [line_feed];
               description_input := of_string "Sweet" |} (start None))
     = Done.
Proof. split; vm_compute; reflexivity. Qed.

(** The amount cell of [load_table] shows the amount as it was typed: for
    a text [t] that the amount field holds and that stands for less than
    ten million million, with the number that [float] reads in it once
    [add_expense] has taken the spaces off its ends stored, the cell holds
    the rupee sign and the hundredths that the digits of [t] denote,
    written with commas and two decimals.  The binary rounding of the
    stored number does not show. *)
Theorem amount_cell_shows_typed_amount (t : text) (v : float) :
  field_allows t = true -> Float.of_text (strip t) = Some v ->
  Z.of_N (Typed.in_hundredths (strip t)) < 10 ^ 15 ->
  Render.amount_cell v
  = Render.rupee :: Render.decimal (Typed.in_hundredths (strip t)).
Proof.
  intros F. apply SumFacts.amount_shown. now apply SlotFacts.field_strip.
Qed.

Lemma amount_cell_shows_typed_amount_witness :
  field_allows (of_string "1234.1") = true
  /\ Float.of_text (strip (of_string "1234.1"))
     = Some (S754_finite false 5427629199353446 (-42))
  /\ Z.of_N (Typed.in_hundredths (strip (of_string "1234.1"))) < 10 ^ 15
  /\ Render.amount_cell (S754_finite false 5427629199353446 (-42))
     = Render.rupee :: of_string "1,234.10".
Proof.
  split; [reflexivity|]. split; [vm_compute; reflexivity|].
  split; [reflexivity|].
  apply (amount_cell_shows_typed_amount (of_string "1234.1")
           (S754_finite false 5427629199353446 (-42)));
    [reflexivity|vm_compute; reflexivity|reflexivity].
Defined.

(** The total label of [update_total] shows the exact total: for a table
    of up to ten thousand rows whose amounts are the numbers [float]
    reads in texts [ts] that [add_expense] found in the amount field, less
    than a hundred million in all, the label holds the sum of the
    hundredths that the digits of these texts denote, written with commas
    and two decimals.  The rounding of the sum that SQLite works out in
    binary64, with its error term, does not show. *)
Theorem total_label_shows_exact_total (st : store) (ts : list text) :
  Forall2 (fun r t => Origin.typed_as t (amount r)) (rows st) ts ->
  Z.of_nat (List.length ts) <= 10000 ->
  Z.of_N (Typed.total ts) < 10 ^ 10 ->
  Render.total_label (sumAmount st)
  = of_string "Total: " ++ Render.rupee :: Render.decimal (Typed.total ts).
Proof. apply ShownFacts.total_label_of_rows. Qed.

Lemma total_label_shows_exact_total_witness :
  Forall2 (fun r t => Origin.typed_as t (amount r))
    (rows ten_tenths)
    [of_string "0.1"; of_string "0.2"; of_string "0.3"; of_string "0.4"]
  /\ Z.of_nat
       (List.length
          [of_string "0.1"; of_string "0.2"; of_string "0.3";
           of_string "0.4"]) <= 10000
  /\ Z.of_N
       (Typed.total
          [of_string "0.1"; of_string "0.2"; of_string "0.3";
           of_string "0.4"]) < 10 ^ 10
  /\ Render.total_label (sumAmount ten_tenths)
     = of_string "Total: " ++ Render.rupee :: of_string "1.00".
Proof.
  assert (F : Forall2 (fun r t => Origin.typed_as t (amount r))
                (rows ten_tenths)
                [of_string "0.1"; of_string "0.2"; of_string "0.3";
                 of_string "0.4"]).
  { repeat constructor; vm_compute; reflexivity. }
  split; [exact F|]. split; [vm_compute; discriminate|].
  split; [reflexivity|].
  apply (total_label_shows_exact_total ten_tenths
           [of_string "0.1"; of_string "0.2"; of_string "0.3";
            of_string "0.4"] F);
    [vm_compute; discriminate|reflexivity].
Defined.

(** From the first start on a new database, or on one whose rows came
    from the widgets, and whatever the user does, the window shows exact
    amounts: the amounts of the stored rows are the numbers [float] read
    in texts [ts] that [add_expense] found in the amount field, one for
    each row; each of them below ten million million is shown in its cell
    as it was typed; and while there are at most ten thousand rows that
    come to less than a hundred million, the total label shows the sum of
    the typed amounts to the hundredth. *)
Theorem session_shows_exact_amounts
    (today : Date.qdate) (file : option store)
    (tr : list (Date.qdate * Gui.event)) :
  Date.box_allows today today = true ->
  Forall (Origin.from_widgets today) (rows (setup_database file)) ->
  exists ts,
    Forall2 (fun r t => Origin.typed_as t (amount r))
      (rows (db (Gui.state (Gui.run tr (Gui.open today file))))) ts
    /\ Forall2
         (fun r t =>
            Z.of_N (Typed.in_hundredths t) < 10 ^ 15 ->
            Render.amount_cell (amount r)
            = Render.rupee :: Render.decimal (Typed.in_hundredths t))
         (rows (db (Gui.state (Gui.run tr (Gui.open today file))))) ts
    /\ (Z.of_nat (List.length ts) <= 10000 ->
        Z.of_N (Typed.total ts) < 10 ^ 10 ->
        Render.total_label
          (total (Gui.state (Gui.run tr (Gui.open today file))))
        = of_string "Total: "
          ++ Render.rupee :: Render.decimal (Typed.total ts)).
Proof.
  intros T F.
  pose proof (GuiFacts.window_well_formed_run tr _
                (GuiFacts.window_well_formed_open today file T)) as W.
  destruct (Gui.wf_view _ W) as [_ S].
  destruct (GuiFacts.run_simulation tr (Gui.open today file)
              (GuiFacts.window_well_formed_open today file T)) as [es [E A]].
  change (Gui.state (Gui.open today file)) with (start file) in E.
  pose proof (OriginFacts.from_widgets_run today es (start file) A F) as R.
  rewrite <- E in R.
  set (g := Gui.run tr (Gui.open today file)) in *.
  destruct (OriginFacts.texts_of_rows today _ R) as [ts Ft].
  exists ts. split; [exact Ft|]. split.
  - clear - Ft. induction Ft as [|r t l ts [Hf Hv] _ IH]; constructor; auto.
    intros U. now apply SumFacts.amount_shown.
  - intros L U. rewrite S.
    now apply ShownFacts.total_label_of_rows.
Qed.

Lemma session_shows_exact_amounts_witness :
  Date.box_allows {| Date.year := 2026; Date.month := 11; Date.day := 3 |}
    {| Date.year := 2026; Date.month := 11; Date.day := 3 |} = true
  /\ Forall
       (Origin.from_widgets
          {| Date.year := 2026; Date.month := 11; Date.day := 3 |})
       (rows (setup_database None))
  /\ exists ts,
       Forall2 (fun r t => Origin.typed_as t (amount r))
         (rows (db (Gui.state
                      (Gui.run
                         [({| Date.year := 2026; Date.month := 11;
                              Date.day := 3 |},
                           Gui.Edit
                             {| date_box := {| Date.year := 2026;
                                               Date.month := 11;
                                               Date.day := 1 |};
                                category_dropdown := Food;
                                amount_input := of_string "0.1";
                                description_input := of_string "Tea" |});
                          ({| Date.year := 2026; Date.month := 11;
                              Date.day := 3 |}, Gui.ClickAdd)]
                         (Gui.open {| Date.year := 2026; Date.month := 11;
                                      Date.day := 3 |} None))))) ts
       /\ Forall2
            (fun r t =>
               Z.of_N (Typed.in_hundredths t) < 10 ^ 15 ->
               Render.amount_cell (amount r)
               = Render.rupee :: Render.decimal (Typed.in_hundredths t))
            (rows (db (Gui.state
                         (Gui.run
                            [({| Date.year := 2026; Date.month := 11;
                                 Date.day := 3 |},
                              Gui.Edit
                                {| date_box := {| Date.year := 2026;
                                                  Date.month := 11;
                                                  Date.day := 1 |};
                                   category_dropdown := Food;
                                   amount_input := of_string "0.1";
                                   description_input := of_string "Tea" |});
                             ({| Date.year := 2026; Date.month := 11;
                                 Date.day := 3 |}, Gui.ClickAdd)]
                            (Gui.open {| Date.year := 2026; Date.month := 11;
                                         Date.day := 3 |} None))))) ts
       /\ (Z.of_nat (List.length ts) <= 10000 ->
           Z.of_N (Typed.total ts) < 10 ^ 10 ->
           Render.total_label
             (total (Gui.state
                       (Gui.run
                          [({| Date.year := 2026; Date.month := 11;
                               Date.day := 3 |},
                            Gui.Edit
                              {| date_box := {| Date.year := 2026;
                                                Date.month := 11;
                                                Date.day := 1 |};
                                 category_dropdown := Food;
                                 amount_input := of_string "0.1";
                                 description_input := of_string "Tea" |});
                           ({| Date.year := 2026; Date.month := 11;
                               Date.day := 3 |}, Gui.ClickAdd)]
                          (Gui.open {| Date.year := 2026; Date.month := 11;
                                       Date.day := 3 |} None))))
           = of_string "Total: "
             ++ Render.rupee :: Render.decimal (Typed.total ts)).
Proof.
  split; [reflexivity|]. split; [constructor|].
  apply (session_shows_exact_amounts
           {| Date.year := 2026; Date.month := 11; Date.day := 3 |} None);
    [reflexivity|constructor].
Defined.
